(** * animate.py: the live-diff terminal renderer

    A shallow embedding of [src/animate.py]: the display-width aware padding
    ([pad_vis]), the count parser ([parse_int_or_none]), the row formatter
    ([build_colored_line]), the ANSI-aware typing animation ([type_out]), the
    scroll-region control ([enable_sticky_title], [reset_scroll_region]) and
    the polling loop of [main] with its retained state [prev_state].

    Python values are modelled as the program meets them:
    - a [str] is the list of its Unicode code points;
    - a decoded JSON value is [None], an [int] (with [bool] as the subclass
      of [int] it is in Python), a [float] (the not-a-number and the
      infinities that [json.loads] accepts included), a [str], a [list] or a
      [dict];
    - an exception is a value of [exn], and a call that may raise returns a
      [result];
    - the terminal is a trace of [event]s: writes, flushes and sleeps; a
      write, a flush or a sleep raises when the outside world makes it.

    What the program takes from outside and does not pin to a release is a
    parameter, [runtime]: the measure [wcswidth] of the wcwidth package,
    Python's [repr] of a [float], a [list] or a [dict], and the order that
    [sorted] leaves where [<] does not order the keys. *)

From Stdlib Require Import ZArith NArith QArith Qcanon Qpower Lqa.
From Stdlib Require Import List Lia Bool Ascii String DecimalString.
From Stdlib Require Import DecimalPos.
From Stdlib Require Import Floats.SpecFloat.
From Stdlib Require Import Sorting.Sorted Sorting.Permutation.
From stdpp Require Import base option list gmap.
From Equations Require Import Equations.

Local Open Scope Z_scope.

(** A match that keeps its equation, for the definitions by well-founded
    recursion. *)
Definition inspect {A : Type} (x : A) : { y : A | x = y } := exist _ x eq_refl.

(** ** Strings *)

(** A Unicode code point. *)
Abbreviation char := N (only parsing).

(** A Python [str]: the list of its code points. *)
Abbreviation pystr := (list N) (only parsing).

(** The [str] written as an ASCII literal in the source. *)
Definition lit (s : string) : pystr :=
  map N_of_ascii (list_ascii_of_string s).

Definition LF : char := 10%N.
Definition ESC : char := 27%N.
Definition SPACE : char := 32%N.

(** A printable ASCII character. *)
Definition printable (c : char) : Prop := (32 <= c <= 126)%N.

(** [s * n] for a one-character [s]: empty when [n <= 0]. *)
Definition str_mul (c : char) (n : Z) : pystr := repeat c (Z.to_nat n).

(** [s.endswith(t)]. *)
Definition endswith (s t : pystr) : bool :=
  bool_decide (drop (length s - length t)%nat s = t).

(** [hay[i:].startswith(needle)], unrolled on the needle. *)
Fixpoint starts_with (needle hay : pystr) : bool :=
  match needle, hay with
  | [], _ => true
  | _ :: _, [] => false
  | a :: needle', b :: hay' => N.eqb a b && starts_with needle' hay'
  end.

(** [hay.find(needle)]: the lowest index at which [needle] occurs, [None] for
    Python's [-1]. *)
Fixpoint py_find (needle hay : pystr) : option nat :=
  if starts_with needle hay then Some O
  else match hay with
       | [] => None
       | _ :: hay' => S <$> py_find needle hay'
       end.

(** ** Exceptions and results *)

Inductive exn :=
| KeyboardInterrupt          (* BaseException, not an Exception *)
| SystemExit                 (* BaseException, not an Exception *)
| TypeError
| AttributeError
| ValueError
| UnicodeEncodeError         (* a ValueError: a character the terminal's
                                encoding has not, such as a lone surrogate *)
| OSError                    (* a write to a closed terminal or pipe *)
| HTTPError                  (* httpx transport and status errors *)
| JSONDecodeError.           (* a ValueError raised by [r.json()] *)

(** [isinstance(e, Exception)]. *)
Definition is_Exception (e : exn) : bool :=
  match e with
  | KeyboardInterrupt | SystemExit => false
  | _ => true
  end.

Inductive result (A : Type) :=
| Ok (a : A)
| Raise (e : exn).
Arguments Ok {A} a.
Arguments Raise {A} e.

Definition rbind {A B} (m : result A) (k : A -> result B) : result B :=
  match m with
  | Ok a => k a
  | Raise e => Raise e
  end.

(** ** Values *)

(** Instances of [int]; [bool] is a subclass of [int]. *)
Inductive pynum :=
| NInt (z : Z)
| NBool (b : bool).

Definition num_val (n : pynum) : Z :=
  match n with
  | NInt z => z
  | NBool b => Z.b2z b
  end.

(** A decoded JSON value, also the result of [dict.get] ([PNone] when the
    key is absent or maps to [null]). A [float] is a binary floating-point
    number; the fields of a [dict] are in the order of the document, each
    key once. *)
#[warnings="-register-all"] Inductive pyval :=
| PNone
| PNum (n : pynum)
| PFloat (f : spec_float)
| PStr (s : pystr)
| PList (elements : list pyval)
| PDict (fields : list (pystr * pyval)).

(** What a number is worth: not a number, an infinity, or a rational. *)
Inductive number :=
| NaN
| MinusInf
| Rational (q : Q)
| PlusInf.

Definition float_number (f : spec_float) : number :=
  match f with
  | S754_nan => NaN
  | S754_infinity s => if s then MinusInf else PlusInf
  | S754_zero _ => Rational 0
  | S754_finite s m e =>
      Rational (inject_Z (if s then Z.neg m else Z.pos m) * Qpower 2 e)
  end.

Definition int_number (n : pynum) : number := Rational (inject_Z (num_val n)).

(** [x == y] and [x < y] between numbers: Python compares an [int] and a
    [float] by their exact values; a not-a-number is neither equal to nor
    smaller or greater than anything, itself included. *)
Definition number_eq (x y : number) : bool :=
  match x, y with
  | MinusInf, MinusInf | PlusInf, PlusInf => true
  | Rational p, Rational q => Qeq_bool p q
  | _, _ => false
  end.

Definition number_lt (x y : number) : bool :=
  match x, y with
  | NaN, _ | _, NaN => false
  | _, MinusInf => false
  | MinusInf, _ => true
  | PlusInf, _ => false
  | Rational _, PlusInf => true
  | Rational p, Rational q => negb (Qle_bool q p)
  end.

Definition is_nan (v : pyval) : bool :=
  match v with
  | PFloat S754_nan => true
  | _ => false
  end.

(** [bool(v)]. *)
Definition truthy (v : pyval) : bool :=
  match v with
  | PNone => false
  | PNum n => negb (num_val n =? 0)
  | PFloat (S754_zero _) => false
  | PFloat _ => true
  | PStr s => negb (bool_decide (s = []))
  | PList l => negb (bool_decide (l = []))
  | PDict d => negb (bool_decide (d = []))
  end.

(** [v or d]. *)
Definition py_or (v d : pyval) : pyval := if truthy v then v else d.

(** [d.get(k)] on the fields of a [dict]. *)
Fixpoint dict_get (d : list (pystr * pyval)) (k : pystr) : option pyval :=
  match d with
  | [] => None
  | (k', v) :: d' => if bool_decide (k' = k) then Some v else dict_get d' k
  end.

(** [a == b]: numbers compare by value ([True == 1], [1 == 1.0]), strings
    by their code points, [None] only equals [None]; two lists are equal
    when they have the same length and equal elements, two dicts when they
    have the same keys with equal values. Inside a list or a dict an element
    is first compared by identity: every not-a-number that [json.loads]
    decodes is one and the same object, so that [[nan] == [nan]] holds
    although [nan == nan] does not. *)
Fixpoint py_eq (a b : pyval) {struct a} : bool :=
  match a, b with
  | PNone, PNone => true
  | PNum m, PNum n => num_val m =? num_val n
  | PNum m, PFloat g => number_eq (int_number m) (float_number g)
  | PFloat f, PNum n => number_eq (float_number f) (int_number n)
  | PFloat f, PFloat g => number_eq (float_number f) (float_number g)
  | PStr s, PStr t => bool_decide (s = t)
  | PList l, PList m =>
      (fix elements (l m : list pyval) : bool :=
         match l, m with
         | [], [] => true
         | x :: l', y :: m' =>
             ((is_nan x && is_nan y) || py_eq x y) && elements l' m'
         | _, _ => false
         end) l m
  | PDict d, PDict e =>
      (length d =? length e)%nat
      && (fix fields (d : list (pystr * pyval)) : bool :=
            match d with
            | [] => true
            | (k, v) :: d' =>
                match dict_get e k with
                | Some w => ((is_nan v && is_nan w) || py_eq v w) && fields d'
                | None => false
                end
            end) d
  | _, _ => false
  end.

(** [a != b]. *)
Definition py_ne (a b : pyval) : bool := negb (py_eq a b).

(** [s < t] on [str]: lexicographic on code points. *)
Fixpoint str_lt (s t : pystr) : bool :=
  match s, t with
  | _, [] => false
  | [], _ :: _ => true
  | a :: s', b :: t' => (a <? b)%N || (N.eqb a b && str_lt s' t')
  end.

(** [a < b]: defined between numbers, between strings and between lists
    (at the first elements that differ), a [TypeError] otherwise. *)
Fixpoint py_lt (a b : pyval) {struct a} : result bool :=
  match a, b with
  | PNum m, PNum n => Ok (num_val m <? num_val n)
  | PNum m, PFloat g => Ok (number_lt (int_number m) (float_number g))
  | PFloat f, PNum n => Ok (number_lt (float_number f) (int_number n))
  | PFloat f, PFloat g => Ok (number_lt (float_number f) (float_number g))
  | PStr s, PStr t => Ok (str_lt s t)
  | PList l, PList m =>
      (fix elements (l m : list pyval) : result bool :=
         match l, m with
         | [], [] => Ok false
         | [], _ :: _ => Ok true
         | _ :: _, [] => Ok false
         | x :: l', y :: m' =>
             if (is_nan x && is_nan y) || py_eq x y then elements l' m'
             else py_lt x y
         end) l m
  | _, _ => Raise TypeError
  end.

(** [str(z)] for an [int]. *)
Definition str_int (z : Z) : pystr :=
  lit (NilZero.string_of_int (Z.to_int z)).

(** [str(n)] for an [int] or a [bool]. *)
Definition str_num (n : pynum) : pystr :=
  match n with
  | NInt z => str_int z
  | NBool true => lit "True"
  | NBool false => lit "False"
  end.

(** ** Unicode digits: [str.isdigit] and [int] *)

(** The code points of the zero of every run of ten decimal digits
    (general category Nd; Unicode 14.0). The digit of value [d] of a run is
    at [zero + d]. *)
Definition decimal_zeros : list N :=
  [0x30; 0x660; 0x6f0; 0x7c0; 0x966; 0x9e6; 0xa66; 0xae6; 0xb66; 0xbe6;
   0xc66; 0xce6; 0xd66; 0xde6; 0xe50; 0xed0; 0xf20; 0x1040; 0x1090; 0x17e0;
   0x1810; 0x1946; 0x19d0; 0x1a80; 0x1a90; 0x1b50; 0x1bb0; 0x1c40; 0x1c50;
   0xa620; 0xa8d0; 0xa900; 0xa9d0; 0xa9f0; 0xaa50; 0xabf0; 0xff10; 0x104a0;
   0x10d30; 0x11066; 0x110f0; 0x11136; 0x111d0; 0x112f0; 0x11450; 0x114d0;
   0x11650; 0x116c0; 0x11730; 0x118e0; 0x11950; 0x11c50; 0x11d50; 0x11da0;
   0x16a60; 0x16ac0; 0x16b50; 0x1d7ce; 0x1d7d8; 0x1d7e2; 0x1d7ec; 0x1d7f6;
   0x1e140; 0x1e2f0; 0x1e950; 0x1fbf0]%N.

(** The code points that are digits without being decimal digits
    (Numeric_Type=Digit: superscripts, subscripts, circled digits, ...), as
    inclusive ranges. *)
Definition digit_only_ranges : list (N * N) :=
  [(0xb2, 0xb3); (0xb9, 0xb9); (0x1369, 0x1371); (0x19da, 0x19da);
   (0x2070, 0x2070); (0x2074, 0x2079); (0x2080, 0x2089); (0x2460, 0x2468);
   (0x2474, 0x247c); (0x2488, 0x2490); (0x24ea, 0x24ea); (0x24f5, 0x24fd);
   (0x24ff, 0x24ff); (0x2776, 0x277e); (0x2780, 0x2788); (0x278a, 0x2792);
   (0x10a40, 0x10a43); (0x10e60, 0x10e68); (0x11052, 0x1105a);
   (0x1f100, 0x1f10a)]%N.

(** The value of a decimal digit looked up in a list of run starts. *)
Fixpoint decimal_in (zeros : list N) (c : char) : option Z :=
  match zeros with
  | [] => None
  | z :: zeros' =>
      if ((z <=? c) && (c <? z + 10))%N then Some (Z.of_N (c - z))
      else decimal_in zeros' c
  end.

(** [unicodedata.decimal(c, None)]. *)
Definition decimal_value (c : char) : option Z := decimal_in decimal_zeros c.

(** [c.isdigit()] for one character. *)
Definition isdigit_char (c : char) : bool :=
  bool_decide (is_Some (decimal_value c))
  || existsb (fun r => (fst r <=? c) && (c <=? snd r))%N digit_only_ranges.

(** [s.isdigit()]: every character is a digit and there is at least one. *)
Definition isdigit (s : pystr) : bool :=
  negb (bool_decide (s = [])) && forallb isdigit_char s.

(** An ASCII decimal digit, ['0'..'9']. *)
Definition ascii_digit (c : char) : bool := ((48 <=? c) && (c <=? 57))%N.

(** The base-10 value of a digit string read from the left, [None] as soon
    as a character has no decimal value. *)
Fixpoint decimal_fold (acc : Z) (s : pystr) : option Z :=
  match s with
  | [] => Some acc
  | c :: s' =>
      match decimal_value c with
      | Some d => decimal_fold (10 * acc + d) s'
      | None => None
      end
  end.

(** [sys.int_info.default_max_str_digits]: CPython refuses to convert a
    longer digit string. *)
Definition int_max_str_digits : nat := 4300.

(** [int(s)] on a string for which [s.isdigit()] holds (no sign, blank or
    underscore can occur in it): the base-10 value when every character is a
    decimal digit and the string is within the conversion limit, a
    [ValueError] otherwise. *)
Definition int_of_str (s : pystr) : result Z :=
  if (int_max_str_digits <? length s)%nat then Raise ValueError
  else match decimal_fold 0 s with
       | Some z => Ok z
       | None => Raise ValueError
       end.

(** ** parse_int_or_none *)

(** [parse_int_or_none(val)]: the value itself when it is an [int], the
    converted integer when it is a [str] of digits, [None] otherwise. *)
Definition parse_int_or_none (val : pyval) : result (option pynum) :=
  match val with
  | PNum n => Ok (Some n)
  | PStr s =>
      if isdigit s then rbind (int_of_str s) (fun z => Ok (Some (NInt z)))
      else Ok None
  | _ => Ok None
  end.

(** ** Terminal output *)

(** What the program does to the terminal, in order. A duration is in
    seconds. *)
Inductive event :=
| Write (s : pystr)
| Flush
| Sleep (seconds : Q).

Definition INTERVAL_SECONDS : Q := 3.
Definition TYPE_DELAY : Q := 1 # 1000.
Definition COL1_WIDTH : Z := 54.
Definition COL2_WIDTH : Z := 16.

(** colorama's escape codes. *)
Module Fore.
Definition RED : pystr := ESC :: lit "[31m".
Definition GREEN : pystr := ESC :: lit "[32m".
Definition YELLOW : pystr := ESC :: lit "[33m".
Definition MAGENTA : pystr := ESC :: lit "[35m".
Definition CYAN : pystr := ESC :: lit "[36m".
End Fore.

Module Style.
Definition RESET_ALL : pystr := ESC :: lit "[0m".
End Style.

(** *** ANSI_RE *)

(** The three character classes of [ANSI_RE]: [[0-?]], [[ -/]], [[@-~]]. *)
Definition is_param (c : char) : bool := ((0x30 <=? c) && (c <=? 0x3f))%N.
Definition is_inter (c : char) : bool := ((0x20 <=? c) && (c <=? 0x2f))%N.
Definition is_final (c : char) : bool := ((0x40 <=? c) && (c <=? 0x7e))%N.

(** The number of leading characters of [s] in a class: what a greedy
    [[...]*] consumes. *)
Fixpoint run_length (p : char -> bool) (s : pystr) : nat :=
  match s with
  | c :: s' => if p c then S (run_length p s') else O
  | [] => O
  end.

(** [ANSI_RE.match(line, i)] on [s = line[i:]]: the length of the match of
    [\x1b\[[0-?]*[ -/]*[@-~]] at the start of [s]. The classes are disjoint,
    so the greedy runs are the only way to match. *)
Definition ANSI_RE_match (s : pystr) : option nat :=
  match s with
  | e :: b :: r =>
      if (e =? ESC)%N && (b =? 0x5b)%N then
        let np := run_length is_param r in
        let ni := run_length is_inter (drop np r) in
        match drop (np + ni) r with
        | f :: _ => if is_final f then Some (2 + np + ni + 1)%nat else None
        | [] => None
        end
      else None
  | _ => None
  end.

(** The language of [ANSI_RE], as the pattern reads. *)
Inductive ansi_sequence : pystr -> Prop :=
| ansi_seq (ps qs : pystr) (f : char) :
    Forall (fun c => is_param c = true) ps ->
    Forall (fun c => is_inter c = true) qs ->
    is_final f = true ->
    ansi_sequence (ESC :: 0x5b%N :: ps ++ qs ++ [f]).

(** *** type_out *)

(** The [while i < len(line)] loop of [type_out]: an escape sequence at [i]
    is printed whole, any other character is printed alone and followed by
    the typing delay. *)
Equations? type_out_from (line : pystr) (i : nat) : list event
  by wf (length line - i)%nat lt :=
  type_out_from line i with lt_dec i (length line) := {
    | right _ => []
    | left _ with inspect (ANSI_RE_match (drop i line)) := {
        | exist _ (Some n) Hm =>
            Write (take n (drop i line)) :: Flush
              :: type_out_from line (i + n)
        | exist _ None _ =>
            Write (take 1 (drop i line)) :: Flush :: Sleep TYPE_DELAY
              :: type_out_from line (i + 1) } }.
Proof.
  - assert (0 < n)%nat; [|lia].
    revert Hm. unfold ANSI_RE_match.
    destruct (drop i line) as [|e [|b r]]; try discriminate.
    destruct (_ && _); try discriminate.
    destruct (drop _ r) as [|f ?]; try discriminate.
    destruct (is_final f); try discriminate.
    intros [= <-]. lia.
  - lia.
Qed.

(** [type_out(line)]: the calls it makes on the terminal, in order. *)
Definition type_out (line : pystr) : list event :=
  type_out_from line 0
  ++ (if endswith line [LF] then [] else [Write [LF]]).

(** *** The scroll region *)

(** [enable_sticky_title(title)]; [lines] is what
    [shutil.get_terminal_size().lines] reports. *)
Definition enable_sticky_title (lines : Z) (title : pystr) : list event :=
  let rows := if lines =? 0 then 24 else lines in
  [ Write (ESC :: lit "[2J");
    Write (ESC :: lit "[2;" ++ str_int rows ++ lit "r");
    Write (ESC :: lit "[1;1H");
    Write (Fore.MAGENTA ++ title ++ Style.RESET_ALL ++ [LF]);
    Write (ESC :: lit "[2;1H");
    Flush ].

(** [reset_scroll_region()]. *)
Definition reset_scroll_region : list event :=
  [ Write (ESC :: lit "[r"); Flush ].

(** *** The terminal's side of the scroll region *)

(** The part of a VT100-style terminal that the scroll-region sequences act
    on: its escape-sequence parser and its scroll margins ([None] when the
    region is the whole screen). *)
Inductive parser_mode :=
| Ground
| Escape
| Csi (params : pystr).

Record terminal := mk_terminal {
  mode : parser_mode;
  margins : option (Z * Z)
}.

(** The value of a run of ASCII digits, [0] when it is empty. *)
Definition param_value (p : pystr) : Z :=
  fold_left (fun acc c => 10 * acc + Z.of_N (c - 48)) p 0.

(** DECSTBM, [CSI top ; bottom r]: a missing or zero parameter stands for the
    first row (top) or the last row (bottom, kept as [0]); the region is the
    whole screen when both are missing. The region has two rows at least:
    the terminal ignores the sequence, and keeps the margins it has, when
    the top row is not above the bottom row. *)
Definition set_margins (params : pystr) (current : option (Z * Z))
  : option (Z * Z) :=
  let top := param_value (take (run_length ascii_digit params) params) in
  let rest := drop (S (run_length ascii_digit params)) params in
  let bottom := param_value (take (run_length ascii_digit rest) rest) in
  if (top =? 0) && (bottom =? 0) then None
  else if (bottom =? 0) || (Z.max top 1 <? bottom) then Some (Z.max top 1, bottom)
  else current.

(** One character received by the terminal. *)
Definition receive (t : terminal) (c : char) : terminal :=
  if (c =? ESC)%N then mk_terminal Escape (margins t)
  else match mode t with
       | Ground => t
       | Escape =>
           if (c =? 0x5b)%N then mk_terminal (Csi []) (margins t)
           else mk_terminal Ground (margins t)
       | Csi params =>
           if is_param c || is_inter c
           then mk_terminal (Csi (params ++ [c])) (margins t)
           else if (c =? 0x72)%N
                then mk_terminal Ground (set_margins params (margins t))
                else mk_terminal Ground (margins t)
       end.

(** The terminal after the program's events: only writes reach it. *)
Definition perform (t : terminal) (ev : event) : terminal :=
  match ev with
  | Write s => fold_left receive s t
  | Flush | Sleep _ => t
  end.

Definition display (t : terminal) (evs : list event) : terminal :=
  fold_left perform evs t.

(** ** Records *)

(** A decoded course object, as far as [main] reads it: the five fields it
    takes with [c.get]. *)
Record course := mk_course {
  CourseNo : pyval;
  CourseName : pyval;
  ChooseStudent : pyval;
  Restrict2 : pyval;
  ClassRoomNo : pyval
}.

(** An element of the decoded payload: an object, or anything else (on
    which [c.get] is an [AttributeError]). *)
Inductive item :=
| Obj (c : course)
| NotObj.

(** [c.get(k)]: [None] when the key is absent. *)
Definition get_field (d : list (pystr * pyval)) (k : string) : pyval :=
  default PNone (dict_get d (lit k)).

(** A value as an element of the payload. *)
Definition item_of (v : pyval) : item :=
  match v with
  | PDict d =>
      Obj (mk_course (get_field d "CourseNo") (get_field d "CourseName")
             (get_field d "ChooseStudent") (get_field d "Restrict2")
             (get_field d "ClassRoomNo"))
  | _ => NotObj
  end.

(** The decoded payload [r.json()]: an array of elements, an object with
    its keys, or any other value. Iterating an array gives its elements, an
    object its keys and a string its characters; [None] and the numbers are
    not iterable. *)
Inductive payload :=
| JArray (items : list item)
| JObject (keys : list pystr)
| JScalar (v : pyval).

(** ** The runtime *)

(** What the program runs on and the repository does not fix.
    - [wcswidth] is the function of the wcwidth package. Its releases
      differ: the older ones add up the widths of the characters, the later
      ones measure some sequences jointly (the character after a zero-width
      joiner is not measured, a variation selector widens the emoji before
      it, ...). All of them return [-1] when they measure a control
      character, and the number of characters for printable ASCII.
    - [repr] is Python's [repr], which is what [str] and an f-string give
      for a [float], a [list] and a [dict].
    - [sorted_unordered] is what [sorted] does with the elements and their
      keys when a key is a not-a-number, a [list] or a [dict]: [<] is then
      not an order on the keys, and what CPython returns or raises is the
      business of its merge procedure. It returns a rearrangement of the
      elements or raises the [TypeError] of a comparison. *)
Record runtime := mk_runtime {
  wcswidth : pystr -> Z;
  repr : pyval -> pystr;
  sorted_unordered : list (pyval * item) -> result (list (pyval * item));
  wcswidth_printable :
    forall s, Forall printable s -> wcswidth s = Z.of_nat (length s);
  sorted_unordered_perm :
    forall d r, sorted_unordered d = Ok r -> Permutation d r;
  sorted_unordered_raises :
    forall d e, sorted_unordered d = Raise e -> e = TypeError
}.

(** *** A runtime to run the definitions on *)

(** A width table in the shape of the wcwidth package's: [-1] for C0 and C1
    control characters, [0] for NUL, combining marks and zero-width
    characters, [2] for the East Asian wide and fullwidth blocks, [1]
    otherwise. *)
Definition wcwidth_sample (c : char) : Z :=
  let within lo hi := ((lo <=? c) && (c <=? hi))%N in
  if (c =? 0)%N then 0
  else if within 0x01%N 0x1f%N || within 0x7f%N 0x9f%N then -1
  else if within 0x300%N 0x36f%N || within 0x200b%N 0x200f%N
          || within 0xfe00%N 0xfe0f%N then 0
  else if within 0x1100%N 0x115f%N || within 0x2e80%N 0x303e%N
          || within 0x3041%N 0x33ff%N || within 0x3400%N 0x4dbf%N
          || within 0x4e00%N 0x9fff%N || within 0xa000%N 0xa4cf%N
          || within 0xac00%N 0xd7a3%N || within 0xf900%N 0xfaff%N
          || within 0xfe30%N 0xfe6f%N || within 0xff00%N 0xff60%N
          || within 0xffe0%N 0xffe6%N || within 0x20000%N 0x3fffd%N then 2
  else 1.

(** Some of the narrow characters that VARIATION SELECTOR-16 turns into
    wide emoji. *)
Definition vs16_narrow_to_wide_sample (c : char) : bool :=
  existsb (N.eqb c) [0x23; 0x2a; 0xa9; 0xae; 0x203c; 0x2049; 0x2122; 0x2139;
                     0x2600; 0x2601; 0x2602; 0x2603; 0x2604; 0x260e; 0x2611;
                     0x2618; 0x261d; 0x2620; 0x2639; 0x263a; 0x2660; 0x2663;
                     0x2665; 0x2666; 0x2702; 0x2708; 0x2709; 0x270c; 0x270d;
                     0x2712; 0x2714; 0x2716; 0x2744; 0x2763; 0x2764]%N.

(** The loop of [wcswidth] in the releases of the package that measure
    sequences jointly: a zero-width joiner and the character after it are
    not measured ([skip]); VARIATION SELECTOR-16 after a measured character
    ([last]) adds a column when it makes that character wide; a control
    character makes the whole [-1]. *)
Fixpoint wcswidth_joint (s : pystr) (skip : bool) (last : option N) (width : Z)
  : Z :=
  match s with
  | [] => width
  | c :: s' =>
      if skip then wcswidth_joint s' false last width
      else if (c =? 0x200d)%N then wcswidth_joint s' true last width
      else if (c =? 0xfe0f)%N && bool_decide (is_Some last) then
        wcswidth_joint s' false None
          (width + match last with
                   | Some m => Z.b2z (vs16_narrow_to_wide_sample m)
                   | None => 0
                   end)
      else
        let w := wcwidth_sample c in
        if w <? 0 then -1
        else wcswidth_joint s' false (if 0 <? w then Some c else last) (width + w)
  end.

Definition wcswidth_sample (s : pystr) : Z := wcswidth_joint s false None 0.

(** The sample runtime: the joint measure on the sample table. No sample
    row holds a [float], a [list] or a [dict] that is formatted or sorted
    on: its [repr] is a placeholder and its [sorted_unordered] leaves the
    elements as they are. *)
Definition sample_runtime : runtime.
Proof.
  refine (mk_runtime wcswidth_sample (fun _ => lit "...") (fun d => Ok d) _ _ _).
  - assert (H : forall s, Forall printable s ->
                forall last width,
                wcswidth_joint s false last width = width + Z.of_nat (length s)).
    { induction 1 as [|c s Hc _ IH]; intros last width; [simpl; lia|].
      assert (Hw : wcwidth_sample c = 1).
      { unfold printable in Hc. unfold wcwidth_sample.
        repeat match goal with
               | |- context [(?a =? ?b)%N] => destruct (N.eqb_spec a b); try lia
               | |- context [(?a <=? ?b)%N] => destruct (N.leb_spec a b); try lia
               end.
        reflexivity. }
      cbn [wcswidth_joint].
      unfold printable in Hc.
      destruct (N.eqb_spec c 0x200d); [lia|].
      destruct (N.eqb_spec c 0xfe0f); [lia|].
      cbn [andb]. rewrite Hw. cbn [Z.ltb Z.compare].
      rewrite IH. cbn [length]. lia. }
    intros s Hs. unfold wcswidth_sample. rewrite (H s Hs). lia.
  - intros d r [= <-]. reflexivity.
  - intros d e H. discriminate H.
Defined.

(** ** The retained state *)

(** A key of [prev_state]: keys that are equal in Python are one key
    ([True], [1] and [1.0]). A [float] that is not an integer is the key of
    its value; the not-a-number of [json.loads] is one object, and one
    key. *)
Inductive pykey :=
| KNone
| KInt (z : Z)
| KStr (s : pystr)
| KFloat (q : Qc)
| KInf (negative : bool)
| KNaN.

Global Instance pykey_eq_dec : EqDecision pykey.
Proof. solve_decision. Defined.

Global Instance pykey_countable : Countable pykey.
Proof.
  refine (inj_countable'
    (fun k => match k with
              | KNone => inl (inl ())
              | KNaN => inl (inr None)
              | KInf s => inl (inr (Some s))
              | KInt z => inr (inl z)
              | KStr s => inr (inr (inl s))
              | KFloat q => inr (inr (inr q))
              end)
    (fun x => match x with
              | inl (inl _) => KNone
              | inl (inr None) => KNaN
              | inl (inr (Some s)) => KInf s
              | inr (inl z) => KInt z
              | inr (inr (inl s)) => KStr s
              | inr (inr (inr q)) => KFloat q
              end) _).
  intros []; reflexivity.
Defined.

Definition float_key (f : spec_float) : pykey :=
  match float_number f with
  | NaN => KNaN
  | MinusInf => KInf true
  | PlusInf => KInf false
  | Rational q =>
      let c := Q2Qc q in
      if (Qden c =? 1)%positive then KInt (Qnum c) else KFloat c
  end.

(** The key that a value is in a [dict]; a [list] and a [dict] are not
    hashable. *)
Definition key_of (v : pyval) : result pykey :=
  match v with
  | PNone => Ok KNone
  | PNum n => Ok (KInt (num_val n))
  | PFloat f => Ok (float_key f)
  | PStr s => Ok (KStr s)
  | PList _ | PDict _ => Raise TypeError
  end.

(** A value of [prev_state]. *)
Record entry := mk_entry {
  name : pyval;
  choose_raw : pyval;
  restrict2 : pyval;
  room : pyval
}.

(** What [main] keeps between statements: its local [first_run], the global
    [prev_state], and the calls on the terminal that it has completed so
    far. The last field is the outside world: what it does to the calls on
    the terminal to come, in order, each of which it lets through ([None])
    or makes raise; the calls beyond the list go through. The program is
    interrupted where it waits: the [KeyboardInterrupt] of the user is
    raised in the fetch or in a call on the terminal (a write, a flush or a
    sleep), not between two of them. *)
Record state := mk_state {
  first_run : bool;
  prev_state : gmap pykey entry;
  stdout : list event;
  faults : list (option exn)
}.

(** ** The monad of [main]: state and exceptions *)

Definition M (A : Type) : Type := state -> result A * state.

Global Instance M_ret : MRet M := fun A a st => (Ok a, st).

Global Instance M_bind : MBind M := fun A B k m st =>
  match m st with
  | (Ok a, st') => k a st'
  | (Raise e, st') => (Raise e, st')
  end.

(** A call that may raise without touching the state. *)
Definition lift {A} (r : result A) : M A := fun st => (r, st).

(** One call on the terminal: [sys.stdout.write], [flush] or [time.sleep].
    It goes through, or raises what the outside world raises in it: a
    [KeyboardInterrupt] when the user interrupts the program while it
    sleeps or writes, a [UnicodeEncodeError] for a character that the
    terminal's encoding has not, an [OSError] when the terminal is gone. *)
Definition call (ev : event) : M () := fun st =>
  match faults st with
  | Some e :: rest =>
      (Raise e, mk_state (first_run st) (prev_state st) (stdout st) rest)
  | None :: rest =>
      (Ok (), mk_state (first_run st) (prev_state st) (stdout st ++ [ev]) rest)
  | [] =>
      (Ok (), mk_state (first_run st) (prev_state st) (stdout st ++ [ev]) [])
  end.

(** Calls in a row, up to the first that raises. *)
Fixpoint emit (evs : list event) : M () :=
  match evs with
  | [] => mret ()
  | ev :: evs' => call ev;; emit evs'
  end.

Definition get_first_run : M bool := fun st => (Ok (first_run st), st).

Definition set_first_run (b : bool) : M () := fun st =>
  (Ok (), mk_state b (prev_state st) (stdout st) (faults st)).

(** [prev_state.get(k)]. *)
Definition prev_state_get (k : pyval) : M (option entry) := fun st =>
  match key_of k with
  | Ok key => (Ok (prev_state st !! key), st)
  | Raise e => (Raise e, st)
  end.

(** [prev_state[k] = e]. *)
Definition prev_state_set (k : pyval) (e : entry) : M () := fun st =>
  match key_of k with
  | Ok key =>
      (Ok (), mk_state (first_run st) (<[key := e]> (prev_state st)) (stdout st)
                (faults st))
  | Raise e => (Raise e, st)
  end.

(** [for x in l: acc = body(x, acc)]. *)
Fixpoint for_each {A B} (l : list A) (body : A -> B -> M B) (acc : B) : M B :=
  match l with
  | [] => mret acc
  | x :: l' => acc' ← body x acc; for_each l' body acc'
  end.

(** ** sorted *)

(** [iter(data)]. *)
Definition iterate (data : payload) : result (list item) :=
  match data with
  | JArray items => Ok items
  | JObject keys => Ok (map (fun _ => NotObj) keys)
  | JScalar (PStr s) => Ok (map (fun _ => NotObj) s)
  | JScalar (PList l) => Ok (map item_of l)
  | JScalar (PDict d) => Ok (map (fun _ => NotObj) d)
  | JScalar _ => Raise TypeError
  end.

(** The sort key [lambda c: c.get("CourseNo") or ""]. *)
Definition sort_key (it : item) : result pyval :=
  match it with
  | Obj c => Ok (py_or (CourseNo c) (PStr []))
  | NotObj => Raise AttributeError
  end.

(** The keys of all elements, computed before any comparison. *)
Fixpoint decorate (l : list item) : result (list (pyval * item)) :=
  match l with
  | [] => Ok []
  | it :: l' =>
      rbind (sort_key it) (fun k =>
      rbind (decorate l') (fun d => Ok ((k, it) :: d)))
  end.

(** The kind of a sort key that [<] orders: a string ([true]) or a number
    other than the not-a-number ([false]). Among keys of one kind [<] is a
    total order; between a string and a number it is a [TypeError]. *)
Definition key_class (v : pyval) : option bool :=
  match v with
  | PStr _ => Some true
  | PNum _ => Some false
  | PFloat S754_nan => None
  | PFloat _ => Some false
  | _ => None
  end.

(** Insertion in front of the first element that is not smaller: elements
    with equal keys keep their order. *)
Fixpoint insert_sorted (x : pyval * item) (l : list (pyval * item))
  : result (list (pyval * item)) :=
  match l with
  | [] => Ok [x]
  | y :: l' =>
      rbind (py_lt (fst y) (fst x)) (fun smaller =>
      if smaller then rbind (insert_sorted x l') (fun r => Ok (y :: r))
      else Ok (x :: y :: l'))
  end.

(** A stable sort with [<] as its only comparison. *)
Fixpoint insertion_sort (l : list (pyval * item)) : result (list (pyval * item)) :=
  match l with
  | [] => Ok []
  | x :: l' => rbind (insertion_sort l') (insert_sorted x)
  end.

(** The sort of the elements by their keys. When every key is a string or
    a number other than the not-a-number, Python fixes the result: it is
    that of a stable sort, which does not depend on the algorithm, and a
    comparison between a number and a string is made, and raises, by any
    algorithm as soon as both occur among the keys. Otherwise the result is
    the runtime's. *)
Definition sort_decorated (rt : runtime) (l : list (pyval * item))
  : result (list (pyval * item)) :=
  if forallb (fun x => bool_decide (is_Some (key_class (fst x)))) l
  then insertion_sort l
  else sorted_unordered rt l.

(** [sorted(data, key=lambda c: c.get("CourseNo") or "")]. *)
Definition sorted_by_CourseNo (rt : runtime) (data : payload) : result (list item) :=
  rbind (iterate data) (fun items =>
  rbind (decorate items) (fun d =>
  rbind (sort_decorated rt d) (fun r => Ok (map snd r)))).

(** The title of the sticky header. *)
Definition TITLE : pystr := [0x52a0; 0x9000; 0x9078; 0x5373; 0x6642; 0x901a]%N.

Section Renderer.

Variable rt : runtime.

(** [str(v)], which is also what an f-string field [{v}] renders. *)
Definition py_str (v : pyval) : pystr :=
  match v with
  | PNone => lit "None"
  | PNum n => str_num n
  | PStr s => s
  | PFloat _ | PList _ | PDict _ => repr rt v
  end.

(** ** pad_vis *)

(** The [for ch in s] loop of [pad_vis]; [cur] and [out] are its variables. *)
Fixpoint pad_vis_loop (s : pystr) (width cur : Z) (out : pystr) : pystr :=
  match s with
  | [] => out
  | ch :: s' =>
      let w := Z.max (wcswidth rt [ch]) 0 in
      if cur + w >? width then out
      else pad_vis_loop s' width (cur + w) (out ++ [ch])
  end.

(** [pad_vis(s, width)]. *)
Definition pad_vis (s : pystr) (width : Z) : pystr :=
  let out_s := pad_vis_loop s width 0 [] in
  let pad := width - wcswidth rt out_s in
  out_s ++ str_mul SPACE pad.

(** ** build_colored_line *)

(** The colour of the numeral. *)
Definition choose_color_of (choose_val prev_choose_val : option pynum) : pystr :=
  match prev_choose_val, choose_val with
  | Some p, Some v =>
      if num_val v >? num_val p then Fore.RED
      else if num_val v <? num_val p then Fore.GREEN
      else Fore.YELLOW
  | _, _ => Fore.YELLOW
  end.

(** ["-" if choose_val is None else str(choose_val)]. *)
Definition choose_str_of (choose_val : option pynum) : pystr :=
  match choose_val with
  | None => lit "-"
  | Some v => str_num v
  end.

(** The second column before padding. *)
Definition part2_vis_of (choose_color choose_str : pystr) (r2 : pyval) : pystr :=
  (if bool_decide (choose_color = Fore.RED) then lit "+" else lit "-")
  ++ lit " " ++ choose_str ++ lit " / " ++ py_str r2.

(** The second column with its colours. *)
Definition part2_col_of (choose_color choose_str part2_pad : pystr) : pystr :=
  match py_find choose_str part2_pad with
  | Some idx =>
      let prefix := take idx part2_pad in
      let suffix := drop (idx + length choose_str) part2_pad in
      Fore.YELLOW ++ prefix ++ choose_color ++ choose_str ++ Fore.YELLOW
        ++ suffix ++ Style.RESET_ALL
  | None => Fore.YELLOW ++ part2_pad ++ Style.RESET_ALL
  end.

Definition build_colored_line (course_no course_name : pyval)
    (choose_val : option pynum) (r2 classroom : pyval)
    (prev_choose_val : option pynum) : pystr :=
  let choose_color := choose_color_of choose_val prev_choose_val in
  let part1_vis := py_str course_no ++ lit " | " ++ py_str course_name in
  let choose_str := choose_str_of choose_val in
  let part2_vis := part2_vis_of choose_color choose_str r2 in
  let part3_vis := lit "| " ++ py_str classroom in
  let part1_pad := pad_vis part1_vis COL1_WIDTH in
  let part2_pad := pad_vis part2_vis COL2_WIDTH in
  let part1_col := Fore.CYAN ++ part1_pad ++ Style.RESET_ALL in
  let part2_col := part2_col_of choose_color choose_str part2_pad in
  let part3_col := Fore.GREEN ++ part3_vis ++ Style.RESET_ALL in
  part1_col ++ part2_col ++ part3_col.

(** ** main *)

Definition course_no_of (c : course) : pyval := py_or (CourseNo c) (PStr (lit "-")).

(** What the loop stores for a record. *)
Definition entry_of (c : course) : entry :=
  {| name := py_or (CourseName c) (PStr (lit "-"));
     choose_raw := ChooseStudent c;
     restrict2 := py_or (Restrict2 c) (PStr (lit "-"));
     room := py_or (ClassRoomNo c) (PStr (lit "-")) |}.

(** [changed = prev is not None and choose_raw != prev.get("choose_raw")]. *)
Definition changed_of (raw : pyval) (prev : option entry) : bool :=
  match prev with
  | Some p => py_ne raw (choose_raw p)
  | None => false
  end.

(** The body of [for c in data_sorted]; [to_print] is the list it appends
    to. *)
Definition loop_body (c : item) (to_print : list pystr) : M (list pystr) :=
  match c with
  | NotObj => lift (Raise AttributeError)
  | Obj c =>
      let course_no := course_no_of c in
      let c_name := py_or (CourseName c) (PStr (lit "-")) in
      let c_raw := ChooseStudent c in
      choose_val ← lift (parse_int_or_none c_raw);
      let c_restrict2 := py_or (Restrict2 c) (PStr (lit "-")) in
      let c_room := py_or (ClassRoomNo c) (PStr (lit "-")) in
      prev ← prev_state_get course_no;
      let changed := changed_of c_raw prev in
      first ← get_first_run;
      to_print' ←
        (if negb first && changed then
           match prev with
           | Some p =>
               prev_choose_val ← lift (parse_int_or_none (choose_raw p));
               mret (to_print ++
                       [build_colored_line course_no c_name choose_val
                          c_restrict2 c_room prev_choose_val])
           | None => mret to_print
           end
         else mret to_print);
      prev_state_set course_no (mk_entry c_name c_raw c_restrict2 c_room);;
      mret to_print'
  end.

(** The body of [try:]; [fetched] is what [fetch_courses(client)] does in
    this cycle and [lines] the terminal height. *)
Definition try_body (fetched : result payload) (lines : Z) : M () :=
  data ← lift fetched;
  data_sorted ← lift (sorted_by_CourseNo rt data);
  to_print ← for_each data_sorted loop_body [];
  first ← get_first_run;
  (if (first : bool) then
     emit (enable_sticky_title lines TITLE);;
     set_first_run false
   else
     emit (concat (map (fun line => type_out (line ++ [LF])) to_print)) : M ());;
  call (Sleep INTERVAL_SECONDS).

(** How an iteration of [while True] ends. *)
Inductive control :=
| Continue
| Break
| Propagate (e : exn).

(** One iteration of [while True]: the [try] statement with its two
    handlers. What the sleep of the second handler raises is not handled. *)
Definition iteration (fetched : result payload) (lines : Z) (st : state)
  : control * state :=
  match try_body fetched lines st with
  | (Ok _, st') => (Continue, st')
  | (Raise e, st') =>
      match e with
      | KeyboardInterrupt => (Break, st')
      | _ =>
          if is_Exception e then
            match call (Sleep INTERVAL_SECONDS) st' with
            | (Ok _, st'') => (Continue, st'')
            | (Raise e', st'') => (Propagate e', st'')
            end
          else (Propagate e, st')
      end
  end.

(** [main] against the answers of the outside world to its successive
    cycles: it runs until an iteration breaks or lets an exception through,
    or until the answers run out. *)
Fixpoint main_loop (world : list (result payload * Z)) (st : state)
  : control * state :=
  match world with
  | [] => (Continue, st)
  | (fetched, lines) :: world' =>
      match iteration fetched lines st with
      | (Continue, st') => main_loop world' st'
      | stop => stop
      end
  end.

End Renderer.

(** The state [main] starts from when no call on the terminal raises, and
    when the outside world has something in store. *)
Definition initial_state : state := mk_state true ∅ [] [].


(** ** The words of the specification *)

(** What [type_out] emits at one position of the line: an escape sequence
    or a single character. *)
Inductive typing_unit :=
| EscapeSeq (s : pystr)
| Printable (c : char).

Definition unit_text (u : typing_unit) : pystr :=
  match u with
  | EscapeSeq s => s
  | Printable c => [c]
  end.

(** An escape sequence is one write without a delay, a character one write
    followed by the typing delay. *)
Definition unit_events (u : typing_unit) : list event :=
  match u with
  | EscapeSeq s => [Write s; Flush]
  | Printable c => [Write [c]; Flush; Sleep TYPE_DELAY]
  end.

(** The partition of a line into units, in the words of the pattern and
    not of its matcher: where an escape sequence starts, the unit is that
    sequence; where none starts, the unit is one character. *)
Inductive typed_as : pystr -> list typing_unit -> Prop :=
| typed_nil : typed_as [] []
| typed_seq e s us :
    ansi_sequence e ->
    typed_as s us ->
    typed_as (e ++ s) (EscapeSeq e :: us)
| typed_chr c s us :
    (forall e r, ansi_sequence e -> c :: s <> e ++ r) ->
    typed_as s us ->
    typed_as (c :: s) (Printable c :: us).

(** [visualWidth(text)] of the specification: the sum of the widths of the
    characters, each measured alone, a negative width counting as [0]. *)
Definition visual_width (rt : runtime) (s : pystr) : Z :=
  fold_right (fun c acc => Z.max (wcswidth rt [c]) 0 + acc) 0 s.

(** The key under which [main] files a record, when its [CourseNo] is
    hashable. *)
Definition record_key (c : course) : result pykey := key_of (course_no_of c).

(** The retained state after [prev_state[course_no] = {...}] for a
    record. *)
Definition retain_one (c : course) (m : gmap pykey entry) : gmap pykey entry :=
  match record_key c with
  | Ok k => <[k := entry_of c]> m
  | Raise _ => m
  end.

Definition store (c : course) (st : state) : state :=
  mk_state (first_run st) (retain_one c (prev_state st)) (stdout st) (faults st).

(** The retained state after every record of a list has been stored. *)
Definition retain (cs : list course) (m : gmap pykey entry) : gmap pykey entry :=
  fold_left (fun m c => retain_one c m) cs m.

(** The condition of the specification for a delta: the cycle is not the
    baseline, the retained state has an entry for the key of the record, and
    the raw count differs from the retained raw count. *)
Definition delta_due (c : course) (st : state) : Prop :=
  first_run st = false
  /\ exists k p, record_key c = Ok k /\ prev_state st !! k = Some p
                 /\ py_ne (ChooseStudent c) (choose_raw p) = true.

(** A count as the formatter gets it. *)
Definition parsed (raw : pyval) : option pynum :=
  match parse_int_or_none raw with
  | Ok v => v
  | Raise _ => None
  end.

(** The rendered line of a delta: the record against its prior entry. *)
Definition render (rt : runtime) (c : course) (prior : entry) : pystr :=
  build_colored_line rt (course_no_of c) (name (entry_of c))
    (parsed (ChooseStudent c)) (restrict2 (entry_of c)) (room (entry_of c))
    (parsed (choose_raw prior)).

(** The prior entry of a record: the entry of the retained state for its
    key. *)
Definition prior_of (c : course) (retained : gmap pykey entry) : option entry :=
  match record_key c with
  | Ok k => retained !! k
  | Raise _ => None
  end.

(** The delta of a record, if any: a record is changed when a prior entry
    exists and its raw count differs from the raw count of the entry; a
    changed record gives a delta unless the cycle is the baseline. *)
Definition delta_of (rt : runtime) (c : course) (retained : gmap pykey entry)
    (baseline : bool) : list pystr :=
  match prior_of c retained with
  | Some p =>
      if negb baseline && py_ne (ChooseStudent c) (choose_raw p)
      then [render rt c p] else []
  | None => []
  end.

(** [diff(snapshot, retained, isBaselineCycle)] of the specification: the
    records are taken in the order of the snapshot, each against the
    retained state as the records before it have left it, and every record
    is written to the retained state. The result is the deltas, in order,
    and the updated retained state. *)
Fixpoint diff (rt : runtime) (snapshot : list course) (retained : gmap pykey entry)
    (baseline : bool) : list pystr * gmap pykey entry :=
  match snapshot with
  | [] => ([], retained)
  | c :: rest =>
      let later := diff rt rest (retain_one c retained) baseline in
      (delta_of rt c retained baseline ++ fst later, snd later)
  end.

(** What a cycle is to write once its loop has completed: the header in
    the baseline cycle, the typed lines in a later one, and then the
    sleep. *)
Definition cycle_output (baseline : bool) (lines : Z) (to_print : list pystr)
  : list event :=
  (if baseline then enable_sticky_title lines TITLE
   else concat (map (fun line => type_out (line ++ [LF])) to_print))
  ++ [Sleep INTERVAL_SECONDS].

(** The order of [sorted]: an element goes before another when the key of
    the other is not smaller. *)
Definition item_le (a b : item) : Prop :=
  exists ka kb, sort_key a = Ok ka /\ sort_key b = Ok kb /\ py_lt kb ka = Ok false.

(** The count went up, or down: both values are integers and compare so. *)
Definition increased (cv pv : option pynum) : Prop :=
  exists v p, cv = Some v /\ pv = Some p /\ num_val v > num_val p.

Definition decreased (cv pv : option pynum) : Prop :=
  exists v p, cv = Some v /\ pv = Some p /\ num_val v < num_val p.

(** The sign marker of column 2: [+] when the numeral is red, [-]
    otherwise. *)
Definition sign_of (cv pv : option pynum) : N :=
  if bool_decide (choose_color_of cv pv = Fore.RED) then 43%N else 45%N.

(** ** Sample rows and runs *)

Definition cs101 (count : pyval) : course :=
  mk_course (PStr (lit "CS101")) (PStr (lit "Algorithms")) count
    (PStr (lit "60")) (PStr (lit "IB-201")).

Definition cs201 (count : pyval) : course :=
  mk_course (PStr (lit "CS201")) (PStr (lit "Compilers")) count
    (PStr (lit "50")) (PStr (lit "TR-313")).

(** A record without [CourseNo]. *)
Definition keyless (count : pyval) : course :=
  mk_course PNone (PStr (lit "Seminar")) count PNone PNone.


(** The not-a-number that [json.loads] makes of [NaN]. *)
Definition nan : pyval := PFloat S754_nan.

(** The state of [main] after the baseline cycle, with the given records
    retained, when no call on the terminal is to raise. *)
Definition steady (cs : list course) : state := mk_state false (retain cs ∅) [] [].

(** Two cycles on a snapshot of one record without a key, whose count goes
    from 1 to 2. *)
Definition keyless_run : control * state :=
  main_loop sample_runtime
    [ (Ok (JArray [Obj (keyless (PNum (NInt 1)))]), 24);
      (Ok (JArray [Obj (keyless (PNum (NInt 2)))]), 24) ]
    initial_state.

(** A row whose count went up to a numeral of 15 digits. *)
Definition long_numeral_row : pystr :=
  build_colored_line sample_runtime (PStr (lit "CS101"))
    (PStr (lit "Algorithms")) (Some (NInt 123456789012345)) (PStr (lit "60"))
    (PStr (lit "IB-201")) (Some (NInt 1)).

(** ** Rows as text and colour codes *)

(** A string without the escape character. *)
Definition escape_free (s : pystr) : Prop := Forall (fun c => c <> ESC) s.

(** A piece of a row: plain text or a colour code. *)
Inductive chunk :=
| Text (s : pystr)
| Code (e : pystr).

Definition chunk_string (k : chunk) : pystr :=
  match k with
  | Text s => s
  | Code e => e
  end.

(** The units [type_out] is expected to make of a piece: a text is typed
    character by character, a code is one unit. *)
Definition chunk_units (k : chunk) : list typing_unit :=
  match k with
  | Text s => map Printable s
  | Code e => [EscapeSeq e]
  end.

Definition chunk_ok (k : chunk) : Prop :=
  match k with
  | Text s => escape_free s
  | Code e => ansi_sequence e
  end.

(** The characters typed one by one, with a delay each. *)
Definition visible_text (us : list typing_unit) : pystr :=
  flat_map (fun u => match u with
                     | Printable c => [c]
                     | EscapeSeq _ => []
                     end) us.

(** The escape sequences written whole. *)
Definition codes_of (us : list typing_unit) : list pystr :=
  flat_map (fun u => match u with
                     | Printable _ => []
                     | EscapeSeq e => [e]
                     end) us.

(** The number of sleeps in a trace. *)
Fixpoint sleeps (evs : list event) : nat :=
  match evs with
  | [] => O
  | Sleep _ :: evs' => S (sleeps evs')
  | _ :: evs' => sleeps evs'
  end.

(** ** What main keeps true of its state *)

(** An entry of the retained state: its key is truthy, its raw count is one
    that [parse_int_or_none] accepts, and its texts are never empty (a
    missing one is the dash). *)
Definition entry_ok (k : pykey) (p : entry) : Prop :=
  k <> KNone /\ k <> KStr [] /\ k <> KInt 0
  /\ (exists v, parse_int_or_none (choose_raw p) = Ok v)
  /\ truthy (name p) = true
  /\ truthy (restrict2 p) = true
  /\ truthy (room p) = true.

Definition retained_ok (m : gmap pykey entry) : Prop :=
  forall k p, m !! k = Some p -> entry_ok k p.


(** The sort key of a record. *)
Definition course_sort_key (c : course) : pyval := py_or (CourseNo c) (PStr []).

(** Records whose sort keys are strings or numbers other than the
    not-a-number. *)
Definition scalar_keys (cs : list course) : Prop :=
  Forall (fun c => is_Some (key_class (course_sort_key c))) cs.

(** Records whose sort keys are all strings or all numbers. *)
Definition one_kind (cs : list course) : Prop :=
  exists k, Forall (fun c => key_class (course_sort_key c) = Some k) cs.

(** The elements whose sort key equals [k] (Python's [==]). *)
Definition has_sort_key (k : pyval) (it : item) : bool :=
  match sort_key it with
  | Ok v => py_eq v k
  | Raise _ => false
  end.

(** ** Keys that [<] orders *)

(** The number that a sort key of the number kind is worth. *)
Definition number_of (v : pyval) : number :=
  match v with
  | PNum n => int_number n
  | PFloat f => float_number f
  | _ => NaN
  end.

(** The sort key is a string or a number other than the not-a-number. *)
Definition classed (v : pyval) : Prop := is_Some (key_class v).

Abbreviation key_sorted :=
  (StronglySorted (fun a b : pyval * item => py_lt (fst b) (fst a) = Ok false)).

Abbreviation keys_classed := (Forall (fun x : pyval * item => classed (fst x))).

(** The elements whose sort keys [<] orders. *)
Definition items_classed (items : list item) : Prop :=
  Forall (fun it => exists k, sort_key it = Ok k /\ classed k) items.

(** * Properties *)

(** ** parse_int_or_none *)

Lemma decimal_value_ascii c :
  ascii_digit c = true -> decimal_value c = Some (Z.of_N (c - 48)).
Proof.
  unfold ascii_digit. intros H.
  apply andb_true_iff in H as [H1 H2].
  apply N.leb_le in H1. apply N.leb_le in H2.
  unfold decimal_value, decimal_zeros, decimal_in.
  replace ((48 <=? c)%N && (c <? 48 + 10)%N) with true; [reflexivity|].
  symmetry. apply andb_true_iff. split; [apply N.leb_le | apply N.ltb_lt]; lia.
Qed.

Lemma isdigit_char_decimal c : is_Some (decimal_value c) -> isdigit_char c = true.
Proof.
  intros H. unfold isdigit_char. rewrite bool_decide_eq_true_2; auto.
Qed.

Lemma forallb_isdigit_decimal s :
  Forall (fun c => is_Some (decimal_value c)) s -> forallb isdigit_char s = true.
Proof.
  induction 1 as [|c s Hc _ IH]; simpl; [reflexivity|].
  rewrite isdigit_char_decimal, IH; auto.
Qed.

Lemma decimal_fold_total s :
  Forall (fun c => is_Some (decimal_value c)) s ->
  forall acc, is_Some (decimal_fold acc s).
Proof.
  induction 1 as [|c s [d Hd] _ IH]; intros acc; simpl; [eauto|].
  rewrite Hd. apply IH.
Qed.

Lemma decimal_fold_ascii s :
  forallb ascii_digit s = true ->
  forall acc,
    decimal_fold acc s
    = Some (fold_left (fun a c => 10 * a + Z.of_N (c - 48)) s acc).
Proof.
  induction s as [|c s IH]; intros H acc; simpl; [reflexivity|].
  simpl in H. apply andb_true_iff in H as [Hc Hs].
  rewrite (decimal_value_ascii _ Hc). apply IH, Hs.
Qed.

Lemma ascii_digits_decimal s :
  forallb ascii_digit s = true ->
  Forall (fun c => is_Some (decimal_value c)) s.
Proof.
  induction s as [|c s IH]; simpl; intros H; constructor.
  - apply andb_true_iff in H as [Hc _].
    rewrite (decimal_value_ascii _ Hc). eauto.
  - apply IH. apply andb_true_iff in H as [_ Hs]. exact Hs.
Qed.

Lemma isdigit_false s :
  s = [] \/ Exists (fun c => isdigit_char c = false) s -> isdigit s = false.
Proof.
  unfold isdigit. intros [->|H]; [reflexivity|].
  apply andb_false_iff. right.
  induction H as [c s Hc|c s _ IH]; simpl.
  - rewrite Hc. reflexivity.
  - rewrite IH. apply andb_false_r.
Qed.

Lemma isdigit_true s :
  s <> [] -> Forall (fun c => is_Some (decimal_value c)) s -> isdigit s = true.
Proof.
  intros Hne H. unfold isdigit.
  rewrite bool_decide_eq_false_2 by exact Hne.
  rewrite forallb_isdigit_decimal by exact H. reflexivity.
Qed.

(** The conversion of a string of decimal digits within the limit. *)
Lemma parse_int_or_none_decimal s :
  s <> [] ->
  Forall (fun c => is_Some (decimal_value c)) s ->
  (length s <= int_max_str_digits)%nat ->
  exists z, decimal_fold 0 s = Some z
            /\ parse_int_or_none (PStr s) = Ok (Some (NInt z)).
Proof.
  intros Hne Hdec Hlen.
  destruct (decimal_fold_total s Hdec 0) as [z Hz].
  exists z. split; [exact Hz|].
  unfold parse_int_or_none, int_of_str.
  rewrite (isdigit_true s Hne Hdec).
  destruct (Nat.ltb_spec int_max_str_digits (length s)); [lia|].
  rewrite Hz. reflexivity.
Qed.

(** C10, as stated, fails: a string of digits that are not ASCII digits is
    converted, not mapped to [None]. U+0663 is ARABIC-INDIC DIGIT THREE. *)
Lemma parse_int_or_none_non_ascii_digit :
  forallb ascii_digit [0x663%N] = false
  /\ parse_int_or_none (PStr [0x663%N]) = Ok (Some (NInt 3))
  /\ parse_int_or_none (PStr [0x663%N]) <> Ok None.
Proof. split; [reflexivity | split; [reflexivity | discriminate]]. Qed.

(** C10 (amended): [parse_int_or_none] returns an [int] argument itself
    (a negative one and a [bool] included); for a non-empty string of at most
    4300 decimal digits, ASCII or not, it returns their base-10 value, which
    for ASCII digits is the usual reading of the numeral; for [None], for the
    empty string and for every string with a character that is not a digit
    (a sign, a decimal point, a blank) it returns [None], as it does for a
    [float], a [list] and a [dict]. *)
Theorem parse_int_or_none_spec (val : pyval) :
  (forall n, val = PNum n -> parse_int_or_none val = Ok (Some n))
  /\ (forall s, val = PStr s -> s <> [] ->
        Forall (fun c => is_Some (decimal_value c)) s ->
        (length s <= int_max_str_digits)%nat ->
        exists z, decimal_fold 0 s = Some z /\ 0 <= z
                  /\ parse_int_or_none val = Ok (Some (NInt z)))
  /\ (forall s, val = PStr s -> s <> [] ->
        forallb ascii_digit s = true ->
        (length s <= int_max_str_digits)%nat ->
        parse_int_or_none val
        = Ok (Some (NInt (fold_left (fun a c => 10 * a + Z.of_N (c - 48)) s 0))))
  /\ (forall s, val = PStr s ->
        s = [] \/ Exists (fun c => isdigit_char c = false) s ->
        parse_int_or_none val = Ok None)
  /\ (val = PNone -> parse_int_or_none val = Ok None)
  /\ (forall f l d, val = PFloat f \/ val = PList l \/ val = PDict d ->
        parse_int_or_none val = Ok None).
Proof.
  repeat split.
  - intros n ->. reflexivity.
  - intros s -> Hne Hdec Hlen.
    destruct (parse_int_or_none_decimal s Hne Hdec Hlen) as (z & Hz & Hp).
    exists z. repeat split; try assumption.
    clear Hp Hne Hlen. revert Hz.
    assert (G : forall acc, 0 <= acc -> forall r, decimal_fold acc s = Some r -> 0 <= r).
    { induction Hdec as [|c s [d Hd] _ IH]; simpl; intros acc Hacc r.
      - intros [= <-]. exact Hacc.
      - rewrite Hd. apply IH.
        assert (0 <= d); [|lia].
        unfold decimal_value in Hd. revert Hd.
        generalize decimal_zeros. intros zs. induction zs as [|z0 zs IHzs]; simpl.
        + discriminate.
        + destruct (_ && _); [intros [= <-]; lia | exact IHzs]. }
    apply G. lia.
  - intros s -> Hne Hasc Hlen.
    destruct (parse_int_or_none_decimal s Hne (ascii_digits_decimal s Hasc) Hlen)
      as (z & Hz & Hp).
    rewrite Hp. rewrite (decimal_fold_ascii s Hasc) in Hz.
    injection Hz as <-. reflexivity.
  - intros s -> H. simpl. rewrite (isdigit_false s H). reflexivity.
  - intros ->. reflexivity.
  - intros f l d [->|[->| ->]]; reflexivity.
Qed.

Lemma parse_int_or_none_spec_witness :
  parse_int_or_none (PStr (lit "0042")) = Ok (Some (NInt 42))
  /\ parse_int_or_none (PStr (lit "-5")) = Ok None.
Proof.
  split.
  - apply (proj1 (proj2 (proj2 (parse_int_or_none_spec (PStr (lit "0042")))))
             (lit "0042") eq_refl).
    + discriminate.
    + reflexivity.
    + vm_compute. lia.
  - apply (proj1 (proj2 (proj2 (proj2 (parse_int_or_none_spec (PStr (lit "-5"))))))
             (lit "-5") eq_refl).
    right. apply Exists_cons_hd. reflexivity.
Defined.

Example parse_minus5 : parse_int_or_none (PStr (lit "-5")) = Ok None.
Proof. reflexivity. Qed.

Example parse_plus5 : parse_int_or_none (PStr (lit "+5")) = Ok None.
Proof. reflexivity. Qed.

Example parse_decimal_point : parse_int_or_none (PStr (lit "1.5")) = Ok None.
Proof. reflexivity. Qed.

Example parse_empty : parse_int_or_none (PStr []) = Ok None.
Proof. reflexivity. Qed.

Example parse_negative_int : parse_int_or_none (PNum (NInt (-5))) = Ok (Some (NInt (-5))).
Proof. reflexivity. Qed.

Example parse_bool : parse_int_or_none (PNum (NBool true)) = Ok (Some (NBool true)).
Proof. reflexivity. Qed.

(** A digit that is not a decimal digit passes [isdigit] and is refused by
    [int]: U+00B2 is SUPERSCRIPT TWO. *)
Example parse_superscript : parse_int_or_none (PStr [0xb2%N]) = Raise ValueError.
Proof. reflexivity. Qed.

(** ** reset_scroll_region *)

(** C9: [reset_scroll_region] always emits exactly the sequence [ESC [ r];
    whatever the terminal was doing (in particular whether or not
    [enable_sticky_title] has set a scroll region), it leaves the terminal
    with the whole screen as scroll region, and a second call changes
    nothing. *)
Theorem reset_scroll_region_idempotent (t : terminal) :
  reset_scroll_region = [Write [27; 91; 114]%N; Flush]
  /\ display t reset_scroll_region = mk_terminal Ground None
  /\ display t (reset_scroll_region ++ reset_scroll_region)
     = display t reset_scroll_region
  /\ display (mk_terminal Ground None) reset_scroll_region
     = mk_terminal Ground None.
Proof.
  destruct t as [m mg].
  repeat split; destruct m; reflexivity.
Qed.

Example sticky_title_margins :
  margins (display (mk_terminal Ground None) (enable_sticky_title 0 TITLE))
  = Some (2, 24).
Proof. reflexivity. Qed.

Example sticky_title_then_reset :
  display (display (mk_terminal Ground None) (enable_sticky_title 40 TITLE))
    reset_scroll_region
  = mk_terminal Ground None.
Proof. reflexivity. Qed.

(** ** ANSI_RE and type_out *)

Lemma run_length_le p s : (run_length p s <= length s)%nat.
Proof. induction s as [|c s IH]; simpl; [lia|]. destruct (p c); simpl; lia. Qed.

Lemma run_length_take p s : Forall (fun c => p c = true) (take (run_length p s) s).
Proof.
  induction s as [|c s IH]; simpl; [constructor|].
  destruct (p c) eqn:Hc; simpl; constructor; assumption.
Qed.

Lemma run_length_app p s r :
  Forall (fun c => p c = true) s ->
  match r with [] => True | c :: _ => p c = false end ->
  run_length p (s ++ r) = length s.
Proof.
  intros Hs Hr. induction Hs as [|c s Hc _ IH]; simpl.
  - destruct r as [|c r]; simpl; [reflexivity|]. rewrite Hr. reflexivity.
  - rewrite Hc, IH. reflexivity.
Qed.

(** A match of [ANSI_RE_match] is a prefix in the language of the pattern. *)
Lemma ANSI_RE_match_sound s n :
  ANSI_RE_match s = Some n ->
  (n <= length s)%nat /\ ansi_sequence (take n s).
Proof.
  unfold ANSI_RE_match.
  destruct s as [|e [|b r]]; try discriminate.
  destruct (N.eqb_spec e ESC) as [->|]; try discriminate.
  destruct (N.eqb_spec b 0x5b%N) as [->|]; try discriminate.
  simpl andb. cbv iota.
  set (np := run_length is_param r).
  set (ni := run_length is_inter (drop np r)).
  destruct (drop (np + ni) r) as [|f tl] eqn:Hd; try discriminate.
  destruct (is_final f) eqn:Hf; try discriminate.
  intros [= <-].
  assert (Hlen : (np + ni < length r)%nat).
  { destruct (Nat.lt_ge_cases (np + ni) (length r)) as [|Hge]; [assumption|].
    rewrite drop_ge in Hd by exact Hge. discriminate. }
  split; [simpl; lia|].
  match goal with
  | |- ansi_sequence ?t =>
      assert (E : t = ESC :: 0x5b%N :: take np r ++ take ni (drop np r) ++ [f]);
        [|rewrite E; constructor;
          [apply run_length_take | apply run_length_take | exact Hf]]
  end.
  - rewrite !firstn_cons. do 2 f_equal.
    rewrite <- (take_take_drop r (np + ni) 1), Hd.
    rewrite <- (take_take_drop r np ni), <- app_assoc. reflexivity.
Qed.

(** Where a sequence of the language starts, [ANSI_RE_match] finds it, and
    nothing longer or shorter. *)
Lemma ANSI_RE_match_complete e r :
  ansi_sequence e -> ANSI_RE_match (e ++ r) = Some (length e).
Proof.
  intros [ps qs f Hps Hqs Hf].
  assert (Hfp : is_param f = false).
  { unfold is_final, is_param in *.
    apply andb_true_iff in Hf as [H1 H2]. apply N.leb_le in H1.
    apply andb_false_iff. right. apply N.leb_gt. lia. }
  assert (Hfi : is_inter f = false).
  { unfold is_final, is_inter in *.
    apply andb_true_iff in Hf as [H1 H2]. apply N.leb_le in H1.
    apply andb_false_iff. right. apply N.leb_gt. lia. }
  assert (Hnp : run_length is_param ((ps ++ qs ++ [f]) ++ r) = length ps).
  { rewrite <- !app_assoc. apply run_length_app; [exact Hps|].
    destruct Hqs as [|q qs Hq _]; simpl; [exact Hfp|].
    unfold is_inter, is_param in *.
    apply andb_true_iff in Hq as [H1 H2]. apply N.leb_le in H2.
    apply andb_false_iff. left. apply N.leb_gt. lia. }
  assert (Hdp : drop (length ps) ((ps ++ qs ++ [f]) ++ r) = qs ++ f :: r).
  { rewrite <- !app_assoc. rewrite drop_app_length. reflexivity. }
  assert (Hni : run_length is_inter (qs ++ f :: r) = length qs).
  { apply run_length_app; [exact Hqs | exact Hfi]. }
  unfold ANSI_RE_match. simpl.
  rewrite Hnp, Hdp, Hni.
  rewrite <- drop_drop, Hdp, drop_app_length, Hf.
  f_equal. rewrite !length_app. simpl. lia.
Qed.

(** At most one escape sequence starts at a position. *)
Lemma ansi_sequence_unique e1 r1 e2 r2 :
  ansi_sequence e1 -> ansi_sequence e2 -> e1 ++ r1 = e2 ++ r2 ->
  e1 = e2 /\ r1 = r2.
Proof.
  intros H1 H2 Heq.
  pose proof (ANSI_RE_match_complete e1 r1 H1) as M1.
  pose proof (ANSI_RE_match_complete e2 r2 H2) as M2.
  rewrite Heq, M2 in M1. injection M1 as Hlen.
  assert (E : e1 = e2).
  { rewrite <- (take_app_length e1 r1), <- (take_app_length e2 r2), Heq, Hlen.
    reflexivity. }
  subst e2. split; [reflexivity|]. eapply app_inv_head, Heq.
Qed.

Lemma ansi_sequence_not_nil : ~ ansi_sequence [].
Proof. intros H. inversion H. Qed.

Lemma typed_as_concat s us : typed_as s us -> concat (map unit_text us) = s.
Proof.
  induction 1 as [|e s us _ _ IH|c s us _ _ IH]; simpl.
  - reflexivity.
  - rewrite IH. reflexivity.
  - rewrite IH. reflexivity.
Qed.

Lemma typed_as_sequences s us :
  typed_as s us ->
  Forall (fun u => match u with
                   | EscapeSeq e => ansi_sequence e
                   | Printable _ => True
                   end) us.
Proof. induction 1; constructor; auto. Qed.

(** A line has one partition. *)
Lemma typed_as_functional s us :
  typed_as s us -> forall us', typed_as s us' -> us = us'.
Proof.
  induction 1 as [|e s us He Hus IH|c s us Hc Hus IH]; intros us' H'.
  - remember (@nil N) as l eqn:El.
    destruct H' as [|e' s' us1 He' Hus'|c' s' us1 Hc' Hus']; [reflexivity| |discriminate].
    apply app_eq_nil in El as [-> _]. destruct (ansi_sequence_not_nil He').
  - remember (e ++ s) as l eqn:El.
    destruct H' as [|e' s' us1 He' Hus'|c' s' us1 Hc' Hus'].
    + symmetry in El. apply app_eq_nil in El as [-> _].
      destruct (ansi_sequence_not_nil He).
    + destruct (ansi_sequence_unique _ _ _ _ He' He El) as [-> ->].
      f_equal. apply IH, Hus'.
    + destruct (Hc' e s He El).
  - remember (c :: s) as l eqn:El.
    destruct H' as [|e' s' us1 He' Hus'|c' s' us1 Hc' Hus'].
    + discriminate.
    + destruct (Hc e' s' He' eq_refl).
    + injection El as -> ->. f_equal. apply IH, Hus'.
Qed.

Lemma type_out_from_units line i :
  exists us, typed_as (drop i line) us
             /\ type_out_from line i = flat_map unit_events us.
Proof.
  funelim (type_out_from line i).
  - exists []. rewrite drop_ge by lia. split; [constructor | reflexivity].
  - match goal with IH : exists _, _ |- _ => destruct IH as (us & Hus & Hev) end.
    exists (EscapeSeq (take n (drop i line)) :: us). split.
    + rewrite <- (take_drop n (drop i line)) at 1.
      apply typed_seq.
      * eapply ANSI_RE_match_sound. eassumption.
      * rewrite drop_drop. exact Hus.
    + simpl. rewrite Hev. reflexivity.
  - match goal with IH : exists _, _ |- _ => destruct IH as (us & Hus & Hev) end.
    destruct (drop i line) as [|c rest] eqn:Hd.
    { apply (f_equal length) in Hd. rewrite length_drop in Hd. simpl in Hd. lia. }
    exists (Printable c :: us). split.
    + apply typed_chr.
      * intros e' r He' Hstart.
        pose proof (ANSI_RE_match_complete e' r He') as Hm.
        rewrite <- Hstart in Hm. congruence.
      * replace rest with (drop 1 (drop i line)) by (rewrite Hd; reflexivity).
        rewrite drop_drop. exact Hus.
    + simpl. rewrite Hev. reflexivity.
Qed.

Lemma endswith_LF line :
  endswith line [LF] = true <-> exists l, line = l ++ [LF].
Proof.
  unfold endswith. rewrite bool_decide_eq_true. split.
  - intros H. exists (take (length line - 1) line).
    simpl in H. rewrite <- H. symmetry. apply take_drop.
  - intros [l ->]. rewrite length_app. simpl.
    replace (length l + 1 - 1)%nat with (length l) by lia.
    apply drop_app_length.
Qed.

(** C6: [type_out] cuts the line into units in the one way the pattern
    allows: where an escape sequence of the language of [ANSI_RE] starts,
    that sequence is a unit, and where none starts the unit is one
    character. A sequence is one write with no delay, a character one write
    followed by the typing delay; the units put together are the line; a
    newline is written at the end exactly when the line does not end in
    one. *)
Theorem type_out_partition (line : pystr) :
  exists us : list typing_unit,
    typed_as line us
    /\ (forall us', typed_as line us' -> us' = us)
    /\ concat (map unit_text us) = line
    /\ type_out line
       = flat_map unit_events us
         ++ (if endswith line [LF] then [] else [Write [LF]])
    /\ (endswith line [LF] = true <-> exists l, line = l ++ [LF]).
Proof.
  destruct (type_out_from_units line 0) as (us & Hus & Heq).
  rewrite drop_0 in Hus.
  exists us. split_and!.
  - exact Hus.
  - intros us' Hus'. symmetry. eapply typed_as_functional; eassumption.
  - apply typed_as_concat, Hus.
  - unfold type_out. rewrite Heq. reflexivity.
  - apply endswith_LF.
Qed.

Example type_out_red_ab :
  type_out (Fore.RED ++ lit "ab") =
  [Write Fore.RED; Flush; Write (lit "a"); Flush; Sleep TYPE_DELAY;
   Write (lit "b"); Flush; Sleep TYPE_DELAY; Write [LF]].
Proof. reflexivity. Qed.

(** ** pad_vis *)

Section DisplayWidth.

Variable rt : runtime.

Local Abbreviation vw := (visual_width rt).

Lemma visual_width_nonneg s : 0 <= vw s.
Proof. induction s as [|c s IH]; simpl; lia. Qed.

Lemma visual_width_app s t : vw (s ++ t) = vw s + vw t.
Proof. induction s as [|c s IH]; simpl; [reflexivity | rewrite IH; lia]. Qed.

Lemma visual_width_take_mono s m n : (m <= n)%nat -> vw (take m s) <= vw (take n s).
Proof.
  revert m n. induction s as [|c s IH]; intros m n Hmn.
  - rewrite !take_nil. lia.
  - destruct m as [|m]; [simpl; pose proof (visual_width_nonneg (take n (c :: s))); lia|].
    destruct n as [|n]; [lia|]. simpl.
    specialize (IH m n ltac:(lia)). lia.
Qed.

(** Every release measures a printable ASCII character as one column. *)
Lemma wcswidth_char c : printable c -> wcswidth rt [c] = 1.
Proof.
  intros Hc. rewrite (wcswidth_printable rt [c]); [reflexivity|].
  constructor; [exact Hc | constructor].
Qed.

Lemma visual_width_printable s :
  Forall printable s -> vw s = Z.of_nat (length s).
Proof.
  induction 1 as [|c s Hc _ IH]; simpl; [reflexivity|].
  rewrite IH, (wcswidth_char c Hc). lia.
Qed.

Lemma printable_repeat_space n : Forall printable (repeat SPACE n).
Proof.
  apply Forall_forall. intros c Hc.
  apply list_elem_of_In, repeat_spec in Hc. subst c.
  unfold printable, SPACE. lia.
Qed.

Lemma visual_width_repeat_space n : vw (repeat SPACE n) = Z.of_nat n.
Proof.
  rewrite (visual_width_printable _ (printable_repeat_space n)), repeat_length.
  reflexivity.
Qed.

(** The loop of [pad_vis] appends to [out] the longest prefix of [s] that
    fits in what is left of [width]. *)
Lemma pad_vis_loop_spec s width :
  forall cur out,
  exists n,
    (n <= length s)%nat
    /\ pad_vis_loop rt s width cur out = out ++ take n s
    /\ (cur <= width -> cur + vw (take n s) <= width)
    /\ (forall m, (n < m)%nat -> (m <= length s)%nat ->
          width < cur + vw (take m s)).
Proof.
  induction s as [|ch s IH]; intros cur out.
  - exists O. simpl. split_and!; try lia. symmetry; apply app_nil_r.
  - cbn [pad_vis_loop]. cbv zeta.
    destruct (Z.gtb_spec (cur + Z.max (wcswidth rt [ch]) 0) width) as [Hgt|Hle].
    + exists O. simpl. split_and!; try lia.
      * symmetry; apply app_nil_r.
      * intros [|m] Hm Hlen; [lia|]. simpl.
        pose proof (visual_width_nonneg (take m s)). lia.
    + destruct (IH (cur + Z.max (wcswidth rt [ch]) 0) (out ++ [ch]))
        as (n & Hn & Heq & Hfit & Hmax).
      exists (S n). simpl. split_and!.
      * lia.
      * rewrite Heq, <- app_assoc. reflexivity.
      * intros _. specialize (Hfit Hle). lia.
      * intros [|m] Hm Hlen; [lia|]. simpl.
        specialize (Hmax m ltac:(lia) ltac:(lia)). lia.
Qed.

(** The loop keeps the whole string when, counting negative widths as 0, it
    fits. *)
Lemma pad_vis_loop_fits s W :
  vw s <= W -> pad_vis_loop rt s W 0 [] = s.
Proof.
  intros Hfit.
  destruct (pad_vis_loop_spec s W 0 []) as (n & Hn & Heq & _ & Hmax).
  rewrite Heq. simpl.
  destruct (Nat.lt_ge_cases n (length s)) as [Hlt|Hge].
  - specialize (Hmax (length s) Hlt ltac:(lia)).
    rewrite firstn_all in Hmax. lia.
  - apply take_ge. exact Hge.
Qed.


End DisplayWidth.



(** The wide character does not fit in the third column: it is dropped and
    a space fills the column. *)
Example pad_vis_wide :
  pad_vis sample_runtime (lit "ab" ++ [0x4e2d%N] ++ lit "c") 3 = lit "ab ".
Proof. reflexivity. Qed.

Lemma starts_with_app needle r : starts_with needle (needle ++ r) = true.
Proof.
  induction needle as [|a needle IH]; simpl; [reflexivity|].
  rewrite N.eqb_refl, IH. reflexivity.
Qed.

Lemma starts_with_true needle hay :
  starts_with needle hay = true -> hay = needle ++ drop (length needle) hay.
Proof.
  revert hay. induction needle as [|a needle IH]; intros hay H; simpl.
  - reflexivity.
  - destruct hay as [|b hay]; simpl in H; [discriminate|].
    apply andb_true_iff in H as [Hab Hrest].
    apply N.eqb_eq in Hab. subst b. simpl. f_equal. apply IH, Hrest.
Qed.

(** [find] returns the index of an occurrence. *)
Lemma py_find_sound needle hay i :
  py_find needle hay = Some i ->
  hay = take i hay ++ needle ++ drop (i + length needle) hay.
Proof.
  revert i. induction hay as [|b hay IH]; intros i; simpl.
  - destruct (starts_with needle []) eqn:Hs; [|discriminate].
    intros [= <-]. simpl. apply starts_with_true, Hs.
  - destruct (starts_with needle (b :: hay)) eqn:Hs.
    + intros [= <-]. simpl. apply starts_with_true, Hs.
    + destruct (py_find needle hay) as [j|] eqn:Hj; simpl; [|discriminate].
      intros [= <-]. simpl. f_equal. apply IH. reflexivity.
Qed.

Lemma py_find_unfold needle hay :
  py_find needle hay
  = if starts_with needle hay then Some O
    else match hay with
         | [] => None
         | _ :: hay' => S <$> py_find needle hay'
         end.
Proof. destruct hay; reflexivity. Qed.

(** [find] finds the needle wherever it occurs. *)
Lemma py_find_complete needle a b :
  exists i, py_find needle (a ++ needle ++ b) = Some i.
Proof.
  induction a as [|c a [i IH]].
  - rewrite py_find_unfold. simpl. rewrite starts_with_app. eauto.
  - rewrite py_find_unfold. simpl.
    destruct (starts_with needle (c :: a ++ needle ++ b)); [eauto|].
    rewrite IH. simpl. eauto.
Qed.


Lemma starts_with_longer needle hay :
  (length hay < length needle)%nat -> starts_with needle hay = false.
Proof.
  revert hay. induction needle as [|a needle IH]; intros [|b hay] H; simpl in *;
    try lia; try reflexivity.
  rewrite IH by lia. apply andb_false_r.
Qed.

Lemma py_find_longer needle hay :
  (length hay < length needle)%nat -> py_find needle hay = None.
Proof.
  induction hay as [|b hay IH]; intros H; rewrite py_find_unfold.
  - rewrite starts_with_longer by exact H. reflexivity.
  - rewrite starts_with_longer by exact H. rewrite IH by (simpl in H; lia).
    reflexivity.
Qed.

(** *** Numerals *)

Lemma string_of_uint_printable d :
  Forall printable (lit (NilEmpty.string_of_uint d)).
Proof.
  induction d; simpl; constructor; try assumption; unfold printable; simpl; lia.
Qed.

Lemma string_of_uint_no_space d :
  Forall (fun c => c <> SPACE) (lit (NilEmpty.string_of_uint d)).
Proof. induction d; simpl; constructor; try assumption; discriminate. Qed.

Lemma string_of_uint_ascii_digits d :
  forallb ascii_digit (lit (NilEmpty.string_of_uint d)) = true.
Proof. induction d; simpl; first [exact IHd | reflexivity]. Qed.

Lemma nilzero_ascii_digits d :
  NilZero.string_of_uint d <> EmptyString
  /\ forallb ascii_digit (lit (NilZero.string_of_uint d)) = true.
Proof.
  unfold NilZero.string_of_uint.
  destruct d; (split; [discriminate|]);
    first [reflexivity | apply (string_of_uint_ascii_digits (_ d))].
Qed.

(** The numeral of an integer: digits, after a minus sign when it is
    negative. *)
Lemma str_int_shape z :
  exists ds, ds <> [] /\ forallb ascii_digit ds = true
             /\ str_int z = if z <? 0 then 45%N :: ds else ds.
Proof.
  unfold str_int, NilZero.string_of_int.
  destruct z as [|p|p]; cbn [Z.to_int Z.ltb Z.compare].
  - exists (lit "0"). split_and!; [discriminate | reflexivity | reflexivity].
  - destruct (nilzero_ascii_digits (Pos.to_uint p)) as [Hne Hd].
    exists (lit (NilZero.string_of_uint (Pos.to_uint p))). split_and!.
    + intros H. apply Hne.
      destruct (NilZero.string_of_uint (Pos.to_uint p)); [reflexivity | discriminate].
    + exact Hd.
    + reflexivity.
  - destruct (nilzero_ascii_digits (Pos.to_uint p)) as [Hne Hd].
    exists (lit (NilZero.string_of_uint (Pos.to_uint p))). split_and!.
    + intros H. apply Hne.
      destruct (NilZero.string_of_uint (Pos.to_uint p)); [reflexivity | discriminate].
    + exact Hd.
    + reflexivity.
Qed.

Lemma ascii_digits_printable ds :
  forallb ascii_digit ds = true ->
  Forall (fun c => printable c /\ c <> SPACE /\ c <> 43%N /\ c <> 45%N) ds.
Proof.
  induction ds as [|c ds IH]; simpl; intros H; constructor.
  - apply andb_true_iff in H as [Hc _]. unfold ascii_digit in Hc.
    apply andb_true_iff in Hc as [H1 H2].
    apply N.leb_le in H1. apply N.leb_le in H2.
    unfold printable, SPACE. split_and!; lia.
  - apply IH. apply andb_true_iff in H as [_ Hs]. exact Hs.
Qed.

(** What [find] needs to know of a numeral: it is printable ASCII without
    a space, and when it is one character long that character is a
    digit. *)
Lemma str_num_shape v :
  exists n0 rest,
    str_num v = n0 :: rest
    /\ Forall printable (str_num v)
    /\ Forall (fun c => c <> SPACE) (str_num v)
    /\ (rest = [] -> n0 <> 43%N /\ n0 <> 45%N).
Proof.
  destruct v as [z|[|]].
  - destruct (str_int_shape z) as (ds & Hne & Hd & Heq). simpl. rewrite Heq.
    pose proof (ascii_digits_printable ds Hd) as Hds.
    destruct ds as [|d0 ds]; [contradiction|].
    destruct (z <? 0).
    + exists 45%N, (d0 :: ds). split_and!.
      * reflexivity.
      * constructor; [unfold printable; lia|].
        eapply Forall_impl; [exact Hds|]. simpl. tauto.
      * constructor; [discriminate|].
        eapply Forall_impl; [exact Hds|]. simpl. tauto.
      * discriminate.
    + exists d0, ds. split_and!.
      * reflexivity.
      * eapply Forall_impl; [exact Hds|]. simpl. tauto.
      * eapply Forall_impl; [exact Hds|]. simpl. tauto.
      * intros _. apply Forall_cons in Hds as [(_ & _ & H1 & H2) _]. auto.
  - exists 84%N, (lit "rue"). simpl.
    split_and!; try reflexivity; try discriminate;
      repeat constructor; unfold printable; simpl; try lia; discriminate.
  - exists 70%N, (lit "alse"). simpl.
    split_and!; try reflexivity; try discriminate;
      repeat constructor; unfold printable; simpl; try lia; discriminate.
Qed.

Lemma choose_str_printable cv : Forall printable (choose_str_of cv).
Proof.
  destruct cv as [v|]; simpl.
  - destruct (str_num_shape v) as (? & ? & _ & H & _). exact H.
  - repeat constructor; unfold printable; simpl; lia.
Qed.

Lemma choose_str_no_space cv : Forall (fun c => c <> SPACE) (choose_str_of cv).
Proof.
  destruct cv as [v|]; simpl.
  - destruct (str_num_shape v) as (? & ? & _ & _ & H & _). exact H.
  - repeat constructor; discriminate.
Qed.

(** In column 2 the numeral is found right after the sign marker and the
    space. *)
Lemma py_find_numeral v sign tail :
  sign = 43%N \/ sign = 45%N ->
  py_find (str_num v) (sign :: SPACE :: str_num v ++ tail) = Some 2%nat.
Proof.
  intros Hsign.
  destruct (str_num_shape v) as (n0 & rest & Heq & _ & Hsp & Hone).
  rewrite Heq in *. apply Forall_cons in Hsp as [Hn0 Hrest].
  rewrite py_find_unfold.
  replace (starts_with (n0 :: rest) (sign :: SPACE :: (n0 :: rest) ++ tail)) with false.
  2:{ symmetry. cbn [starts_with].
      destruct rest as [|n1 rest'].
      - destruct (Hone eq_refl) as [H1 H2].
        destruct (N.eqb_spec n0 sign); [|reflexivity].
        destruct Hsign; congruence.
      - apply Forall_cons in Hrest as [Hn1 _].
        apply N.eqb_neq in Hn1. simpl. rewrite Hn1. apply andb_false_r. }
  rewrite py_find_unfold.
  replace (starts_with (n0 :: rest) (SPACE :: (n0 :: rest) ++ tail)) with false.
  2:{ symmetry. cbn [starts_with].
      apply N.eqb_neq in Hn0. simpl. rewrite Hn0. reflexivity. }
  rewrite py_find_unfold, starts_with_app. reflexivity.
Qed.

Lemma choose_color_iff cv pv :
  (choose_color_of cv pv = Fore.RED <-> increased cv pv)
  /\ (choose_color_of cv pv = Fore.GREEN <-> decreased cv pv)
  /\ (choose_color_of cv pv = Fore.YELLOW
      <-> ~ increased cv pv /\ ~ decreased cv pv).
Proof.
  assert (Hno : cv = None \/ pv = None ->
                ~ increased cv pv /\ ~ decreased cv pv).
  { intros Hn. split; intros (v & p & -> & -> & _); destruct Hn; discriminate. }
  assert (Hi : forall v p, cv = Some v -> pv = Some p ->
                 (increased cv pv <-> num_val v > num_val p)
                 /\ (decreased cv pv <-> num_val v < num_val p)).
  { intros v p -> ->. unfold increased, decreased. split; split.
    - intros (v' & p' & [= <-] & [= <-] & H). exact H.
    - intros H. exists v, p. auto.
    - intros (v' & p' & [= <-] & [= <-] & H). exact H.
    - intros H. exists v, p. auto. }
  assert (Hrg : Fore.RED <> Fore.GREEN) by discriminate.
  assert (Hry : Fore.RED <> Fore.YELLOW) by discriminate.
  assert (Hgy : Fore.GREEN <> Fore.YELLOW) by discriminate.
  unfold choose_color_of.
  destruct pv as [p|] eqn:Ep, cv as [v|] eqn:Ec.
  - destruct (Hi v p eq_refl eq_refl) as [Hinc Hdec].
    rewrite Hinc, Hdec.
    destruct (Z.gtb_spec (num_val v) (num_val p));
      [|destruct (Z.ltb_spec (num_val v) (num_val p))];
      split_and!; split; intros; try congruence; try lia.
  - destruct (Hno (or_introl eq_refl)). split_and!; split; intros;
      try congruence; tauto.
  - destruct (Hno (or_intror eq_refl)). split_and!; split; intros;
      try congruence; tauto.
  - destruct (Hno (or_introl eq_refl)). split_and!; split; intros;
      try congruence; tauto.
Qed.


Section RowFormatter.

Variable rt : runtime.

(** A printable prefix that fits in the column is kept whole. *)
Lemma pad_vis_keep p q width :
  Forall printable p ->
  Z.of_nat (length p) <= width ->
  exists r, pad_vis rt (p ++ q) width = p ++ r.
Proof.
  intros Hp Hlen.
  destruct (pad_vis_loop_spec rt (p ++ q) width 0 [])
    as (n & Hn & Heq & _ & Hmax).
  assert (Hge : (length p <= n)%nat).
  { destruct (Nat.le_gt_cases (length p) n) as [|Hlt]; [assumption|].
    specialize (Hmax (length p) Hlt ltac:(rewrite length_app; lia)).
    rewrite take_app_length, (visual_width_printable rt p Hp) in Hmax. lia. }
  unfold pad_vis. rewrite Heq. simpl.
  rewrite take_app_ge by exact Hge. rewrite <- app_assoc. eauto.
Qed.

(** A printable text that fills the column exactly and is followed by a
    printable character is cut right after it, and nothing is appended. *)
Lemma pad_vis_cut p c q :
  Forall printable p -> printable c ->
  pad_vis rt (p ++ c :: q) (Z.of_nat (length p)) = p.
Proof.
  intros Hp Hc.
  destruct (pad_vis_loop_spec rt (p ++ c :: q) (Z.of_nat (length p)) 0 [])
    as (n & Hn & Heq & Hfit & Hmax).
  specialize (Hfit ltac:(lia)). simpl in Heq.
  assert (Hpc : Forall printable (p ++ [c])) by (apply Forall_app; auto).
  assert (Hle : (n <= length p)%nat).
  { destruct (Nat.le_gt_cases n (length p)) as [|Hgt]; [assumption|].
    pose proof (visual_width_take_mono rt (p ++ c :: q) (S (length p)) n
                  ltac:(lia)) as Hmono.
    replace (take (S (length p)) (p ++ c :: q)) with (p ++ [c]) in Hmono.
    - rewrite (visual_width_printable rt _ Hpc) in Hmono.
      rewrite length_app in Hmono. simpl in Hmono. lia.
    - rewrite take_app_ge by lia.
      replace (S (length p) - length p)%nat with 1%nat by lia. reflexivity. }
  assert (Hge : (length p <= n)%nat).
  { destruct (Nat.le_gt_cases (length p) n) as [|Hlt]; [assumption|].
    specialize (Hmax (length p) Hlt ltac:(rewrite length_app; lia)).
    rewrite take_app_length in Hmax.
    rewrite (visual_width_printable rt _ Hp) in Hmax. lia. }
  assert (n = length p) by lia. subst n.
  unfold pad_vis, str_mul. rewrite Heq, take_app_length.
  rewrite (wcswidth_printable rt p Hp), Z.sub_diag. simpl. apply app_nil_r.
Qed.

Lemma sign_of_iff cv pv :
  (sign_of cv pv = 43%N <-> increased cv pv)
  /\ (sign_of cv pv = 45%N <-> ~ increased cv pv).
Proof.
  destruct (choose_color_iff cv pv) as (Hred & _ & _).
  unfold sign_of. rewrite <- Hred.
  destruct (bool_decide_reflect (choose_color_of cv pv = Fore.RED));
    split; split; intros; try assumption; try reflexivity; try discriminate;
    contradiction.
Qed.

Lemma sign_of_cases cv pv : sign_of cv pv = 43%N \/ sign_of cv pv = 45%N.
Proof. unfold sign_of. destruct (bool_decide _); auto. Qed.

Lemma part2_vis_sign cv pv r2 :
  part2_vis_of rt (choose_color_of cv pv) (choose_str_of cv) r2
  = sign_of cv pv :: SPACE :: choose_str_of cv ++ lit " / " ++ py_str rt r2.
Proof.
  unfold part2_vis_of, sign_of.
  destruct (bool_decide (choose_color_of cv pv = Fore.RED)); reflexivity.
Qed.

(** A row in terms of its second column. *)
Lemma build_colored_line_parts course_no course_name r2 classroom cv pv :
  build_colored_line rt course_no course_name cv r2 classroom pv
  = Fore.CYAN
      ++ pad_vis rt (py_str rt course_no ++ lit " | " ++ py_str rt course_name)
           COL1_WIDTH
      ++ Style.RESET_ALL
      ++ part2_col_of (choose_color_of cv pv) (choose_str_of cv)
           (pad_vis rt
              (sign_of cv pv :: SPACE :: choose_str_of cv ++ lit " / "
                 ++ py_str rt r2) COL2_WIDTH)
      ++ Fore.GREEN ++ lit "| " ++ py_str rt classroom ++ Style.RESET_ALL.
Proof.
  unfold build_colored_line. rewrite part2_vis_sign.
  repeat rewrite <- app_assoc. reflexivity.
Qed.

(** The second column when the numeral fits: the numeral is found after
    the sign marker and the space, and takes the colour. *)
Lemma part2_col_numeral v pv r2 :
  (length (str_num v) <= 14)%nat ->
  let cv := Some v in
  let column2 :=
    pad_vis rt (sign_of cv pv :: SPACE :: str_num v ++ lit " / " ++ py_str rt r2)
      COL2_WIDTH in
  take (2 + length (str_num v)) column2 = sign_of cv pv :: SPACE :: str_num v
  /\ part2_col_of (choose_color_of cv pv) (str_num v) column2
     = Fore.YELLOW ++ [sign_of cv pv; SPACE] ++ choose_color_of cv pv
         ++ str_num v ++ Fore.YELLOW
         ++ drop (2 + length (str_num v)) column2 ++ Style.RESET_ALL.
Proof.
  intros Hlen cv column2.
  destruct (str_num_shape v) as (n0 & rest & _ & Hprint & _).
  assert (Hsign : printable (sign_of cv pv)).
  { unfold printable. destruct (sign_of_cases cv pv) as [-> | ->]; lia. }
  destruct (pad_vis_keep (sign_of cv pv :: SPACE :: str_num v)
              (lit " / " ++ py_str rt r2) COL2_WIDTH) as [tail Htail].
  { constructor; [exact Hsign|]. constructor; [unfold printable, SPACE; lia|].
    exact Hprint. }
  { unfold COL2_WIDTH. simpl length. lia. }
  assert (Hcol : column2 = sign_of cv pv :: SPACE :: str_num v ++ tail).
  { unfold column2. exact Htail. }
  rewrite Hcol. split.
  - change (sign_of cv pv :: SPACE :: str_num v ++ tail)
      with ((sign_of cv pv :: SPACE :: str_num v) ++ tail).
    replace (2 + length (str_num v))%nat
      with (length (sign_of cv pv :: SPACE :: str_num v)) by reflexivity.
    apply take_app_length.
  - unfold part2_col_of.
    rewrite (py_find_numeral v _ tail (sign_of_cases cv pv)).
    cbn [take firstn].
    change (sign_of cv pv :: SPACE :: str_num v ++ tail)
      with ((sign_of cv pv :: SPACE :: str_num v) ++ tail).
    replace (2 + length (str_num v))%nat
      with (length (sign_of cv pv :: SPACE :: str_num v)) by reflexivity.
    rewrite drop_app_length. reflexivity.
Qed.

(** The second column when the count is missing: the dash that [find]
    finds is the sign marker, and everything is yellow. *)
Lemma part2_col_missing pv r2 :
  let cv : option pynum := None in
  let column2 :=
    pad_vis rt (sign_of cv pv :: SPACE :: lit "-" ++ lit " / " ++ py_str rt r2)
      COL2_WIDTH in
  choose_color_of cv pv = Fore.YELLOW
  /\ take 3 column2 = lit "- -"
  /\ part2_col_of (choose_color_of cv pv) (lit "-") column2
     = Fore.YELLOW ++ Fore.YELLOW ++ lit "-" ++ Fore.YELLOW
         ++ drop 1 column2 ++ Style.RESET_ALL.
Proof.
  intros cv column2.
  assert (Hcolor : choose_color_of cv pv = Fore.YELLOW) by (destruct pv; reflexivity).
  assert (Hsign : sign_of cv pv = 45%N).
  { unfold sign_of. rewrite Hcolor. reflexivity. }
  destruct (pad_vis_keep (lit "- -") (lit " / " ++ py_str rt r2) COL2_WIDTH)
    as [tail Htail].
  { repeat constructor; unfold printable; simpl; lia. }
  { unfold COL2_WIDTH. simpl. lia. }
  assert (Hcol : column2 = lit "- -" ++ tail).
  { unfold column2. rewrite Hsign. exact Htail. }
  rewrite Hcol, Hcolor. split_and!; try reflexivity.
Qed.

(** The second column when the numeral does not fit: it is cut after 14
    characters, it is not found, and the column is yellow. *)
Lemma part2_col_long cv pv r2 :
  (14 < length (choose_str_of cv))%nat ->
  part2_col_of (choose_color_of cv pv) (choose_str_of cv)
    (pad_vis rt
       (sign_of cv pv :: SPACE :: choose_str_of cv ++ lit " / " ++ py_str rt r2)
       COL2_WIDTH)
  = Fore.YELLOW ++ [sign_of cv pv; SPACE] ++ take 14 (choose_str_of cv)
      ++ Style.RESET_ALL.
Proof.
  intros Hlen.
  set (sign := sign_of cv pv).
  set (str := choose_str_of cv) in *.
  assert (Hstr : str = take 14 str ++ drop 14 str) by (symmetry; apply take_drop).
  destruct (drop 14 str) as [|c rest] eqn:Hdrop.
  { apply (f_equal length) in Hdrop. rewrite length_drop in Hdrop. simpl in Hdrop. lia. }
  assert (Hprint : Forall printable str) by apply choose_str_printable.
  assert (Hspace : Forall (fun c => c <> SPACE) str) by apply choose_str_no_space.
  assert (Htake : length (take 14 str) = 14%nat) by (rewrite length_take; lia).
  assert (Hsign : printable sign).
  { unfold printable. destruct (sign_of_cases cv pv) as [H|H]; fold sign in H;
      rewrite H; lia. }
  assert (Hc : printable c).
  { rewrite Hstr in Hprint. apply Forall_app in Hprint as [_ Hprint].
    apply Forall_cons in Hprint as [Hc _]. exact Hc. }
  assert (Hpad : pad_vis rt (sign :: SPACE :: str ++ lit " / " ++ py_str rt r2)
                   COL2_WIDTH
                 = sign :: SPACE :: take 14 str).
  { replace (sign :: SPACE :: str ++ lit " / " ++ py_str rt r2)
      with ((sign :: SPACE :: take 14 str) ++ c :: (rest ++ lit " / " ++ py_str rt r2)).
    - replace COL2_WIDTH with (Z.of_nat (length (sign :: SPACE :: take 14 str)))
        by (simpl length; rewrite Htake; reflexivity).
      apply pad_vis_cut; [|exact Hc].
      constructor; [exact Hsign|]. constructor; [unfold printable, SPACE; lia|].
      apply Forall_take, Hprint.
    - rewrite Hstr at 2. simpl. repeat rewrite <- app_assoc. reflexivity. }
  assert (Hfind : py_find str (sign :: SPACE :: take 14 str) = None).
  { destruct str as [|n0 [|n1 str']] eqn:Estr; try (simpl in Hlen; lia).
    apply Forall_cons in Hspace as [Hn0 Hspace].
    apply Forall_cons in Hspace as [Hn1 _].
    apply N.eqb_neq in Hn0, Hn1.
    rewrite py_find_unfold.
    replace (starts_with (n0 :: n1 :: str') (sign :: SPACE :: take 14 (n0 :: n1 :: str')))
      with false.
    2:{ symmetry. simpl. rewrite Hn1. apply andb_false_r. }
    rewrite py_find_unfold.
    replace (starts_with (n0 :: n1 :: str') (SPACE :: take 14 (n0 :: n1 :: str')))
      with false.
    2:{ symmetry. simpl. rewrite Hn0. reflexivity. }
    rewrite py_find_longer by (rewrite Htake; simpl in Hlen |- *; lia).
    reflexivity. }
  rewrite Hpad. unfold part2_col_of. rewrite Hfind.
  repeat rewrite <- app_assoc. reflexivity.
Qed.

(** C4 (amended): column 2 starts with the sign marker, which is [+]
    exactly when both counts are integers and the count went up, and [-]
    otherwise. When the numeral has at most 14 characters it follows the
    marker and a space, and it is the run that takes the colour: red when
    the count went up, green when it went down, yellow otherwise (a count
    is [None], or the counts are equal); the marker and the space before it
    and the rest of the column after it are yellow. A missing count is
    rendered as a single dash after the marker and the space, and the
    column is yellow throughout. A numeral of 15 characters or more is cut
    after 14: it is not found in the padded column, which is yellow
    throughout. *)
Theorem build_colored_line_numeral
    (course_no course_name r2 classroom : pyval) (cv pv : option pynum) :
  exists (sign : char) (color : pystr),
    (sign = 43%N <-> increased cv pv)
    /\ (sign = 45%N <-> ~ increased cv pv)
    /\ (color = Fore.RED <-> increased cv pv)
    /\ (color = Fore.GREEN <-> decreased cv pv)
    /\ (color = Fore.YELLOW <-> ~ increased cv pv /\ ~ decreased cv pv)
    /\ let column2 :=
         pad_vis rt
           (sign :: SPACE :: choose_str_of cv ++ lit " / " ++ py_str rt r2)
           COL2_WIDTH in
       let row (part2 : pystr) :=
         Fore.CYAN
           ++ pad_vis rt (py_str rt course_no ++ lit " | " ++ py_str rt course_name)
                COL1_WIDTH
           ++ Style.RESET_ALL
           ++ part2
           ++ Fore.GREEN ++ lit "| " ++ py_str rt classroom ++ Style.RESET_ALL in
       (forall v, cv = Some v -> (length (str_num v) <= 14)%nat ->
          take (2 + length (str_num v)) column2 = sign :: SPACE :: str_num v
          /\ build_colored_line rt course_no course_name cv r2 classroom pv
             = row (Fore.YELLOW ++ [sign; SPACE] ++ color ++ str_num v
                      ++ Fore.YELLOW ++ drop (2 + length (str_num v)) column2
                      ++ Style.RESET_ALL))
       /\ (cv = None ->
           color = Fore.YELLOW
           /\ take 3 column2 = lit "- -"
           /\ build_colored_line rt course_no course_name cv r2 classroom pv
              = row (Fore.YELLOW ++ Fore.YELLOW ++ lit "-" ++ Fore.YELLOW
                       ++ drop 1 column2 ++ Style.RESET_ALL))
       /\ ((14 < length (choose_str_of cv))%nat ->
           build_colored_line rt course_no course_name cv r2 classroom pv
           = row (Fore.YELLOW ++ [sign; SPACE] ++ take 14 (choose_str_of cv)
                    ++ Style.RESET_ALL)).
Proof.
  exists (sign_of cv pv), (choose_color_of cv pv).
  destruct (sign_of_iff cv pv) as [Hplus Hminus].
  destruct (choose_color_iff cv pv) as (Hred & Hgreen & Hyellow).
  split_and!; try assumption.
  cbv zeta. rewrite build_colored_line_parts. split_and!.
  - intros v -> Hlen.
    destruct (part2_col_numeral v pv r2 Hlen) as [Htake Hcol].
    cbv zeta in Htake, Hcol. cbn [choose_str_of].
    split; [exact Htake|]. rewrite Hcol.
    repeat rewrite <- app_assoc. reflexivity.
  - intros ->.
    destruct (part2_col_missing pv r2) as (Hcolor & Htake & Hcol).
    cbv zeta in Htake, Hcol. cbn [choose_str_of].
    split_and!; [exact Hcolor | exact Htake |]. rewrite Hcol.
    repeat rewrite <- app_assoc. reflexivity.
  - intros Hlen. rewrite (part2_col_long cv pv r2 Hlen).
    repeat rewrite <- app_assoc. reflexivity.
Qed.

End RowFormatter.

(** ** sorted *)

Lemma str_lt_asym s t : str_lt s t = true -> str_lt t s = false.
Proof.
  revert t. induction s as [|a s IH]; intros [|b t]; simpl; try discriminate;
    try reflexivity.
  destruct (N.ltb_spec a b), (N.ltb_spec b a), (N.eqb_spec a b), (N.eqb_spec b a);
    simpl; try lia; try discriminate; try reflexivity.
  apply IH.
Qed.

Lemma str_le_trans x y z :
  str_lt y x = false -> str_lt z y = false -> str_lt z x = false.
Proof.
  revert y z. induction x as [|a x IH]; intros [|b y] [|c z]; simpl;
    try discriminate; try reflexivity.
  destruct (N.ltb_spec b a), (N.ltb_spec c b), (N.ltb_spec c a),
    (N.eqb_spec b a), (N.eqb_spec c b), (N.eqb_spec c a);
    simpl; try lia; try discriminate; try reflexivity.
  apply IH.
Qed.

(** [str_lt] is the lexicographic order: the first string is a proper
    prefix of the second, or they differ first at a position where the first
    has the smaller code point. *)
Lemma str_lt_lexicographic s t :
  str_lt s t = true <->
  (exists b r, t = s ++ b :: r)
  \/ (exists p a b s' t', s = p ++ a :: s' /\ t = p ++ b :: t' /\ (a < b)%N).
Proof.
  revert t. induction s as [|a s IH]; intros [|b t]; simpl.
  - split; [discriminate|].
    intros [(b & r & H)|(p & a & b & s' & t' & H & _)];
      [discriminate | destruct p; discriminate].
  - split; [intros _; left; eauto | reflexivity].
  - split; [discriminate|].
    intros [(b & r & H)|(p & a' & b & s' & t' & _ & H & _)];
      [discriminate | destruct p; discriminate].
  - rewrite orb_true_iff, andb_true_iff, N.ltb_lt, N.eqb_eq, IH. split.
    + intros [Hlt|[-> [(c & r & ->)|(p & a' & b' & s' & t' & -> & -> & Hlt)]]].
      * right. exists [], a, b, s, t. auto.
      * left. eauto.
      * right. exists (b :: p), a', b', s', t'. auto.
    + intros [(c & r & [= -> ->])|(p & a' & b' & s' & t' & Hs & Ht & Hlt)].
      * right. split; [reflexivity|]. left. eauto.
      * destruct p as [|x p]; simpl in Hs, Ht.
        -- injection Hs as -> ->. injection Ht as -> ->. auto.
        -- injection Hs as -> ->. injection Ht as -> ->.
           right. split; [reflexivity|]. right.
           exists p, a', b', s', t'. auto.
Qed.

(** *** Numbers *)

Lemma number_lt_ints m n :
  number_lt (int_number m) (int_number n) = (num_val m <? num_val n).
Proof.
  unfold number_lt, int_number.
  destruct (Z.ltb_spec (num_val m) (num_val n)) as [H|H].
  - apply negb_true_iff. apply not_true_iff_false. intros Hle.
    apply Qle_bool_iff in Hle. rewrite <- Zle_Qle in Hle. lia.
  - apply negb_false_iff. apply Qle_bool_iff. rewrite <- Zle_Qle. lia.
Qed.

Lemma number_eq_ints m n :
  number_eq (int_number m) (int_number n) = (num_val m =? num_val n).
Proof.
  unfold number_eq, int_number.
  destruct (Z.eqb_spec (num_val m) (num_val n)) as [H|H].
  - apply Qeq_bool_iff. rewrite H. reflexivity.
  - apply not_true_iff_false. intros Heq. apply Qeq_bool_iff in Heq.
    apply H. apply inject_Z_injective. exact Heq.
Qed.

(** Between two keys of the number kind, [<] and [==] are those of what
    they are worth. *)
Lemma py_lt_numbers a b :
  key_class a = Some false -> key_class b = Some false ->
  py_lt a b = Ok (number_lt (number_of a) (number_of b)).
Proof.
  destruct a as [|m|f|s|l|d], b as [|n|g|t|l'|d']; intros Ha Hb;
    simpl in Ha, Hb; try discriminate; cbn [py_lt number_of];
    rewrite ?number_lt_ints; reflexivity.
Qed.

Lemma py_eq_numbers a b :
  key_class a = Some false -> key_class b = Some false ->
  py_eq a b = number_eq (number_of a) (number_of b).
Proof.
  destruct a as [|m|f|s|l|d], b as [|n|g|t|l'|d']; intros Ha Hb;
    simpl in Ha, Hb; try discriminate; cbn [py_eq number_of];
    rewrite ?number_eq_ints; reflexivity.
Qed.

Lemma number_of_not_nan a : key_class a = Some false -> number_of a <> NaN.
Proof.
  destruct a as [|m|f|s|l|d]; intros Ha; simpl in Ha; try discriminate Ha.
  - intros H. discriminate H.
  - destruct f as [? | [|] | |[|] ? ?]; simpl in *; intros H;
      first [discriminate Ha | discriminate H].
Qed.

Lemma number_lt_asym x y : number_lt x y = true -> number_lt y x = false.
Proof.
  destruct x as [| |p|], y as [| |q|]; simpl; try discriminate; try reflexivity.
  intros H. apply negb_true_iff in H. apply negb_false_iff.
  apply Qle_bool_iff. apply not_true_iff_false in H.
  rewrite Qle_bool_iff in H. lra.
Qed.

Lemma number_le_trans x y z :
  y <> NaN ->
  number_lt y x = false -> number_lt z y = false -> number_lt z x = false.
Proof.
  destruct x as [| |p|], y as [| |q|], z as [| |r|]; simpl;
    try discriminate; try reflexivity; try congruence.
  intros _ H1 H2. apply negb_false_iff in H1, H2. apply negb_false_iff.
  apply Qle_bool_iff in H1, H2. apply Qle_bool_iff. lra.
Qed.

Lemma number_lt_not_equal x y k :
  number_eq x k = true -> number_eq y k = true -> number_lt y x = false.
Proof.
  destruct x as [| |p|], y as [| |q|], k as [| |r|]; simpl;
    try discriminate; try reflexivity.
  intros H1 H2. apply Qeq_bool_iff in H1, H2.
  apply negb_false_iff. apply Qle_bool_iff. lra.
Qed.

(** *** Keys that [<] orders *)

Lemma py_lt_class a b :
  classed a -> classed b ->
  match py_lt a b with
  | Ok _ => exists k, key_class a = Some k /\ key_class b = Some k
  | Raise e => e = TypeError
               /\ forall k, ~ (key_class a = Some k /\ key_class b = Some k)
  end.
Proof.
  intros [ka Ha] [kb Hb].
  destruct a as [|m|f|s|l|d]; simpl in Ha; try discriminate Ha;
    destruct b as [|n|g|t|l'|d']; simpl in Hb; try discriminate Hb;
    try (destruct f as [? | [|] | |[|] ? ?]; try discriminate Ha);
    try (destruct g as [? | [|] | |[|] ? ?]; try discriminate Hb);
    cbn [py_lt key_class];
    first [ exists true; split; reflexivity
          | exists false; split; reflexivity
          | split; [reflexivity|]; intros k [? ?]; congruence ].
Qed.

Lemma py_lt_same_class a b k :
  key_class a = Some k -> key_class b = Some k -> exists r, py_lt a b = Ok r.
Proof.
  intros Ha Hb.
  pose proof (py_lt_class a b ltac:(eexists; eassumption) ltac:(eexists; eassumption)) as H.
  destruct (py_lt a b) as [r|e]; [eauto|].
  destruct H as [_ H]. destruct (H k). auto.
Qed.

Lemma py_lt_asym a b :
  classed a -> classed b -> py_lt a b = Ok true -> py_lt b a = Ok false.
Proof.
  intros Ha Hb Hlt.
  pose proof (py_lt_class a b Ha Hb) as Hc. rewrite Hlt in Hc.
  destruct Hc as ([|] & Hka & Hkb).
  - destruct a as [|m|f|s|l|d], b as [|n|g|t|l'|d']; simpl in Hka, Hkb;
      try discriminate;
      try (destruct f as [? | [|] | |[|] ? ?]; discriminate);
      try (destruct g as [? | [|] | |[|] ? ?]; discriminate).
    simpl in *. injection Hlt as Hlt. f_equal. apply str_lt_asym, Hlt.
  - rewrite (py_lt_numbers _ _ Hka Hkb) in Hlt. injection Hlt as Hlt.
    rewrite (py_lt_numbers _ _ Hkb Hka). f_equal. apply number_lt_asym, Hlt.
Qed.

Lemma py_le_trans a b c :
  classed a -> classed b -> classed c ->
  py_lt b a = Ok false -> py_lt c b = Ok false -> py_lt c a = Ok false.
Proof.
  intros Ha Hb Hc H1 H2.
  pose proof (py_lt_class b a Hb Ha) as C1. rewrite H1 in C1.
  pose proof (py_lt_class c b Hc Hb) as C2. rewrite H2 in C2.
  destruct C1 as (k & Hkb & Hka). destruct C2 as (k' & Hkc & Hkb').
  assert (k' = k) by congruence. subst k'.
  destruct k.
  - destruct a as [|m|f|s|l|d]; simpl in Hka; try discriminate;
      try (destruct f as [? | [|] | |[|] ? ?]; discriminate).
    destruct b as [|n|g|t|l'|d']; simpl in Hkb; try discriminate;
      try (destruct g as [? | [|] | |[|] ? ?]; discriminate).
    destruct c as [|o|h|u|l''|d'']; simpl in Hkc; try discriminate;
      try (destruct h as [? | [|] | |[|] ? ?]; discriminate).
    simpl in *. injection H1 as H1. injection H2 as H2. f_equal.
    eapply str_le_trans; eassumption.
  - rewrite (py_lt_numbers _ _ Hkb Hka) in H1. injection H1 as H1.
    rewrite (py_lt_numbers _ _ Hkc Hkb) in H2. injection H2 as H2.
    rewrite (py_lt_numbers _ _ Hkc Hka). f_equal.
    eapply number_le_trans; [|eassumption..].
    apply number_of_not_nan, Hkb.
Qed.

Lemma insert_sorted_spec x l r :
  classed (fst x) -> keys_classed l ->
  key_sorted l ->
  insert_sorted x l = Ok r ->
  Permutation (x :: l) r /\ key_sorted r.
Proof.
  intros Hcx. revert r. induction l as [|y l IH]; intros r Hcl Hs; simpl.
  - intros [= <-]. split; [reflexivity|]. repeat constructor.
  - apply Forall_cons in Hcl as [Hcy Hcl].
    destruct (py_lt (fst y) (fst x)) as [[|]|] eqn:Hlt; simpl; try discriminate.
    + destruct (insert_sorted x l) as [r'|] eqn:Hins; simpl; [|discriminate].
      intros [= <-].
      apply StronglySorted_inv in Hs as [Hs Hy].
      destruct (IH r' Hcl Hs eq_refl) as [Hperm Hsorted].
      split.
      * rewrite perm_swap. constructor. exact Hperm.
      * constructor; [exact Hsorted|].
        rewrite <- Hperm. constructor; [|exact Hy].
        apply py_lt_asym; assumption.
    + intros [= <-]. split; [reflexivity|].
      constructor; [exact Hs|].
      constructor; [exact Hlt|].
      apply StronglySorted_inv in Hs as [_ Hy].
      rewrite List.Forall_forall in Hy. rewrite Forall_forall in Hcl.
      apply List.Forall_forall. intros z Hz.
      eapply (py_le_trans (fst x) (fst y) (fst z)).
      * exact Hcx.
      * exact Hcy.
      * apply Hcl. apply list_elem_of_In, Hz.
      * exact Hlt.
      * apply Hy, Hz.
Qed.

Lemma insert_sorted_perm x l r : insert_sorted x l = Ok r -> Permutation (x :: l) r.
Proof.
  revert r. induction l as [|y l IH]; intros r; simpl.
  - intros [= <-]. reflexivity.
  - destruct (py_lt (fst y) (fst x)) as [[|]|]; simpl; try discriminate.
    + destruct (insert_sorted x l) as [r'|]; simpl; [|discriminate].
      intros [= <-]. rewrite perm_swap. constructor. apply IH. reflexivity.
    + intros [= <-]. reflexivity.
Qed.

Lemma insertion_sort_perm d : forall r, insertion_sort d = Ok r -> Permutation d r.
Proof.
  induction d as [|x d IH]; intros r; simpl.
  - intros [= <-]. reflexivity.
  - destruct (insertion_sort d) as [r'|]; simpl; [|discriminate].
    intros Hins. apply insert_sorted_perm in Hins. rewrite <- Hins.
    constructor. apply IH. reflexivity.
Qed.

Lemma insertion_sort_spec d :
  keys_classed d ->
  forall r, insertion_sort d = Ok r -> key_sorted r.
Proof.
  induction 1 as [|x d Hx Hd IH]; intros r; simpl.
  - intros [= <-]. constructor.
  - destruct (insertion_sort d) as [r'|] eqn:Hr'; simpl; [|discriminate].
    intros Hins.
    apply insert_sorted_spec in Hins as [_ Hs]; try assumption.
    + rewrite <- (insertion_sort_perm d r' Hr'). exact Hd.
    + apply IH. reflexivity.
Qed.

Lemma keys_classed_forallb d :
  forallb (fun x : pyval * item => bool_decide (is_Some (key_class (fst x)))) d = true
  <-> keys_classed d.
Proof.
  rewrite forallb_forall, List.Forall_forall. split; intros H x Hx.
  - eapply bool_decide_eq_true_1. apply H, Hx.
  - apply bool_decide_eq_true_2. apply H, Hx.
Qed.

Lemma sort_decorated_classed rt d :
  keys_classed d -> sort_decorated rt d = insertion_sort d.
Proof.
  intros H. unfold sort_decorated.
  rewrite (proj2 (keys_classed_forallb d) H). reflexivity.
Qed.

(** Whatever the keys, [sorted] rearranges; keys that [<] orders come out
    in ascending order. *)
Lemma sort_decorated_spec rt d :
  forall r,
  sort_decorated rt d = Ok r ->
  Permutation d r /\ (keys_classed d -> key_sorted r).
Proof.
  intros r. unfold sort_decorated.
  destruct (forallb _ d) eqn:Hc.
  - intros Hs. split; [eapply insertion_sort_perm, Hs|].
    intros Hcl. eapply insertion_sort_spec; eassumption.
  - intros Hs. split; [eapply sorted_unordered_perm, Hs|].
    intros Hcl. apply keys_classed_forallb in Hcl. congruence.
Qed.

Lemma decorate_spec l :
  forall d,
  decorate l = Ok d ->
  map snd d = l /\ Forall (fun x => sort_key (snd x) = Ok (fst x)) d.
Proof.
  induction l as [|it l IH]; intros d; simpl.
  - intros [= <-]. split; [reflexivity | constructor].
  - destruct (sort_key it) as [k|] eqn:Hk; simpl; [|discriminate].
    destruct (decorate l) as [d'|]; simpl; [|discriminate].
    destruct (IH d' eq_refl) as [Hmap Hkeys].
    intros [= <-]. simpl. split; [f_equal; exact Hmap|].
    constructor; [exact Hk | exact Hkeys].
Qed.

Lemma StronglySorted_decorated r :
  Forall (fun x => sort_key (snd x) = Ok (fst x)) r ->
  key_sorted r ->
  StronglySorted item_le (map snd r).
Proof.
  intros Hk Hs. induction Hs as [|x r Hs IH Hx]; simpl; [constructor|].
  apply Forall_cons in Hk as [Hkx Hkr].
  constructor; [apply IH, Hkr|].
  apply Forall_map. apply Forall_forall. intros y Hy. simpl.
  exists (fst x), (fst y). split_and!.
  - exact Hkx.
  - eapply Forall_forall in Hkr; [exact Hkr | exact Hy].
  - eapply Forall_forall in Hx; [exact Hx | exact Hy].
Qed.

(** [sorted] returns the elements of the payload rearranged, in ascending
    order of their keys when [<] orders them. *)
Lemma sorted_by_CourseNo_spec rt data l :
  sorted_by_CourseNo rt data = Ok l ->
  exists items,
    iterate data = Ok items
    /\ Permutation items l
    /\ (items_classed items -> StronglySorted item_le l).
Proof.
  unfold sorted_by_CourseNo.
  destruct (iterate data) as [items|]; simpl; [|discriminate].
  destruct (decorate items) as [d|] eqn:Hd; simpl; [|discriminate].
  destruct (sort_decorated rt d) as [r|] eqn:Hr; simpl; [|discriminate].
  intros [= <-].
  apply decorate_spec in Hd as [Hmap Hkeys].
  apply sort_decorated_spec in Hr as [Hperm Hsorted].
  exists items. split_and!.
  - reflexivity.
  - rewrite <- Hmap. apply Permutation_map, Hperm.
  - intros Hcl. apply StronglySorted_decorated; [rewrite <- Hperm; exact Hkeys|].
    apply Hsorted. subst items.
    clear -Hkeys Hcl. induction Hkeys as [|x d Hx _ IH]; [constructor|].
    simpl in Hcl. apply Forall_cons in Hcl as [(k & Hk & Hck) Hcl].
    constructor; [|apply IH, Hcl]. congruence.
Qed.

Lemma insert_sorted_raises x l e :
  insert_sorted x l = Raise e -> e = TypeError.
Proof.
  assert (Hlt : forall a b e', py_lt a b = Raise e' -> e' = TypeError).
  { fix IH 1. intros a b e'.
    destruct a as [|m|f|s|la|d], b as [|n|g|t|lb|d']; simpl;
      try discriminate; try (intros [= <-]; reflexivity).
    revert lb. induction la as [|xa la IHl]; intros [|xb lb]; try discriminate.
    destruct (_ || _); [apply IHl | apply IH]. }
  revert e. induction l as [|y l IH]; intros e; simpl; [discriminate|].
  destruct (py_lt (fst y) (fst x)) as [[|]|e'] eqn:Hc; simpl.
  - destruct (insert_sorted x l); simpl; [discriminate|].
    intros [= <-]. apply IH. reflexivity.
  - discriminate.
  - intros [= <-]. eapply Hlt, Hc.
Qed.

Lemma insertion_sort_raises d e :
  insertion_sort d = Raise e -> e = TypeError.
Proof.
  revert e. induction d as [|x d IH]; intros e; simpl; [discriminate|].
  destruct (insertion_sort d); simpl.
  - apply insert_sorted_raises.
  - intros [= <-]. apply IH. reflexivity.
Qed.

Lemma sort_decorated_raises rt d e :
  sort_decorated rt d = Raise e -> e = TypeError.
Proof.
  unfold sort_decorated. destruct (forallb _ d).
  - apply insertion_sort_raises.
  - apply sorted_unordered_raises.
Qed.

(** What [sorted] raises: the [TypeError] of a payload that is not
    iterable or of a comparison, the [AttributeError] of an element that is
    not an object. *)
Lemma sorted_by_CourseNo_Raise rt data e :
  sorted_by_CourseNo rt data = Raise e -> e = TypeError \/ e = AttributeError.
Proof.
  assert (Hdec : forall l e, decorate l = Raise e -> e = AttributeError).
  { induction l as [|it l IH]; intros e'; simpl; [discriminate|].
    destruct it as [c|]; simpl; [|intros [= <-]; reflexivity].
    destruct (decorate l); simpl; [discriminate|].
    intros [= <-]. apply IH. reflexivity. }
  unfold sorted_by_CourseNo.
  destruct (iterate data) as [items|e'] eqn:Hit; simpl.
  - destruct (decorate items) as [d|] eqn:Hd; simpl;
      [|intros [= <-]; right; eapply Hdec, Hd].
    destruct (sort_decorated rt d) eqn:Hs; simpl; [discriminate|].
    intros [= <-]. left. eapply sort_decorated_raises, Hs.
  - intros [= <-]. left.
    destruct data as [| |[| | | | |]]; simpl in Hit; try discriminate;
      injection Hit as <-; reflexivity.
Qed.

Example sorted_mixed_keys :
  sorted_by_CourseNo sample_runtime
    (JArray [Obj (mk_course (PStr (lit "A")) PNone PNone PNone PNone);
             Obj (mk_course (PNum (NInt 7)) PNone PNone PNone PNone)])
  = Raise TypeError.
Proof. reflexivity. Qed.

Example sorted_error_object :
  sorted_by_CourseNo sample_runtime (JObject [lit "error"]) = Raise AttributeError.
Proof. reflexivity. Qed.

(** ** The loop of main *)

Section MainLoop.

Variable rt : runtime.

Lemma state_eta st :
  st = mk_state (first_run st) (prev_state st) (stdout st) (faults st).
Proof. destruct st. reflexivity. Qed.

Lemma store_key c k st :
  record_key c = Ok k ->
  store c st = mk_state (first_run st) (<[k := entry_of c]> (prev_state st))
                 (stdout st) (faults st).
Proof. intros H. unfold store, retain_one. rewrite H. reflexivity. Qed.

(** The body of the [for] loop on a record, case by case. *)
Lemma loop_body_Obj c to_print st :
  loop_body rt (Obj c) to_print st =
  match parse_int_or_none (ChooseStudent c) with
  | Raise e => (Raise e, st)
  | Ok cv =>
      match record_key c with
      | Raise e => (Raise e, st)
      | Ok k =>
          match prev_state st !! k with
          | Some p =>
              if negb (first_run st) && py_ne (ChooseStudent c) (choose_raw p) then
                match parse_int_or_none (choose_raw p) with
                | Raise e => (Raise e, st)
                | Ok pv => (Ok (to_print ++ [render rt c p]), store c st)
                end
              else (Ok to_print, store c st)
          | None => (Ok to_print, store c st)
          end
      end
  end.
Proof.
  unfold loop_body, mbind, M_bind, mret, M_ret, lift, prev_state_get,
    get_first_run, prev_state_set, changed_of, store, retain_one, record_key,
    render, parsed.
  destruct (parse_int_or_none (ChooseStudent c)) as [cv|e]; [|reflexivity].
  destruct (key_of (course_no_of c)) as [k|e]; [|reflexivity].
  destruct (prev_state st !! k) as [p|].
  - destruct (negb (first_run st) && py_ne (ChooseStudent c) (choose_raw p)).
    + destruct (parse_int_or_none (choose_raw p)); reflexivity.
    + reflexivity.
  - rewrite andb_false_r. reflexivity.
Qed.

(** The delta of a record is one line, when a delta is due, or none. *)
Lemma delta_of_cases c st :
  (delta_due c st
   /\ exists k p, record_key c = Ok k /\ prev_state st !! k = Some p
                  /\ delta_of rt c (prev_state st) (first_run st) = [render rt c p])
  \/ (~ delta_due c st /\ delta_of rt c (prev_state st) (first_run st) = []).
Proof.
  unfold delta_due, delta_of, prior_of.
  destruct (record_key c) as [k|e] eqn:Hk.
  - destruct (prev_state st !! k) as [p|] eqn:Hp.
    + destruct (first_run st); simpl.
      * right. split; [|reflexivity]. intros [? _]. discriminate.
      * destruct (py_ne (ChooseStudent c) (choose_raw p)) eqn:Hne.
        -- left. split; [|eauto]. split; [reflexivity|]. eauto.
        -- right. split; [|reflexivity].
           intros (_ & k' & q & [= <-] & Hq & Hne'). congruence.
    + right. split; [|reflexivity].
      intros (_ & k' & q & [= <-] & Hq & _). congruence.
  - right. split; [|reflexivity].
    intros (_ & k' & q & Hk' & _). discriminate.
Qed.

(** A completed body has stored the record under its key, and has appended
    the delta of the record, if one is due. *)
Lemma loop_body_Ok c to_print st to_print' st' :
  loop_body rt (Obj c) to_print st = (Ok to_print', st') ->
  st' = store c st
  /\ (exists k, record_key c = Ok k)
  /\ to_print' = to_print ++ delta_of rt c (prev_state st) (first_run st).
Proof.
  rewrite loop_body_Obj. unfold delta_of, prior_of.
  destruct (parse_int_or_none (ChooseStudent c)) as [cv|e]; [|discriminate].
  destruct (record_key c) as [k|e]; [|discriminate].
  destruct (prev_state st !! k) as [p|].
  - destruct (negb (first_run st) && py_ne (ChooseStudent c) (choose_raw p)).
    + destruct (parse_int_or_none (choose_raw p)) as [pv|e]; [|discriminate].
      intros [= <- <-]. eauto.
    + intros [= <- <-]. rewrite app_nil_r. eauto.
  - intros [= <- <-]. rewrite app_nil_r. eauto.
Qed.

Lemma app_one_ne {A} (l : list A) x : l ++ [x] <> l.
Proof.
  intros H. apply (f_equal length) in H. rewrite length_app in H.
  simpl in H. lia.
Qed.

Lemma loop_body_delta c to_print st to_print' st' :
  loop_body rt (Obj c) to_print st = (Ok to_print', st') ->
  ((exists line, to_print' = to_print ++ [line]) <-> delta_due c st)
  /\ (to_print' = to_print <-> ~ delta_due c st).
Proof.
  intros Hb. apply loop_body_Ok in Hb as (_ & _ & ->).
  destruct (delta_of_cases c st) as [(Hd & k & p & _ & _ & ->)|(Hd & ->)].
  - split; split; try tauto; eauto.
    intros H. destruct (app_one_ne _ _ H).
  - rewrite app_nil_r. split; split; try tauto.
    intros [line H]. destruct (app_one_ne _ _ (eq_sym H)).
Qed.

(** What the body raises: the [AttributeError] of an element that is not
    an object, the [ValueError] of a count that [int] refuses, the
    [TypeError] of a key that cannot be hashed. It raises before it stores. *)
Lemma parse_int_or_none_Raise v e : parse_int_or_none v = Raise e -> e = ValueError.
Proof.
  destruct v as [|n|f|s|l|d]; simpl; try discriminate.
  destruct (isdigit s); [|discriminate].
  unfold int_of_str. destruct (_ <? _)%nat; simpl.
  - intros [= <-]. reflexivity.
  - destruct (decimal_fold 0 s); simpl; [discriminate|].
    intros [= <-]. reflexivity.
Qed.

Lemma key_of_Raise v e : key_of v = Raise e -> e = TypeError.
Proof.
  destruct v as [|n|f|s|l|d]; simpl; try discriminate;
    try (intros [= <-]; reflexivity).
Qed.

Lemma loop_body_Raise it to_print st e st' :
  loop_body rt it to_print st = (Raise e, st') ->
  st' = st /\ (e = AttributeError \/ e = ValueError \/ e = TypeError).
Proof.
  destruct it as [c|]; [|intros [= <- <-]; auto].
  rewrite loop_body_Obj.
  destruct (parse_int_or_none (ChooseStudent c)) eqn:Hp1;
    [|intros [= <- <-]; apply parse_int_or_none_Raise in Hp1; auto].
  destruct (record_key c) as [k|] eqn:Hk;
    [|intros [= <- <-]; apply key_of_Raise in Hk; auto].
  destruct (prev_state st !! k) as [p|]; [|discriminate].
  destruct (_ && _); [|discriminate].
  destruct (parse_int_or_none (choose_raw p)) eqn:Hp2; [discriminate|].
  intros [= <- <-]. apply parse_int_or_none_Raise in Hp2. auto.
Qed.

Lemma for_each_cons {A B} (x : A) l (body : A -> B -> M B) acc st :
  for_each (x :: l) body acc st
  = match body x acc st with
    | (Ok acc', st') => for_each l body acc' st'
    | (Raise e, st') => (Raise e, st')
    end.
Proof. reflexivity. Qed.



Lemma retain_snoc cs c m : retain (cs ++ [c]) m = retain_one c (retain cs m).
Proof. unfold retain. rewrite fold_left_app. reflexivity. Qed.

Lemma retain_app cs cs' m : retain (cs ++ cs') m = retain cs' (retain cs m).
Proof. unfold retain. apply fold_left_app. Qed.

(** A completed loop went through records only, each with a key; it is the
    diff of the specification on them: it has appended their deltas, in
    order, and stored each of them in turn; it has not written to the
    terminal. *)
Lemma for_each_Ok l :
  forall to_print st to_print' st',
  for_each l (loop_body rt) to_print st = (Ok to_print', st') ->
  exists cs : list course,
    l = map Obj cs
    /\ Forall (fun c => exists k, record_key c = Ok k) cs
    /\ to_print' = to_print ++ fst (diff rt cs (prev_state st) (first_run st))
    /\ st' = mk_state (first_run st) (retain cs (prev_state st)) (stdout st)
               (faults st).
Proof.
  induction l as [|it l IH]; intros to_print st to_print' st'.
  - intros [= <- <-]. exists []. simpl. rewrite app_nil_r.
    split_and!; try reflexivity; [constructor | apply state_eta].
  - rewrite for_each_cons.
    destruct (loop_body rt it to_print st) as [[tp1|e] st1] eqn:Hb;
      [|discriminate].
    intros Hl. apply IH in Hl as (cs & -> & Hkeys & -> & ->).
    destruct it as [c|]; [|discriminate].
    apply loop_body_Ok in Hb as (-> & Hk & ->).
    exists (c :: cs). simpl. split_and!.
    + reflexivity.
    + constructor; assumption.
    + rewrite <- app_assoc. reflexivity.
    + reflexivity.
Qed.

(** A loop that raises has gone through the records before the element
    that made it raise, and has stored them: what it has done is not
    undone. It has not written to the terminal. *)
Lemma for_each_Raise l :
  forall to_print st e st',
  for_each l (loop_body rt) to_print st = (Raise e, st') ->
  exists (cs : list course) it rest,
    l = map Obj cs ++ it :: rest
    /\ st' = mk_state (first_run st) (retain cs (prev_state st)) (stdout st)
               (faults st)
    /\ loop_body rt it
         (to_print ++ fst (diff rt cs (prev_state st) (first_run st))) st'
       = (Raise e, st')
    /\ (e = AttributeError \/ e = ValueError \/ e = TypeError).
Proof.
  induction l as [|it l IH]; intros to_print st e st'; [discriminate|].
  rewrite for_each_cons.
  destruct (loop_body rt it to_print st) as [[tp1|e1] st1] eqn:Hb.
  - intros Hl. apply IH in Hl as (cs & it' & rest & -> & -> & Hraise & He).
    destruct it as [c|]; [|discriminate].
    apply loop_body_Ok in Hb as (-> & Hk & ->).
    exists (c :: cs), it', rest. simpl in *. split_and!.
    + reflexivity.
    + reflexivity.
    + rewrite <- app_assoc in Hraise. exact Hraise.
    + exact He.
  - intros [= <- <-]. pose proof Hb as Hb'.
    apply loop_body_Raise in Hb' as [-> He].
    exists [], it, l. simpl. rewrite app_nil_r, <- state_eta.
    split_and!; try reflexivity; assumption.
Qed.




(** The key of a record of the list maps to the values of a record of the
    list with that key. *)
Lemma retain_present cs m c k :
  c ∈ cs -> record_key c = Ok k ->
  exists c', c' ∈ cs /\ record_key c' = Ok k
             /\ retain cs m !! k = Some (entry_of c').
Proof.
  induction cs as [|x cs IH] using rev_ind; intros Hc Hk.
  - apply elem_of_nil in Hc. destruct Hc.
  - rewrite retain_snoc. unfold retain_one.
    destruct (record_key x) as [k'|] eqn:Hx.
    + destruct (decide (k' = k)) as [->|Hne].
      * exists x. split_and!.
        -- apply elem_of_app. right. apply list_elem_of_singleton. reflexivity.
        -- exact Hx.
        -- apply lookup_insert_eq.
      * apply elem_of_app in Hc as [Hc|Hc].
        -- destruct (IH Hc Hk) as (c' & Hc' & Hkey & Hlook).
           exists c'. split_and!; [apply elem_of_app; auto | exact Hkey |].
           rewrite lookup_insert_ne by exact Hne. exact Hlook.
        -- apply list_elem_of_singleton in Hc. subst x. congruence.
    + apply elem_of_app in Hc as [Hc|Hc].
      * destruct (IH Hc Hk) as (c' & Hc' & Hkey & Hlook).
        exists c'. split_and!; [apply elem_of_app; auto | exact Hkey | exact Hlook].
      * apply list_elem_of_singleton in Hc. subst x. congruence.
Qed.

(** *** Calls on the terminal *)

Lemma In_drop {A} n : forall (l : list A) x, In x (drop n l) -> In x l.
Proof.
  induction n as [|n IH]; intros [|y l] x; simpl; auto.
Qed.

Lemma call_spec ev st r st' :
  call ev st = (r, st') ->
  first_run st' = first_run st
  /\ prev_state st' = prev_state st
  /\ (exists n, faults st' = drop n (faults st))
  /\ match r with
     | Ok _ => stdout st' = stdout st ++ [ev]
     | Raise e => stdout st' = stdout st /\ In (Some e) (faults st)
     end
  /\ (faults st = [] -> faults st' = [] /\ r = Ok ()).
Proof.
  unfold call. destruct (faults st) as [|[e|] rest] eqn:Hf; intros [= <- <-]; simpl.
  - split_and!; try reflexivity; try (exists O; reflexivity). auto.
  - split_and!; try reflexivity; try (exists 1%nat; reflexivity);
      [left; reflexivity | discriminate].
  - split_and!; try reflexivity; try (exists 1%nat; reflexivity). discriminate.
Qed.

Lemma emit_cons ev evs st :
  emit (ev :: evs) st
  = match call ev st with
    | (Ok _, st') => emit evs st'
    | (Raise e, st') => (Raise e, st')
    end.
Proof. reflexivity. Qed.

(** Calls in a row: what has been written is a prefix of what was to be
    written, all of it when no call raises; what is raised is what the
    outside world raises. *)
Lemma emit_spec evs :
  forall st r st',
  emit evs st = (r, st') ->
  first_run st' = first_run st
  /\ prev_state st' = prev_state st
  /\ (exists n, faults st' = drop n (faults st))
  /\ match r with
     | Ok _ => stdout st' = stdout st ++ evs
     | Raise e => (exists done rest, evs = done ++ rest /\ rest <> []
                                     /\ stdout st' = stdout st ++ done)
                  /\ In (Some e) (faults st)
     end
  /\ (faults st = [] -> faults st' = [] /\ r = Ok ()).
Proof.
  induction evs as [|ev evs IH]; intros st r st'.
  - intros [= <- <-]. rewrite app_nil_r.
    split_and!; try reflexivity; try (exists O; reflexivity). auto.
  - rewrite emit_cons.
    destruct (call ev st) as [[u|e] st1] eqn:Hc.
    + apply call_spec in Hc as (Hfr & Hprev & [n Hn] & Hout & Hq).
      intros He. apply IH in He as (Hfr' & Hprev' & [n' Hn'] & Hout' & Hq').
      split_and!.
      * congruence.
      * congruence.
      * exists (n + n')%nat. rewrite Hn', Hn, drop_drop. reflexivity.
      * destruct r as [u'|e].
        -- rewrite Hout', Hout, <- app_assoc. reflexivity.
        -- destruct Hout' as [(done & rest & -> & Hrest & Hout') Hin]. split.
           ++ exists (ev :: done), rest. split_and!; try assumption; try reflexivity.
              rewrite Hout', Hout, <- app_assoc. reflexivity.
           ++ rewrite Hn in Hin. eapply In_drop, Hin.
      * intros Hf. destruct (Hq Hf) as [Hf1 _]. apply Hq', Hf1.
    + intros [= <- <-].
      apply call_spec in Hc as (Hfr & Hprev & Hn & [Hout Hin] & Hq).
      split; [exact Hfr|]. split; [exact Hprev|]. split; [exact Hn|]. split.
      * split; [|exact Hin]. exists [], (ev :: evs). rewrite app_nil_r.
        split_and!; try reflexivity; [discriminate | exact Hout].
      * intros Hf. destruct (Hq Hf) as [_ ?]. discriminate.
Qed.

Lemma emit_quiet evs st :
  faults st = [] ->
  emit evs st = (Ok (), mk_state (first_run st) (prev_state st) (stdout st ++ evs) []).
Proof.
  intros Hf. destruct (emit evs st) as [r st'] eqn:He.
  apply emit_spec in He as (Hfr & Hprev & _ & Hout & Hq).
  destruct (Hq Hf) as [Hf' ->]. rewrite (state_eta st'). congruence.
Qed.

(** *** The body of try *)

Lemma try_body_unfold fetched lines st :
  try_body rt fetched lines st =
  match fetched with
  | Raise e => (Raise e, st)
  | Ok data =>
      match sorted_by_CourseNo rt data with
      | Raise e => (Raise e, st)
      | Ok l =>
          match for_each l (loop_body rt) [] st with
          | (Raise e, st1) => (Raise e, st1)
          | (Ok to_print, st1) =>
              if first_run st1 then
                match emit (enable_sticky_title lines TITLE) st1 with
                | (Ok _, st2) =>
                    call (Sleep INTERVAL_SECONDS)
                      (mk_state false (prev_state st2) (stdout st2) (faults st2))
                | (Raise e, st2) => (Raise e, st2)
                end
              else
                match emit (concat (map (fun line => type_out (line ++ [LF]))
                                      to_print)) st1 with
                | (Ok _, st2) => call (Sleep INTERVAL_SECONDS) st2
                | (Raise e, st2) => (Raise e, st2)
                end
          end
      end
  end.
Proof.
  unfold try_body, mbind, M_bind, lift, get_first_run, set_first_run.
  destruct fetched as [data|e]; [|reflexivity].
  destruct (sorted_by_CourseNo rt data) as [l|e]; [|reflexivity].
  destruct (for_each l (loop_body rt) [] st) as [[to_print|e] st1]; [|reflexivity].
  destruct (first_run st1).
  - destruct (emit (enable_sticky_title lines TITLE) st1) as [[u|e] st2]; reflexivity.
  - destruct (emit _ st1) as [[u|e] st2]; reflexivity.
Qed.

(** A cycle that completes: the payload was fetched and sorted, the loop
    went through it as the diff of the specification, and then the header
    was set up (baseline) or the deltas were typed, before the sleep. *)
Lemma try_body_Ok fetched lines st u st' :
  try_body rt fetched lines st = (Ok u, st') ->
  exists data (cs : list course),
    fetched = Ok data
    /\ sorted_by_CourseNo rt data = Ok (map Obj cs)
    /\ Forall (fun c => exists k, record_key c = Ok k) cs
    /\ first_run st' = false
    /\ prev_state st' = retain cs (prev_state st)
    /\ stdout st'
       = stdout st
           ++ cycle_output (first_run st) lines
                (fst (diff rt cs (prev_state st) (first_run st)))
    /\ (exists n, faults st' = drop n (faults st))
    /\ (faults st = [] -> faults st' = []).
Proof.
  rewrite try_body_unfold. unfold cycle_output.
  destruct fetched as [data|e]; [|discriminate].
  destruct (sorted_by_CourseNo rt data) as [l|e] eqn:Hsort; [|discriminate].
  destruct (for_each l (loop_body rt) [] st) as [[to_print|e] st1] eqn:Hloop;
    [|discriminate].
  apply for_each_Ok in Hloop as (cs & -> & Hkeys & -> & ->).
  cbn [first_run prev_state stdout faults app].
  destruct (first_run st) eqn:Hfirst; cbv iota.
  - destruct (emit _ _) as [[u1|e] st2] eqn:He; [|discriminate].
    apply emit_spec in He as (Hfr & Hprev & [n Hn] & Hout & Hq). simpl in *.
    intros Hc. apply call_spec in Hc as (Hfr' & Hprev' & [n' Hn'] & Hout' & Hq').
    simpl in *. exists data, cs. split_and!; try assumption; try reflexivity.
    + congruence.
    + rewrite Hout', Hout, <- app_assoc. reflexivity.
    + exists (n + n')%nat. rewrite Hn', Hn, drop_drop. reflexivity.
    + intros Hf. apply Hq', Hq, Hf.
  - destruct (emit _ _) as [[u1|e] st2] eqn:He; [|discriminate].
    apply emit_spec in He as (Hfr & Hprev & [n Hn] & Hout & Hq). simpl in *.
    intros Hc. apply call_spec in Hc as (Hfr' & Hprev' & [n' Hn'] & Hout' & Hq').
    exists data, cs. split_and!; try assumption; try reflexivity.
    + congruence.
    + congruence.
    + rewrite Hout', Hout, <- app_assoc. reflexivity.
    + exists (n + n')%nat. rewrite Hn', Hn, drop_drop. reflexivity.
    + intros Hf. apply Hq', Hq, Hf.
Qed.

(** A cycle that raises. What it has stored and written stays: the
    retained state holds the records that the loop went through before the
    exception, a prefix of the sorted snapshot, and the terminal has got a
    prefix of the output of the cycle. The exception is that of the fetch,
    one of the three [Exception]s of the processing, or what the outside
    world raises in a call on the terminal. *)
Lemma try_body_Raise fetched lines st e st' :
  try_body rt fetched lines st = (Raise e, st') ->
  (exists cs : list course,
     prev_state st' = retain cs (prev_state st)
     /\ forall data l, fetched = Ok data -> sorted_by_CourseNo rt data = Ok l ->
                       map Obj cs `prefix_of` l)
  /\ (exists done, stdout st' = stdout st ++ done)
  /\ (exists n, faults st' = drop n (faults st))
  /\ (fetched = Raise e /\ st' = st
      \/ (exists data, fetched = Ok data)
         /\ (e = AttributeError \/ e = ValueError \/ e = TypeError)
         /\ first_run st' = first_run st /\ stdout st' = stdout st
         /\ faults st' = faults st
      \/ (exists data, fetched = Ok data) /\ In (Some e) (faults st)).
Proof.
  rewrite try_body_unfold.
  assert (Hnil : exists cs : list course,
             prev_state st = retain cs (prev_state st)
             /\ forall data l, fetched = Ok data ->
                  sorted_by_CourseNo rt data = Ok l -> map Obj cs `prefix_of` l).
  { exists []. split; [reflexivity|]. intros data l _ _. apply prefix_nil. }
  assert (Hdone : exists done : list event, stdout st = stdout st ++ done).
  { exists []. rewrite app_nil_r. reflexivity. }
  assert (Hdrop : exists n, faults st = drop n (faults st)).
  { exists O. reflexivity. }
  destruct fetched as [data|e0]; [|intros [= <- <-]; split_and!; auto].
  destruct (sorted_by_CourseNo rt data) as [l|e1] eqn:Hsort.
  2:{ intros [= <- <-]. split_and!; auto. right. left.
      apply sorted_by_CourseNo_Raise in Hsort. split_and!; eauto.
      destruct Hsort; auto. }
  destruct (for_each l (loop_body rt) [] st) as [[to_print|e2] st1] eqn:Hloop.
  2:{ intros [= <- <-].
      apply for_each_Raise in Hloop as (cs & it & rest & -> & -> & _ & He).
      simpl. split_and!; auto.
      - exists cs. split; [reflexivity|]. intros data' l' [= <-] Hs.
        rewrite Hsort in Hs. injection Hs as <-. eexists. reflexivity.
      - right. left. split_and!; eauto. }
  apply for_each_Ok in Hloop as (cs & -> & Hkeys & -> & ->).
  cbn [first_run prev_state stdout faults app].
  assert (Hcs : exists cs' : list course,
            retain cs (prev_state st) = retain cs' (prev_state st)
            /\ forall data' l, Ok data = Ok data' ->
                 sorted_by_CourseNo rt data' = Ok l -> map Obj cs' `prefix_of` l).
  { exists cs. split; [reflexivity|]. intros data' l' [= <-] Hs.
    rewrite Hsort in Hs. injection Hs as <-. exists []. rewrite app_nil_r.
    reflexivity. }
  destruct (first_run st) eqn:Hfirst; cbv iota.
  - destruct (emit _ _) as [[u1|e3] st2] eqn:He.
    + apply emit_spec in He as (Hfr & Hprev & [n Hn] & Hout & Hq). simpl in *.
      intros Hc. apply call_spec in Hc as (Hfr' & Hprev' & [n' Hn'] & [Hout' Hin] & Hq').
      simpl in *. split_and!.
      * rewrite Hprev', Hprev. exact Hcs.
      * rewrite Hout', Hout. eauto.
      * exists (n + n')%nat. rewrite Hn', Hn, drop_drop. reflexivity.
      * right. right. split; [eauto|].
        rewrite Hn in Hin. eapply In_drop, Hin.
    + intros [= <- <-].
      apply emit_spec in He as (Hfr & Hprev & Hn & [(done & rest & _ & _ & Hout) Hin] & Hq).
      simpl in *. split_and!.
      * rewrite Hprev. exact Hcs.
      * eauto.
      * exact Hn.
      * right. right. eauto.
  - destruct (emit _ _) as [[u1|e3] st2] eqn:He.
    + apply emit_spec in He as (Hfr & Hprev & [n Hn] & Hout & Hq). simpl in *.
      intros Hc. apply call_spec in Hc as (Hfr' & Hprev' & [n' Hn'] & [Hout' Hin] & Hq').
      split_and!.
      * rewrite Hprev', Hprev. exact Hcs.
      * rewrite Hout', Hout. eauto.
      * exists (n + n')%nat. rewrite Hn', Hn, drop_drop. reflexivity.
      * right. right. split; [eauto|].
        rewrite Hn in Hin. eapply In_drop, Hin.
    + intros [= <- <-].
      apply emit_spec in He as (Hfr & Hprev & Hn & [(done & rest & _ & _ & Hout) Hin] & Hq).
      simpl in *. split_and!.
      * rewrite Hprev. exact Hcs.
      * eauto.
      * exact Hn.
      * right. right. eauto.
Qed.

(** When no call on the terminal is disturbed, a cycle that raises has
    written nothing, and what it raises is an [Exception] unless the fetch
    raised it. *)
Lemma try_body_Raise_quiet fetched lines st e st' :
  try_body rt fetched lines st = (Raise e, st') ->
  faults st = [] ->
  first_run st' = first_run st /\ stdout st' = stdout st /\ faults st' = []
  /\ (forall data, fetched = Ok data -> is_Exception e = true).
Proof.
  intros Ht Hf.
  apply try_body_Raise in Ht
    as (_ & _ & _ & [[-> ->]|[(_ & He & Hfr & Hout & Hfs)|[_ Hin]]]).
  - split_and!; auto. discriminate.
  - split_and!; try congruence. intros _ _.
    destruct He as [->|[->| ->]]; reflexivity.
  - rewrite Hf in Hin. destruct Hin.
Qed.





Lemma iteration_prev_state fetched lines st :
  prev_state (snd (iteration rt fetched lines st))
  = prev_state (snd (try_body rt fetched lines st)).
Proof.
  unfold iteration.
  destruct (try_body rt fetched lines st) as [[u|e] st']; [reflexivity|].
  destruct e; simpl; try reflexivity;
    destruct (call _ st') as [[u|e'] st''] eqn:Hc;
    apply call_spec in Hc as (_ & Hprev & _); exact Hprev.
Qed.


(** C3 (amended): a record without a key (the field is absent, [null],
    empty, [0] or [False]) is not skipped. The loop files it under the key
    ["-"]: it handles it exactly as it handles the same record with
    [CourseNo = "-"], so the record is stored in the retained state under
    ["-"] and gets a line when the condition for a delta holds for that key;
    and the loop goes on with the records that follow. *)
Theorem missing_key_filed_under_dash c :
  truthy (CourseNo c) = false ->
  forall to_print st,
    let c' := mk_course (PStr (lit "-")) (CourseName c) (ChooseStudent c)
                (Restrict2 c) (ClassRoomNo c) in
    record_key c = Ok (KStr (lit "-"))
    /\ loop_body rt (Obj c) to_print st = loop_body rt (Obj c') to_print st
    /\ (forall to_print' st',
          loop_body rt (Obj c) to_print st = (Ok to_print', st') ->
          prev_state st' = <[KStr (lit "-") := entry_of c]> (prev_state st)
          /\ ((exists line, to_print' = to_print ++ [line])
              <-> first_run st = false
                  /\ exists p, prev_state st !! KStr (lit "-") = Some p
                               /\ py_ne (ChooseStudent c) (choose_raw p) = true)
          /\ forall rest,
               for_each (Obj c :: rest) (loop_body rt) to_print st
               = for_each rest (loop_body rt) to_print' st').
Proof.
  intros Hkey to_print st c'.
  assert (Hno : course_no_of c = PStr (lit "-")).
  { unfold course_no_of, py_or. rewrite Hkey. reflexivity. }
  assert (Hk : record_key c = Ok (KStr (lit "-"))).
  { unfold record_key. rewrite Hno. reflexivity. }
  split_and!.
  - exact Hk.
  - rewrite !loop_body_Obj. unfold render, store, retain_one, record_key.
    rewrite Hno. reflexivity.
  - intros to_print' st' Hb.
    destruct (loop_body_delta _ _ _ _ _ Hb) as [Hdelta _].
    pose proof Hb as Hb'. apply loop_body_Ok in Hb' as (-> & _ & _).
    split_and!.
    + rewrite (store_key _ _ _ Hk). reflexivity.
    + rewrite Hdelta. unfold delta_due. rewrite Hk. split.
      * intros (Hfr & k & p & [= <-] & Hp & Hne). eauto.
      * intros (Hfr & p & Hp & Hne). eauto 6.
    + intros rest. rewrite for_each_cons, Hb. reflexivity.
Qed.




End MainLoop.
(** ** The sample rows and runs *)



(** C3, as stated, fails: the record without a key of the first cycle is in
    the retained state after it, under ["-"], and the second cycle types a
    line for the record without a key whose count has changed. *)
Lemma missing_key_not_skipped :
  fst keyless_run = Continue
  /\ prev_state (snd keyless_run) !! KStr (lit "-")
     = Some (entry_of (keyless (PNum (NInt 2))))
  /\ stdout (snd keyless_run)
     = enable_sticky_title 24 TITLE ++ [Sleep INTERVAL_SECONDS]
       ++ type_out
            (build_colored_line sample_runtime (PStr (lit "-"))
               (PStr (lit "Seminar")) (Some (NInt 2)) (PStr (lit "-"))
               (PStr (lit "-")) (Some (NInt 1)) ++ [LF])
       ++ [Sleep INTERVAL_SECONDS].
Proof. split_and!; vm_compute; reflexivity. Qed.

Lemma missing_key_filed_under_dash_witness :
  record_key (keyless (PNum (NInt 2))) = Ok (KStr (lit "-"))
  /\ loop_body sample_runtime (Obj (keyless (PNum (NInt 2)))) []
       (steady [keyless (PNum (NInt 1))])
     = loop_body sample_runtime
         (Obj (mk_course (PStr (lit "-")) (PStr (lit "Seminar"))
                 (PNum (NInt 2)) PNone PNone)) []
         (steady [keyless (PNum (NInt 1))]).
Proof.
  destruct (missing_key_filed_under_dash sample_runtime (keyless (PNum (NInt 2)))
              eq_refl [] (steady [keyless (PNum (NInt 1))])) as (Hk & Hb & _).
  split; [exact Hk | exact Hb].
Defined.

(** C4, as stated, fails: the count went up, but the numeral has 15 digits,
    does not fit in the 16 columns after the sign marker and the space, and
    is not found in the padded column; the whole column is yellow and
    nothing in the row is red. *)
Lemma long_numeral_not_red :
  increased (Some (NInt 123456789012345)) (Some (NInt 1))
  /\ py_find Fore.RED long_numeral_row = None
  /\ long_numeral_row
     = Fore.CYAN
         ++ pad_vis sample_runtime (lit "CS101 | Algorithms") COL1_WIDTH
         ++ Style.RESET_ALL
         ++ Fore.YELLOW ++ lit "+ 12345678901234" ++ Style.RESET_ALL
         ++ Fore.GREEN ++ lit "| IB-201" ++ Style.RESET_ALL.
Proof.
  split_and!.
  - exists (NInt 123456789012345), (NInt 1). split_and!; [reflexivity..|simpl; lia].
  - vm_compute. reflexivity.
  - vm_compute. reflexivity.
Qed.

Lemma build_colored_line_numeral_witness :
  exists (sign : char) (color : pystr),
    sign = 43%N /\ color = Fore.RED
    /\ build_colored_line sample_runtime (PStr (lit "CS101"))
         (PStr (lit "Algorithms")) (Some (NInt 15)) (PStr (lit "60"))
         (PStr (lit "IB-201")) (Some (NInt 10))
       = Fore.CYAN
           ++ pad_vis sample_runtime (lit "CS101 | Algorithms") COL1_WIDTH
           ++ Style.RESET_ALL
           ++ (Fore.YELLOW ++ [sign; SPACE] ++ color ++ lit "15"
                 ++ Fore.YELLOW ++ lit " / 60" ++ repeat SPACE 7
                 ++ Style.RESET_ALL)
           ++ Fore.GREEN ++ lit "| IB-201" ++ Style.RESET_ALL.
Proof.
  destruct (build_colored_line_numeral sample_runtime
              (PStr (lit "CS101")) (PStr (lit "Algorithms")) (PStr (lit "60"))
              (PStr (lit "IB-201")) (Some (NInt 15)) (Some (NInt 10)))
    as (sign & color & Hplus & _ & Hred & _ & _ & Hnum & _).
  assert (Hinc : increased (Some (NInt 15)) (Some (NInt 10))).
  { exists (NInt 15), (NInt 10). split_and!; [reflexivity..|simpl; lia]. }
  apply Hplus in Hinc as Hsign. apply Hred in Hinc as Hcolor. subst sign color.
  exists 43%N, Fore.RED. split_and!; [reflexivity..|].
  assert (Hlen : (length (str_num (NInt 15)) <= 14)%nat) by (vm_compute; lia).
  destruct (Hnum (NInt 15) eq_refl Hlen) as [_ Hrow].
  rewrite Hrow. vm_compute. reflexivity.
Defined.




Example lines_in_key_order_run :
  stdout
    (snd (try_body sample_runtime
            (Ok (JArray [Obj (cs201 (PNum (NInt 50))); Obj (cs101 (PNum (NInt 15)))]))
            24 (steady [cs101 (PNum (NInt 10)); cs201 (PNum (NInt 48))])))
  = type_out
      (build_colored_line sample_runtime (PStr (lit "CS101"))
         (PStr (lit "Algorithms")) (Some (NInt 15)) (PStr (lit "60"))
         (PStr (lit "IB-201")) (Some (NInt 10)) ++ [LF])
    ++ type_out
         (build_colored_line sample_runtime (PStr (lit "CS201"))
            (PStr (lit "Compilers")) (Some (NInt 50)) (PStr (lit "50"))
            (PStr (lit "TR-313")) (Some (NInt 48)) ++ [LF])
    ++ [Sleep INTERVAL_SECONDS].
Proof. vm_compute. reflexivity. Qed.




(** An interrupt during the sleep that ends a cycle, or while a line is
    typed, is raised inside the [try] statement: the loop is left by
    [break]. *)
Example interrupt_in_cycle :
  fst (iteration sample_runtime (Ok (JArray [])) 24
         (mk_state false ∅ [] [Some KeyboardInterrupt])) = Break
  /\ fst (iteration sample_runtime
            (Ok (JArray [Obj (cs101 (PNum (NInt 15)))])) 24
            (mk_state false (retain [cs101 (PNum (NInt 10))] ∅) []
               [None; None; None; Some KeyboardInterrupt])) = Break.
Proof. split; vm_compute; reflexivity. Qed.

(** * Further properties of the code *)

(** ** pad_vis at its edges *)

Section PadVisEdges.

Variable rt : runtime.

Local Abbreviation vw := (visual_width rt).

(** X1: [pad_vis] never reorders the text and adds nothing to it but spaces at
    its end: whatever the string, the width and the release of wcwidth, the
    result is a prefix of the string followed by spaces. *)
Theorem pad_vis_prefix_and_spaces (s : pystr) (W : Z) :
  exists n k,
    (n <= length s)%nat
    /\ pad_vis rt s W = take n s ++ repeat SPACE k.
Proof.
  destruct (pad_vis_loop_spec rt s W 0 []) as (n & Hn & Heq & _).
  exists n, (Z.to_nat (W - wcswidth rt (take n s))).
  split; [exact Hn|]. unfold pad_vis, str_mul. rewrite Heq. reflexivity.
Qed.

(** X2: a negative width gives the empty string. *)
Theorem pad_vis_negative_width (s : pystr) (W : Z) :
  W < 0 -> pad_vis rt s W = [].
Proof.
  intros HW. unfold pad_vis, str_mul.
  assert (Hloop : pad_vis_loop rt s W 0 [] = []).
  { destruct s as [|ch s]; [reflexivity|].
    cbn [pad_vis_loop]. cbv zeta.
    destruct (Z.gtb_spec (0 + Z.max (wcswidth rt [ch]) 0) W); [reflexivity | lia]. }
  rewrite Hloop. simpl.
  rewrite (wcswidth_printable rt []) by constructor.
  replace (Z.to_nat (W - Z.of_nat (length (@nil N)))) with O by (simpl; lia).
  reflexivity.
Qed.

(** A string that fits is kept whole. *)
Lemma pad_vis_whole (s : pystr) (W : Z) :
  vw s <= W ->
  pad_vis rt s W = s ++ repeat SPACE (Z.to_nat (W - wcswidth rt s)).
Proof.
  intros Hfit. unfold pad_vis, str_mul.
  rewrite (pad_vis_loop_fits rt s W Hfit). reflexivity.
Qed.

(** Padded printable ASCII is printable ASCII, of the length asked for. *)
Lemma pad_vis_printable (s : pystr) (W : Z) :
  0 <= W ->
  Forall printable s ->
  Forall printable (pad_vis rt s W) /\ length (pad_vis rt s W) = Z.to_nat W.
Proof.
  intros HW Hs.
  destruct (pad_vis_loop_spec rt s W 0 []) as (n & Hn & Heq & Hfit & _).
  simpl in Heq. specialize (Hfit HW).
  assert (Hpre : Forall printable (take n s)) by (apply Forall_take, Hs).
  rewrite (visual_width_printable rt _ Hpre) in Hfit.
  unfold pad_vis, str_mul. rewrite Heq, (wcswidth_printable rt _ Hpre). split.
  - apply Forall_app. split; [exact Hpre | apply printable_repeat_space].
  - rewrite length_app, repeat_length. lia.
Qed.

(** X3: a string that fits, each character measured alone and a negative
    width counted as 0, is not truncated: it is followed by as many spaces
    as the width exceeds what [wcswidth] makes of the string, which for
    printable ASCII is the number of characters that are missing. *)
Theorem pad_vis_fits (s : pystr) (W : Z) :
  vw s <= W ->
  pad_vis rt s W = s ++ repeat SPACE (Z.to_nat (W - wcswidth rt s))
  /\ (Forall printable s ->
      pad_vis rt s W = s ++ repeat SPACE (Z.to_nat W - length s)).
Proof.
  intros Hfit. pose proof (pad_vis_whole s W Hfit) as Hpad.
  split; [exact Hpad|].
  intros Hs. rewrite Hpad, (wcswidth_printable rt s Hs). do 2 f_equal. lia.
Qed.

(** X4: on printable ASCII, padding to a width of at least 0 gives a
    printable string of exactly that many characters, and padding twice is
    padding once. *)
Theorem pad_vis_idempotent (s : pystr) (W : Z) :
  0 <= W ->
  Forall printable s ->
  Forall printable (pad_vis rt s W)
  /\ length (pad_vis rt s W) = Z.to_nat W
  /\ pad_vis rt (pad_vis rt s W) W = pad_vis rt s W.
Proof.
  intros HW Hs.
  destruct (pad_vis_printable s W HW Hs) as [Hall Hlen].
  split_and!; try assumption.
  rewrite (pad_vis_whole (pad_vis rt s W) W).
  - rewrite (wcswidth_printable rt _ Hall), Hlen.
    replace (Z.to_nat (W - Z.of_nat (Z.to_nat W))) with O by lia.
    simpl. apply app_nil_r.
  - rewrite (visual_width_printable rt _ Hall), Hlen. lia.
Qed.

End PadVisEdges.

Lemma pad_vis_negative_width_witness :
  pad_vis sample_runtime (lit "abc") (-1) = [].
Proof. apply pad_vis_negative_width. lia. Defined.

Lemma pad_vis_fits_witness :
  pad_vis sample_runtime ([0x4e2d%N] ++ lit "ab") 6
  = [0x4e2d%N] ++ lit "ab" ++ repeat SPACE 2.
Proof.
  apply (pad_vis_fits sample_runtime ([0x4e2d%N] ++ lit "ab") 6).
  vm_compute. discriminate.
Defined.

Lemma pad_vis_idempotent_witness :
  pad_vis sample_runtime (pad_vis sample_runtime (lit "abcdef") 4) 4
  = pad_vis sample_runtime (lit "abcdef") 4.
Proof.
  apply pad_vis_idempotent.
  - lia.
  - repeat constructor; vm_compute; discriminate.
Defined.

(** ** ANSI_RE and the rows that are typed *)

(** X6: [ANSI_RE] matches at the start of a string exactly the prefixes that
    are in the language of the pattern, and at most one prefix is. *)
Theorem ANSI_RE_match_iff (s : pystr) (n : nat) :
  ANSI_RE_match s = Some n
  <-> (n <= length s)%nat /\ ansi_sequence (take n s).
Proof.
  split; [apply ANSI_RE_match_sound|].
  intros [Hn Hseq].
  rewrite <- (take_drop n s) at 1.
  rewrite (ANSI_RE_match_complete _ _ Hseq). f_equal.
  rewrite length_take. lia.
Qed.

Lemma ANSI_RE_match_not_escape c s : c <> ESC -> ANSI_RE_match (c :: s) = None.
Proof.
  intros Hc. unfold ANSI_RE_match. destruct s as [|b r]; [reflexivity|].
  destruct (N.eqb_spec c ESC); [contradiction | reflexivity].
Qed.

Lemma typed_as_text txt s us :
  escape_free txt -> typed_as s us -> typed_as (txt ++ s) (map Printable txt ++ us).
Proof.
  intros Htxt Hus. induction Htxt as [|c txt Hc _ IH]; simpl; [exact Hus|].
  apply typed_chr; [|exact IH].
  intros e r He Heq. destruct He. injection Heq as ->. apply Hc. reflexivity.
Qed.

(** A row made of texts without the escape character and of escape
    sequences is cut by [type_out] at the seams of its pieces. *)
Lemma typed_as_chunks ks :
  Forall chunk_ok ks ->
  typed_as (flat_map chunk_string ks) (flat_map chunk_units ks).
Proof.
  induction 1 as [|k ks Hk _ IH]; simpl; [constructor|].
  destruct k as [txt|e]; simpl in *.
  - apply typed_as_text; assumption.
  - apply typed_seq; assumption.
Qed.

Lemma type_out_units line us :
  typed_as line us ->
  type_out line
  = flat_map unit_events us ++ (if endswith line [LF] then [] else [Write [LF]]).
Proof.
  intros Hus.
  destruct (type_out_from_units line 0) as (us' & Hus' & Heq).
  rewrite drop_0 in Hus'.
  rewrite (typed_as_functional _ _ Hus _ Hus').
  unfold type_out. rewrite Heq. reflexivity.
Qed.

Lemma sleeps_app a b : sleeps (a ++ b) = (sleeps a + sleeps b)%nat.
Proof.
  induction a as [|ev a IH]; [reflexivity|].
  destruct ev; simpl; rewrite IH; reflexivity.
Qed.

Lemma sleeps_units us :
  sleeps (flat_map unit_events us) = length (visible_text us).
Proof.
  induction us as [|u us IH]; [reflexivity|].
  simpl. rewrite sleeps_app, length_app, IH.
  destruct u; reflexivity.
Qed.

Lemma visible_text_chunks ks :
  visible_text (flat_map chunk_units ks)
  = flat_map (fun k => match k with Text s => s | Code _ => [] end) ks.
Proof.
  unfold visible_text.
  induction ks as [|k ks IH]; [reflexivity|].
  simpl. rewrite flat_map_app, IH. f_equal.
  destruct k as [txt|e]; simpl; [|reflexivity].
  induction txt as [|c txt IHt]; simpl; [reflexivity | f_equal; exact IHt].
Qed.

Lemma codes_of_chunks ks :
  codes_of (flat_map chunk_units ks)
  = flat_map (fun k => match k with Text _ => [] | Code e => [e] end) ks.
Proof.
  unfold codes_of.
  induction ks as [|k ks IH]; [reflexivity|].
  simpl. rewrite flat_map_app, IH. f_equal.
  destruct k as [txt|e]; simpl; [|reflexivity].
  induction txt as [|c txt IHt]; simpl; [reflexivity | exact IHt].
Qed.

Lemma color_codes_are_sequences :
  ansi_sequence Fore.RED /\ ansi_sequence Fore.GREEN /\ ansi_sequence Fore.YELLOW
  /\ ansi_sequence Fore.MAGENTA /\ ansi_sequence Fore.CYAN
  /\ ansi_sequence Style.RESET_ALL.
Proof.
  split_and!.
  - apply (ansi_seq (lit "31") [] 109%N); repeat constructor.
  - apply (ansi_seq (lit "32") [] 109%N); repeat constructor.
  - apply (ansi_seq (lit "33") [] 109%N); repeat constructor.
  - apply (ansi_seq (lit "35") [] 109%N); repeat constructor.
  - apply (ansi_seq (lit "36") [] 109%N); repeat constructor.
  - apply (ansi_seq (lit "0") [] 109%N); repeat constructor.
Qed.

Lemma printable_escape_free s : Forall printable s -> escape_free s.
Proof.
  intros H. eapply Forall_impl; [exact H|].
  unfold printable, ESC. intros c Hc. simpl in Hc. lia.
Qed.

Lemma escape_free_app s t : escape_free s -> escape_free t -> escape_free (s ++ t).
Proof. intros Hs Ht. apply Forall_app. auto. Qed.

Section TypedRows.

Variable rt : runtime.

(** Padding keeps a string free of the escape character. *)
Lemma pad_vis_escape_free s W : escape_free s -> escape_free (pad_vis rt s W).
Proof.
  intros Hs.
  destruct (pad_vis_loop_spec rt s W 0 []) as (n & _ & Heq & _).
  unfold pad_vis, str_mul. rewrite Heq. simpl.
  apply escape_free_app; [apply Forall_take, Hs|].
  apply Forall_forall. intros c Hc.
  apply list_elem_of_In, repeat_spec in Hc. subst c. discriminate.
Qed.

(** The pieces of a row. *)
Lemma build_colored_line_chunks
    (course_no course_name r2 classroom : pyval) (cv pv : option pynum) :
  escape_free (py_str rt course_no) ->
  escape_free (py_str rt course_name) ->
  escape_free (py_str rt r2) ->
  escape_free (py_str rt classroom) ->
  let color := choose_color_of cv pv in
  let part1 :=
    pad_vis rt (py_str rt course_no ++ lit " | " ++ py_str rt course_name)
      COL1_WIDTH in
  let part2 :=
    pad_vis rt (part2_vis_of rt color (choose_str_of cv) r2) COL2_WIDTH in
  let part3 := lit "| " ++ py_str rt classroom in
  exists ks,
    Forall chunk_ok ks
    /\ flat_map chunk_string ks
       = build_colored_line rt course_no course_name cv r2 classroom pv
           ++ [LF]
    /\ flat_map (fun k => match k with Text s => s | Code _ => [] end) ks
       = part1 ++ part2 ++ part3 ++ [LF]
    /\ Forall (fun e => e ∈ [Fore.CYAN; Fore.YELLOW; Fore.RED; Fore.GREEN;
                             Style.RESET_ALL])
         (flat_map (fun k => match k with Text _ => [] | Code e => [e] end) ks).
Proof.
  intros Hno Hname Hr2 Hroom color part1 part2 part3.
  destruct color_codes_are_sequences as (Hred & Hgreen & Hyellow & _ & Hcyan & Hreset).
  assert (Hstr : escape_free (choose_str_of cv)).
  { apply printable_escape_free, choose_str_printable. }
  assert (H1 : escape_free part1).
  { apply pad_vis_escape_free. repeat apply escape_free_app; try assumption.
    repeat constructor; discriminate. }
  assert (H2 : escape_free part2).
  { apply pad_vis_escape_free. unfold part2_vis_of.
    repeat apply escape_free_app; try assumption.
    - destruct (bool_decide _); repeat constructor; discriminate.
    - repeat constructor; discriminate.
    - repeat constructor; discriminate. }
  assert (H3 : escape_free part3).
  { apply escape_free_app; [repeat constructor; discriminate | exact Hroom]. }
  assert (Hcolor : ansi_sequence color
                   /\ color ∈ [Fore.CYAN; Fore.YELLOW; Fore.RED; Fore.GREEN;
                               Style.RESET_ALL]).
  { unfold color, choose_color_of.
    destruct pv as [p|], cv as [v|]; try (split; [exact Hyellow | (repeat first [apply list_elem_of_here | apply list_elem_of_further])]).
    destruct (_ >? _); [split; [exact Hred | (repeat first [apply list_elem_of_here | apply list_elem_of_further])]|].
    destruct (_ <? _); split; try assumption; (repeat first [apply list_elem_of_here | apply list_elem_of_further]). }
  destruct Hcolor as [Hcseq Hcin].
  unfold build_colored_line. fold color. fold part1. fold part2. fold part3.
  unfold part2_col_of.
  destruct (py_find (choose_str_of cv) part2) as [idx|] eqn:Hfind.
  - pose proof (py_find_sound _ _ _ Hfind) as Hsplit.
    set (prefix := take idx part2) in *.
    set (suffix := drop (idx + length (choose_str_of cv)) part2) in *.
    assert (Hpre : escape_free prefix) by (apply Forall_take, H2).
    assert (Hsuf : escape_free suffix) by (apply Forall_drop, H2).
    exists [Code Fore.CYAN; Text part1; Code Style.RESET_ALL;
            Code Fore.YELLOW; Text prefix; Code color; Text (choose_str_of cv);
            Code Fore.YELLOW; Text suffix; Code Style.RESET_ALL;
            Code Fore.GREEN; Text part3; Code Style.RESET_ALL; Text [LF]].
    split_and!.
    + repeat constructor; simpl; try assumption; discriminate.
    + cbn [flat_map chunk_string]. rewrite ?app_nil_r. repeat rewrite <- app_assoc. reflexivity.
    + cbn [flat_map]. rewrite ?app_nil_r. rewrite Hsplit at 1.
      repeat rewrite <- app_assoc. reflexivity.
    + cbn [flat_map app]. repeat (apply List.Forall_cons); try apply List.Forall_nil;
        first [assumption
              | repeat first [apply list_elem_of_here | apply list_elem_of_further]].
  - exists [Code Fore.CYAN; Text part1; Code Style.RESET_ALL;
            Code Fore.YELLOW; Text part2; Code Style.RESET_ALL;
            Code Fore.GREEN; Text part3; Code Style.RESET_ALL; Text [LF]].
    split_and!.
    + repeat constructor; simpl; try assumption; discriminate.
    + cbn [flat_map chunk_string]. rewrite ?app_nil_r. repeat rewrite <- app_assoc. reflexivity.
    + cbn [flat_map chunk_string]. rewrite ?app_nil_r. repeat rewrite <- app_assoc. reflexivity.
    + cbn [flat_map app]. repeat (apply List.Forall_cons); try apply List.Forall_nil;
        first [assumption
              | repeat first [apply list_elem_of_here | apply list_elem_of_further]].
Qed.

(** X7: when no field of the record holds the escape character, [type_out]
    types a row as follows: the characters written one by one, each
    followed by the typing delay, are those of the three columns (the first
    padded to 54 columns, the second to 16) and the newline, in order; the
    escape sequences written whole are colour codes of colorama; and there is
    one sleep per character of the columns and one for the newline. *)
Theorem typed_row_is_its_columns
    (course_no course_name r2 classroom : pyval) (cv pv : option pynum) :
  escape_free (py_str rt course_no) ->
  escape_free (py_str rt course_name) ->
  escape_free (py_str rt r2) ->
  escape_free (py_str rt classroom) ->
  let line := build_colored_line rt course_no course_name cv r2 classroom pv in
  let columns :=
    pad_vis rt (py_str rt course_no ++ lit " | " ++ py_str rt course_name)
      COL1_WIDTH
    ++ pad_vis rt
         (part2_vis_of rt (choose_color_of cv pv) (choose_str_of cv) r2) COL2_WIDTH
    ++ lit "| " ++ py_str rt classroom in
  exists us,
    typed_as (line ++ [LF]) us
    /\ type_out (line ++ [LF]) = flat_map unit_events us
    /\ visible_text us = columns ++ [LF]
    /\ Forall (fun e => e ∈ [Fore.CYAN; Fore.YELLOW; Fore.RED; Fore.GREEN;
                             Style.RESET_ALL]) (codes_of us)
    /\ sleeps (type_out (line ++ [LF])) = S (length columns).
Proof.
  intros Hno Hname Hr2 Hroom line columns.
  destruct (build_colored_line_chunks course_no course_name r2 classroom cv pv
              Hno Hname Hr2 Hroom) as (ks & Hok & Hstr & Hvis & Hcodes).
  pose proof (typed_as_chunks ks Hok) as Htyped.
  rewrite Hstr in Htyped. fold line in Htyped.
  assert (Hout : type_out (line ++ [LF]) = flat_map unit_events (flat_map chunk_units ks)).
  { rewrite (type_out_units _ _ Htyped).
    replace (endswith (line ++ [LF]) [LF]) with true; [apply app_nil_r|].
    symmetry. apply endswith_LF. eauto. }
  assert (Hvisible : visible_text (flat_map chunk_units ks) = columns ++ [LF]).
  { rewrite visible_text_chunks, Hvis. unfold columns.
    rewrite <- !app_assoc. reflexivity. }
  exists (flat_map chunk_units ks). split_and!.
  - exact Htyped.
  - exact Hout.
  - exact Hvisible.
  - rewrite codes_of_chunks. exact Hcodes.
  - rewrite Hout, sleeps_units, Hvisible, length_app. simpl. lia.
Qed.

End TypedRows.

Lemma ANSI_RE_match_iff_witness : ANSI_RE_match (Fore.RED ++ lit "15") = Some 5%nat.
Proof.
  apply (proj2 (ANSI_RE_match_iff (Fore.RED ++ lit "15") 5)).
  split; [vm_compute; lia|].
  apply (ansi_seq (lit "31") [] 109%N); repeat constructor.
Defined.

Lemma typed_row_is_its_columns_witness :
  sleeps (type_out
            (build_colored_line sample_runtime (PStr (lit "CS101"))
               (PStr (lit "Algorithms")) (Some (NInt 15)) (PStr (lit "60"))
               (PStr (lit "IB-201")) (Some (NInt 10)) ++ [LF]))
  = 79%nat.
Proof.
  destruct (typed_row_is_its_columns sample_runtime (PStr (lit "CS101"))
              (PStr (lit "Algorithms")) (PStr (lit "60")) (PStr (lit "IB-201"))
              (Some (NInt 15)) (Some (NInt 10)))
    as (us & _ & _ & _ & _ & Hsleeps).
  - repeat constructor; discriminate.
  - repeat constructor; discriminate.
  - repeat constructor; discriminate.
  - repeat constructor; discriminate.
  - rewrite Hsleeps. vm_compute. reflexivity.
Defined.

(** An escape sequence in a field reaches the terminal whole: a course name
    that holds [ESC [ r] resets the scroll region when its row is typed. *)
Example escape_sequence_in_a_name :
  margins
    (display (mk_terminal Ground (Some (2, 24)))
       (type_out
          (build_colored_line sample_runtime (PStr (lit "CS101"))
             (PStr (ESC :: lit "[r")) (Some (NInt 15)) (PStr (lit "60"))
             (PStr (lit "IB-201")) (Some (NInt 10)) ++ [LF])))
  = None.
Proof. vm_compute. reflexivity. Qed.


(** ** Numerals: str and parse_int_or_none *)

Lemma decimal_fold_of_uint_acc d :
  forall p,
  decimal_fold (Z.pos p) (lit (NilEmpty.string_of_uint d))
  = Some (Z.pos (Pos.of_uint_acc d p)).
Proof.
  induction d; intros p; cbn [NilEmpty.string_of_uint lit list_ascii_of_string map
                               decimal_fold Pos.of_uint_acc];
    [reflexivity|..];
    (rewrite decimal_value_ascii by reflexivity);
    match goal with
    | |- decimal_fold ?a _ = Some (Z.pos (Pos.of_uint_acc _ ?q)) =>
        replace a with (Z.pos q) by (simpl; lia)
    end; apply IHd.
Qed.

Lemma decimal_fold_of_uint d :
  decimal_fold 0 (lit (NilEmpty.string_of_uint d)) = Some (Z.of_N (Pos.of_uint d)).
Proof.
  induction d; cbn [NilEmpty.string_of_uint lit list_ascii_of_string map
                      decimal_fold Pos.of_uint];
    [reflexivity|..];
    (rewrite decimal_value_ascii by reflexivity);
    first [ exact IHd
          | match goal with
            | |- decimal_fold ?a _ = Some (Z.of_N (N.pos (Pos.of_uint_acc _ ?q))) =>
                change a with (Z.pos q); apply decimal_fold_of_uint_acc
            end ].
Qed.

(** The numeral of a natural number: digits only, at least one, and its
    value is the number. *)
Lemma str_int_nonneg z :
  0 <= z ->
  str_int z <> []
  /\ forallb ascii_digit (str_int z) = true
  /\ decimal_fold 0 (str_int z) = Some z.
Proof.
  intros Hz. unfold str_int, NilZero.string_of_int, NilZero.string_of_uint.
  destruct z as [|p|p]; [| |lia].
  - simpl. split_and!; [discriminate | reflexivity | reflexivity].
  - cbn [Z.to_int].
    pose proof (Unsigned.to_uint_nonnil p) as Hnil.
    pose proof (Unsigned.of_to p) as Hof.
    destruct (Pos.to_uint p) eqn:Hd; try contradiction;
      (split_and!;
       [ discriminate
       | apply string_of_uint_ascii_digits
       | rewrite decimal_fold_of_uint, Hof; reflexivity ]).
Qed.

(** X8: round trip: the decimal numeral of a natural number, as [str] writes
    it, is parsed back to the number (within the conversion limit); the
    numeral of a negative number starts with a minus sign and is parsed to
    [None]. *)
Theorem parse_int_or_none_of_str (z : Z) :
  (0 <= z -> (length (str_int z) <= int_max_str_digits)%nat ->
   parse_int_or_none (PStr (str_int z)) = Ok (Some (NInt z)))
  /\ (z < 0 -> parse_int_or_none (PStr (str_int z)) = Ok None).
Proof.
  split.
  - intros Hz Hlen.
    destruct (str_int_nonneg z Hz) as (Hne & Hdigits & Hval).
    destruct (parse_int_or_none_decimal (str_int z) Hne
                (ascii_digits_decimal _ Hdigits) Hlen) as (z' & Hz' & Hp).
    rewrite Hp. congruence.
  - intros Hz. destruct z as [|p|p]; try lia.
    unfold str_int, NilZero.string_of_int. cbn [Z.to_int].
    change (lit (String "-" (NilZero.string_of_uint (Pos.to_uint p))))
      with (45%N :: lit (NilZero.string_of_uint (Pos.to_uint p))).
    reflexivity.
Qed.

Lemma parse_int_or_none_of_str_witness :
  parse_int_or_none (PStr (str_int 48)) = Ok (Some (NInt 48))
  /\ parse_int_or_none (PStr (str_int (-5))) = Ok None.
Proof.
  split.
  - apply (proj1 (parse_int_or_none_of_str 48)); [lia | vm_compute; lia].
  - apply (proj2 (parse_int_or_none_of_str (-5))). lia.
Defined.

(** ** enable_sticky_title on the terminal *)

Lemma receive_text s t :
  escape_free s -> mode t = Ground -> fold_left receive s t = t.
Proof.
  intros Hs. revert t. induction Hs as [|c s Hc _ IH]; intros t Ht; [reflexivity|].
  simpl. replace (receive t c) with t; [apply IH, Ht|].
  unfold receive. destruct (N.eqb_spec c ESC); [contradiction|].
  rewrite Ht. reflexivity.
Qed.

Lemma receive_digits ds :
  forallb ascii_digit ds = true ->
  forall buf mg,
  fold_left receive ds (mk_terminal (Csi buf) mg) = mk_terminal (Csi (buf ++ ds)) mg.
Proof.
  induction ds as [|c ds IH]; intros Hds buf mg; simpl.
  - rewrite app_nil_r. reflexivity.
  - simpl in Hds. apply andb_true_iff in Hds as [Hc Hds].
    assert (Hstep : receive (mk_terminal (Csi buf) mg) c
                    = mk_terminal (Csi (buf ++ [c])) mg).
    { unfold receive, ascii_digit, is_param, is_inter, ESC in *.
      apply andb_true_iff in Hc as [H1 H2].
      apply N.leb_le in H1. apply N.leb_le in H2.
      destruct (N.eqb_spec c 27); [lia|]. simpl.
      replace ((48 <=? c)%N && (c <=? 63)%N) with true; [reflexivity|].
      symmetry. apply andb_true_iff. split; apply N.leb_le; lia. }
    rewrite Hstep, IH by exact Hds. rewrite <- app_assoc. reflexivity.
Qed.

Lemma run_length_all p s :
  forallb p s = true -> run_length p s = length s.
Proof.
  induction s as [|c s IH]; simpl; [reflexivity|].
  intros H. apply andb_true_iff in H as [Hc Hs]. rewrite Hc, IH; auto.
Qed.

(** X9: on a terminal that follows DECSTBM, [enable_sticky_title] leaves
    rows 2 to [rows] as the scroll region, [rows] being the height reported
    for the terminal or 24 when none is reported, whatever the terminal was
    doing before and for every title without an escape character, provided
    the terminal has three rows at least; on a terminal of one or two rows
    the sequence is ignored and the scroll region is what it was.
    [reset_scroll_region] then gives the whole screen back. *)
Theorem enable_sticky_title_region (t : terminal) (lines : Z) (title : pystr) :
  0 <= lines ->
  escape_free title ->
  let rows := if lines =? 0 then 24 else lines in
  display t (enable_sticky_title lines title)
  = mk_terminal Ground (if 2 <? rows then Some (2, rows) else margins t)
  /\ display (display t (enable_sticky_title lines title)) reset_scroll_region
     = mk_terminal Ground None.
Proof.
  intros Hlines Htitle rows.
  assert (Hrows : 0 < rows).
  { unfold rows. destruct (Z.eqb_spec lines 0); lia. }
  destruct (str_int_nonneg rows ltac:(lia)) as (_ & Hdigits & Hval).
  assert (Hparam : param_value (str_int rows) = rows).
  { unfold param_value. rewrite (decimal_fold_ascii _ Hdigits) in Hval.
    injection Hval as Hval. exact Hval. }
  assert (Hregion : display t (enable_sticky_title lines title)
                    = mk_terminal Ground
                        (if 2 <? rows then Some (2, rows) else margins t)).
  { unfold enable_sticky_title. cbv zeta. fold rows.
    match goal with
    | |- display t [Write ?a; Write ?b; Write ?c; Write ?d; Write ?e; Flush] = ?r =>
        change (fold_left receive e
                  (fold_left receive d
                     (fold_left receive c
                        (fold_left receive b (fold_left receive a t)))) = r)
    end.
    assert (H1 : fold_left receive (ESC :: lit "[2J") t
                 = mk_terminal Ground (margins t)) by reflexivity.
    rewrite H1.
    assert (H2 : fold_left receive (ESC :: lit "[2;" ++ str_int rows ++ lit "r")
                   (mk_terminal Ground (margins t))
                 = mk_terminal Ground
                     (if 2 <? rows then Some (2, rows) else margins t)).
    { change (ESC :: lit "[2;" ++ str_int rows ++ lit "r")
        with ([ESC; 0x5b; 50; 59]%N ++ str_int rows ++ [0x72%N]).
      rewrite fold_left_app.
      change (fold_left receive [ESC; 0x5b; 50; 59]%N (mk_terminal Ground (margins t)))
        with (mk_terminal (Csi [50; 59]%N) (margins t)).
      rewrite fold_left_app, (receive_digits _ Hdigits).
      cbn [fold_left]. unfold receive. cbn [mode margins].
      change (0x72 =? ESC)%N with false. cbv iota.
      change (is_param 0x72 || is_inter 0x72) with false. cbv iota.
      change (0x72 =? 0x72)%N with true. cbv iota.
      f_equal. unfold set_margins.
      change ([50; 59]%N ++ str_int rows) with (50%N :: 59%N :: str_int rows).
      change (run_length ascii_digit (50%N :: 59%N :: str_int rows)) with 1%nat.
      cbn [take drop firstn skipn].
      rewrite !drop_0, (run_length_all _ _ Hdigits), firstn_all, Hparam.
      change (param_value [50%N]) with 2.
      change (Z.max 2 1) with 2. change (2 =? 0) with false. cbn [andb].
      destruct (Z.eqb_spec rows 0); [lia|]. reflexivity. }
    rewrite H2.
    assert (H3 : forall mg, fold_left receive (ESC :: lit "[1;1H") (mk_terminal Ground mg)
                            = mk_terminal Ground mg) by reflexivity.
    rewrite H3.
    assert (H4 : forall mg,
               fold_left receive (Fore.MAGENTA ++ title ++ Style.RESET_ALL ++ [LF])
                 (mk_terminal Ground mg)
               = mk_terminal Ground mg).
    { intros mg. rewrite fold_left_app.
      change (fold_left receive Fore.MAGENTA (mk_terminal Ground mg))
        with (mk_terminal Ground mg).
      rewrite fold_left_app, (receive_text title (mk_terminal Ground mg) Htitle eq_refl).
      reflexivity. }
    rewrite H4.
    reflexivity. }
  split; [exact Hregion|]. rewrite Hregion. reflexivity.
Qed.

Lemma enable_sticky_title_region_witness :
  display (mk_terminal Ground None) (enable_sticky_title 40 TITLE)
  = mk_terminal Ground (Some (2, 40))
  /\ display (mk_terminal Ground (Some (1, 9))) (enable_sticky_title 2 TITLE)
     = mk_terminal Ground (Some (1, 9)).
Proof.
  split.
  - apply (enable_sticky_title_region (mk_terminal Ground None) 40 TITLE).
    + lia.
    + repeat constructor; discriminate.
  - apply (enable_sticky_title_region (mk_terminal Ground (Some (1, 9))) 2 TITLE).
    + lia.
    + repeat constructor; discriminate.
Defined.


(** ** Invariants of the polling loop *)

Lemma py_or_truthy v d : truthy d = true -> truthy (py_or v d) = true.
Proof. intros Hd. unfold py_or. destruct (truthy v) eqn:Hv; assumption. Qed.

(** A float other than zero is not the key [0]. *)
Lemma float_key_truthy f :
  truthy (PFloat f) = true ->
  float_key f <> KNone /\ float_key f <> KStr [] /\ float_key f <> KInt 0.
Proof.
  intros Ht. destruct f as [s|s| |s m e].
  - discriminate Ht.
  - unfold float_key. simpl. destruct s; split_and!; discriminate.
  - unfold float_key. simpl. split_and!; discriminate.
  - unfold float_key, float_number.
    set (q := (inject_Z (if s then Z.neg m else Z.pos m) * Qpower 2 e)%Q).
    cbv zeta.
    assert (Hq : ~ (q == 0)%Q).
    { unfold q. intros H. apply Qmult_integral in H as [H|H].
      - destruct s; discriminate H.
      - revert H. apply Qpower_not_0. discriminate. }
    assert (Hnum : Qnum (Qred q) <> 0).
    { intros H. apply Hq. rewrite <- (Qred_correct q).
      unfold Qeq. rewrite H. reflexivity. }
    destruct (Qden (Q2Qc q) =? 1)%positive; split_and!; try discriminate.
    intros [= H]. apply Hnum. exact H.
Qed.

Lemma record_key_truthy c k :
  record_key c = Ok k -> k <> KNone /\ k <> KStr [] /\ k <> KInt 0.
Proof.
  unfold record_key, course_no_of.
  assert (H : truthy (py_or (CourseNo c) (PStr (lit "-"))) = true)
    by (apply py_or_truthy; reflexivity).
  destruct (py_or (CourseNo c) (PStr (lit "-"))) as [|n|f|s|l|d]; simpl in *;
    try discriminate.
  - intros [= <-]. split_and!; try discriminate.
    intros [= Hn]. rewrite Hn in H. discriminate.
  - intros [= <-]. apply float_key_truthy. exact H.
  - intros [= <-]. split_and!; try discriminate. intros [= ->]. discriminate.
Qed.

Lemma retain_one_retained_ok c m v :
  parse_int_or_none (ChooseStudent c) = Ok v ->
  retained_ok m ->
  retained_ok (retain_one c m).
Proof.
  intros Hparse Hok. unfold retain_one.
  destruct (record_key c) as [k|] eqn:Hk; [|exact Hok].
  intros k' p.
  destruct (decide (k = k')) as [<-|Hne].
  - rewrite lookup_insert_eq. intros [= <-].
    destruct (record_key_truthy c k Hk) as (H1 & H2 & H3).
    unfold entry_ok. simpl.
    split_and!; try assumption; try (apply py_or_truthy; reflexivity). eauto.
  - rewrite lookup_insert_ne by exact Hne. apply Hok.
Qed.

Section LoopInvariants.

Variable rt : runtime.

Lemma loop_body_retained_ok it to_print st r st' :
  loop_body rt it to_print st = (r, st') ->
  retained_ok (prev_state st) ->
  retained_ok (prev_state st').
Proof.
  destruct r as [tp|e].
  - destruct it as [c|]; [|discriminate].
    intros Hb Hok. pose proof Hb as Hb'.
    apply loop_body_Ok in Hb' as (-> & _ & _).
    rewrite loop_body_Obj in Hb.
    destruct (parse_int_or_none (ChooseStudent c)) as [cv|] eqn:Hp; [|discriminate].
    simpl. eapply retain_one_retained_ok; eassumption.
  - intros Hb Hok. apply loop_body_Raise in Hb as [-> _]. exact Hok.
Qed.

Lemma for_each_retained_ok l :
  forall to_print st r st',
  for_each l (loop_body rt) to_print st = (r, st') ->
  retained_ok (prev_state st) ->
  retained_ok (prev_state st').
Proof.
  induction l as [|it l IH]; intros to_print st r st'.
  - intros [= <- <-]. auto.
  - rewrite for_each_cons.
    destruct (loop_body rt it to_print st) as [[tp1|e] st1] eqn:Hb.
    + intros Hl Hok. eapply IH; [exact Hl|].
      eapply loop_body_retained_ok; eassumption.
    + intros [= <- <-] Hok. eapply loop_body_retained_ok; eassumption.
Qed.

Lemma try_body_retained_ok fetched lines st r st' :
  try_body rt fetched lines st = (r, st') ->
  retained_ok (prev_state st) ->
  retained_ok (prev_state st').
Proof.
  rewrite try_body_unfold. intros Ht Hok.
  destruct fetched as [data|e0]; [|injection Ht as <- <-; exact Hok].
  destruct (sorted_by_CourseNo rt data) as [l|e1];
    [|injection Ht as <- <-; exact Hok].
  destruct (for_each l (loop_body rt) [] st) as [[to_print|e2] st1] eqn:Hloop.
  - pose proof (for_each_retained_ok _ _ _ _ _ Hloop Hok) as Hok1.
    destruct (first_run st1).
    + destruct (emit _ st1) as [[u|e3] st2] eqn:He;
        apply emit_spec in He as (_ & Hprev & _).
      * apply call_spec in Ht as (_ & Hprev' & _).
        simpl in Hprev'. rewrite Hprev', Hprev. exact Hok1.
      * injection Ht as <- <-. rewrite Hprev. exact Hok1.
    + destruct (emit _ st1) as [[u|e3] st2] eqn:He;
        apply emit_spec in He as (_ & Hprev & _).
      * apply call_spec in Ht as (_ & Hprev' & _).
        rewrite Hprev', Hprev. exact Hok1.
      * injection Ht as <- <-. rewrite Hprev. exact Hok1.
  - injection Ht as <- <-. eapply for_each_retained_ok; eassumption.
Qed.

Lemma iteration_retained_ok fetched lines st :
  retained_ok (prev_state st) ->
  retained_ok (prev_state (snd (iteration rt fetched lines st))).
Proof.
  intros Hok. rewrite iteration_prev_state.
  destruct (try_body rt fetched lines st) as [r st'] eqn:Ht.
  eapply try_body_retained_ok; eassumption.
Qed.

(** X10: the retained state of [main] is always well formed: whatever the
    outside world answers, every key is truthy (never [None], the empty
    string or 0), every retained raw count is one that [parse_int_or_none]
    accepts without raising, and the retained name, capacity and room are
    never empty. *)
Theorem retained_state_well_formed (world : list (result payload * Z)) (st : state) :
  retained_ok (prev_state st) ->
  retained_ok (prev_state (snd (main_loop rt world st))).
Proof.
  revert st. induction world as [|[fetched lines] world IH]; intros st Hok.
  - exact Hok.
  - simpl.
    pose proof (iteration_retained_ok fetched lines st Hok) as Hit.
    destruct (iteration rt fetched lines st) as [[| |e] st'];
      simpl in *; auto.
Qed.

(** X11: in a well-formed state, the body of the loop raises on a record
    for one of two reasons, and leaves the state as it was: the count of
    the record is a string that [isdigit] accepts and [int] refuses, a
    [ValueError]; or its [CourseNo] is a non-empty list or object, which
    cannot be a key of [prev_state], a [TypeError]. *)
Theorem loop_body_raises c to_print st e st' :
  retained_ok (prev_state st) ->
  loop_body rt (Obj c) to_print st = (Raise e, st') ->
  st' = st
  /\ ((e = ValueError
       /\ exists s, ChooseStudent c = PStr s
                    /\ isdigit s = true
                    /\ int_of_str s = Raise ValueError)
      \/ (e = TypeError
          /\ record_key c = Raise TypeError
          /\ ((exists l, CourseNo c = PList l /\ l <> [])
              \/ (exists d, CourseNo c = PDict d /\ d <> [])))).
Proof.
  intros Hok Hb. pose proof Hb as Hb'. apply loop_body_Raise in Hb' as [-> _].
  split; [reflexivity|].
  rewrite loop_body_Obj in Hb.
  assert (Hparse : forall v e', parse_int_or_none v = Raise e' ->
            e' = ValueError
            /\ exists s, v = PStr s /\ isdigit s = true
                         /\ int_of_str s = Raise ValueError).
  { intros v e' Hv. pose proof (parse_int_or_none_Raise _ _ Hv) as ->.
    split; [reflexivity|].
    destruct v as [|n|f|s|l|d]; simpl in Hv; try discriminate.
    destruct (isdigit s) eqn:Hd; [|discriminate].
    destruct (int_of_str s) as [z|e0] eqn:Hi; simpl in Hv; [discriminate|].
    injection Hv as ->. eauto. }
  destruct (parse_int_or_none (ChooseStudent c)) as [cv|e0] eqn:Hp.
  - destruct (record_key c) as [k|e1] eqn:Hk.
    + destruct (prev_state st !! k) as [p|] eqn:Hlook; [|discriminate].
      destruct (_ && _); [|discriminate].
      destruct (Hok _ _ Hlook) as (_ & _ & _ & [v Hv] & _).
      rewrite Hv in Hb. discriminate.
    + injection Hb as ->. right.
      pose proof (key_of_Raise _ _ Hk) as ->.
      split_and!; try reflexivity.
      unfold record_key, course_no_of, py_or in Hk.
      destruct (truthy (CourseNo c)) eqn:Ht; [|discriminate Hk].
      destruct (CourseNo c) as [|n|f|s|l|d]; simpl in Hk; try discriminate Hk.
      * left. exists l. split; [reflexivity|]. intros ->. discriminate Ht.
      * right. exists d. split; [reflexivity|]. intros ->. discriminate Ht.
  - injection Hb as ->. left. apply Hparse. exact Hp.
Qed.

End LoopInvariants.

Lemma retained_ok_empty : retained_ok ∅.
Proof. intros k p H. rewrite lookup_empty in H. discriminate. Qed.

Lemma retained_state_well_formed_witness :
  retained_ok
    (prev_state
       (snd (main_loop sample_runtime
               [ (Ok (JArray [Obj (cs101 (PNum (NInt 10)));
                              Obj (keyless (PStr (lit "n/a")))]), 24);
                 (Raise HTTPError, 24) ]
               initial_state))).
Proof. apply retained_state_well_formed. exact retained_ok_empty. Defined.

Lemma loop_body_raises_witness :
  (exists s, ChooseStudent (cs201 (PStr [0xb2%N])) = PStr s
             /\ isdigit s = true /\ int_of_str s = Raise ValueError)
  \/ record_key (cs201 (PStr [0xb2%N])) = Raise TypeError.
Proof.
  destruct (loop_body_raises sample_runtime (cs201 (PStr [0xb2%N])) []
              initial_state ValueError initial_state retained_ok_empty eq_refl)
    as (_ & [(_ & H)|(_ & H & _)]).
  - left. exact H.
  - right. exact H.
Defined.

(** A record whose [CourseNo] is a list cuts the cycle short with a
    [TypeError]. *)
Example unhashable_key :
  fst (loop_body sample_runtime
         (Obj (mk_course (PList [PNum (NInt 1)]) PNone (PNum (NInt 3)) PNone PNone))
         [] initial_state)
  = Raise TypeError.
Proof. reflexivity. Qed.

(** ** When sorted raises *)

Lemma decorate_objects cs :
  decorate (map Obj cs) = Ok (map (fun c => (course_sort_key c, Obj c)) cs).
Proof.
  induction cs as [|c cs IH]; [reflexivity|].
  simpl. rewrite IH. reflexivity.
Qed.

Lemma insert_sorted_class k x l :
  key_class (fst x) = Some k ->
  Forall (fun y => key_class (fst y) = Some k) l ->
  exists r, insert_sorted x l = Ok r.
Proof.
  intros Hx Hl. induction Hl as [|y l Hy _ [r IH]]; simpl; [eauto|].
  destruct (py_lt_same_class (fst y) (fst x) k Hy Hx) as [[|] ->]; simpl.
  - rewrite IH. simpl. eauto.
  - eauto.
Qed.

Lemma insertion_sort_class k d :
  Forall (fun y => key_class (fst y) = Some k) d ->
  exists r, insertion_sort d = Ok r.
Proof.
  induction 1 as [|x d Hx Hd [r IH]]; simpl; [eauto|].
  rewrite IH. simpl.
  apply (insert_sorted_class k); [exact Hx|].
  apply insertion_sort_perm in IH.
  rewrite <- IH. exact Hd.
Qed.

(** A sort that succeeds has compared keys of one kind only. *)
Lemma insertion_sort_Ok_class d :
  forall r,
  insertion_sort d = Ok r ->
  keys_classed d ->
  exists k, Forall (fun y => key_class (fst y) = Some k) d.
Proof.
  induction d as [|x d IH]; intros r Hsort Hall.
  - exists true. constructor.
  - simpl in Hsort.
    destruct (insertion_sort d) as [r'|] eqn:Hr'; simpl in Hsort; [|discriminate].
    apply Forall_cons in Hall as [Hcx Hall].
    destruct (IH r' eq_refl Hall) as [k Hk].
    pose proof (insertion_sort_perm d r' Hr') as Hperm.
    destruct r' as [|y r''].
    + apply Permutation_nil_r in Hperm. subst d.
      destruct Hcx as [kx Hkx]. exists kx. repeat constructor. exact Hkx.
    + exists k. constructor; [|exact Hk].
      assert (Hyk : key_class (fst y) = Some k).
      { eapply Forall_forall in Hk; [exact Hk|].
        rewrite Hperm. apply list_elem_of_here. }
      simpl in Hsort.
      pose proof (py_lt_class (fst y) (fst x) ltac:(eexists; exact Hyk) Hcx) as Hc.
      destruct (py_lt (fst y) (fst x)) as [b|]; simpl in Hsort; [|discriminate].
      destruct Hc as (k' & Hy & Hx). congruence.
Qed.

Lemma scalar_keys_decorated cs :
  scalar_keys cs -> keys_classed (map (fun c => (course_sort_key c, Obj c)) cs).
Proof. intros H. apply Forall_map. exact H. Qed.

Lemma one_kind_scalar_keys cs : one_kind cs -> scalar_keys cs.
Proof.
  intros [k Hk]. eapply Forall_impl; [exact Hk|].
  intros c Hc. simpl in Hc. rewrite Hc. eauto.
Qed.

Section SortedRaises.

Variable rt : runtime.

Lemma sorted_records cs :
  scalar_keys cs ->
  sorted_by_CourseNo rt (JArray (map Obj cs))
  = rbind (insertion_sort (map (fun c => (course_sort_key c, Obj c)) cs))
      (fun r => Ok (map snd r)).
Proof.
  intros Hsc. unfold sorted_by_CourseNo. simpl. rewrite decorate_objects. simpl.
  rewrite sort_decorated_classed by (apply scalar_keys_decorated, Hsc).
  reflexivity.
Qed.

(** X12: sorting an array of records whose sort keys are strings or numbers
    (a record without [CourseNo] counts as a string) succeeds exactly when
    the keys are of one kind, all strings or all numbers; when a string and
    a number are both among the keys [sorted] raises a [TypeError]. *)
Theorem sorted_raises_iff_mixed (cs : list course) :
  (one_kind cs -> exists l, sorted_by_CourseNo rt (JArray (map Obj cs)) = Ok l)
  /\ (scalar_keys cs -> ~ one_kind cs ->
      sorted_by_CourseNo rt (JArray (map Obj cs)) = Raise TypeError)
  /\ (scalar_keys cs ->
      forall l, sorted_by_CourseNo rt (JArray (map Obj cs)) = Ok l -> one_kind cs).
Proof.
  assert (Hok : scalar_keys cs ->
            forall l, sorted_by_CourseNo rt (JArray (map Obj cs)) = Ok l ->
                      one_kind cs).
  { intros Hsc l. rewrite (sorted_records cs Hsc).
    destruct (insertion_sort _) as [r|] eqn:Hr; simpl; [|discriminate].
    intros _. apply insertion_sort_Ok_class in Hr as [k Hk].
    - exists k. apply Forall_map in Hk. exact Hk.
    - apply scalar_keys_decorated, Hsc. }
  split_and!.
  - intros Hone. rewrite (sorted_records cs (one_kind_scalar_keys cs Hone)).
    destruct Hone as [k Hk].
    destruct (insertion_sort_class k (map (fun c => (course_sort_key c, Obj c)) cs))
      as [r Hr].
    { apply Forall_map. exact Hk. }
    rewrite Hr. simpl. eauto.
  - intros Hsc Hmixed.
    destruct (insertion_sort (map (fun c => (course_sort_key c, Obj c)) cs))
      as [r|e] eqn:Hr.
    + exfalso. apply Hmixed, (Hok Hsc (map snd r)).
      rewrite (sorted_records cs Hsc), Hr. reflexivity.
    + rewrite (sorted_records cs Hsc), Hr. simpl. f_equal.
      eapply insertion_sort_raises, Hr.
  - exact Hok.
Qed.

End SortedRaises.

Lemma sorted_raises_iff_mixed_witness :
  sorted_by_CourseNo sample_runtime
    (JArray (map Obj [cs101 (PNum (NInt 1));
                      mk_course (PNum (NInt 7)) PNone PNone PNone PNone]))
  = Raise TypeError.
Proof.
  apply (proj1 (proj2 (sorted_raises_iff_mixed sample_runtime
                         [cs101 (PNum (NInt 1));
                          mk_course (PNum (NInt 7)) PNone PNone PNone PNone]))).
  - repeat constructor; eexists; reflexivity.
  - intros [k Hk].
    apply Forall_cons in Hk as [H1 Hk]. apply Forall_cons in Hk as [H2 _].
    vm_compute in H1, H2. congruence.
Defined.

(** ** Cycles that complete, snapshots that do not change, leaving the loop *)

Lemma NoDup_map_inj {A B} (f : A -> B) (l : list A) a b :
  NoDup (map f l) -> a ∈ l -> b ∈ l -> f a = f b -> a = b.
Proof.
  induction l as [|x l IH]; intros Hnd Ha Hb Hf.
  - apply elem_of_nil in Ha. destruct Ha.
  - simpl in Hnd. apply NoDup_cons in Hnd as [Hx Hnd].
    apply elem_of_cons in Ha as [->|Ha]; apply elem_of_cons in Hb as [->|Hb].
    + reflexivity.
    + destruct Hx. rewrite Hf. apply list_elem_of_In, in_map, list_elem_of_In, Hb.
    + destruct Hx. rewrite <- Hf. apply list_elem_of_In, in_map, list_elem_of_In, Ha.
    + apply IH; assumption.
Qed.

Lemma retain_one_id c m k :
  record_key c = Ok k -> m !! k = Some (entry_of c) -> retain_one c m = m.
Proof.
  intros Hk H. unfold retain_one. rewrite Hk. apply insert_id, H.
Qed.

(** A record whose sort key is a string or a number has a key. *)
Lemma record_key_classed c :
  classed (course_sort_key c) -> exists k, record_key c = Ok k.
Proof.
  unfold course_sort_key, record_key, course_no_of, py_or.
  destruct (truthy (CourseNo c)); [|simpl; eauto].
  intros [k Hk]. destruct (CourseNo c); simpl in *; try discriminate; eauto.
Qed.

Lemma call_quiet ev st :
  faults st = [] ->
  call ev st = (Ok (), mk_state (first_run st) (prev_state st) (stdout st ++ [ev]) []).
Proof. intros Hf. unfold call. rewrite Hf. reflexivity. Qed.

Section Cycles.

Variable rt : runtime.

Lemma sorted_one_kind cs :
  one_kind cs ->
  exists cs', sorted_by_CourseNo rt (JArray (map Obj cs)) = Ok (map Obj cs')
              /\ Permutation cs cs'.
Proof.
  intros Hone. pose proof (one_kind_scalar_keys cs Hone) as Hsc.
  destruct Hone as [k Hk].
  destruct (insertion_sort_class k (map (fun c => (course_sort_key c, Obj c)) cs))
    as [r Hr].
  { apply Forall_map. exact Hk. }
  assert (Hs : sorted_by_CourseNo rt (JArray (map Obj cs)) = Ok (map snd r)).
  { rewrite (sorted_records rt cs Hsc), Hr. reflexivity. }
  pose proof (sorted_by_CourseNo_spec _ _ _ Hs) as (items & Hit & Hperm & _).
  injection Hit as <-.
  apply Permutation_sym, Permutation_map_inv in Hperm as (cs' & Heq & Hp).
  exists cs'. rewrite Hs, Heq. split; [reflexivity | exact Hp].
Qed.

Lemma for_each_completes cs :
  forall to_print st,
  retained_ok (prev_state st) ->
  Forall (fun c => exists v, parse_int_or_none (ChooseStudent c) = Ok v) cs ->
  Forall (fun c => exists k, record_key c = Ok k) cs ->
  exists to_print' st',
    for_each (map Obj cs) (loop_body rt) to_print st = (Ok to_print', st').
Proof.
  induction cs as [|c cs IH]; intros to_print st Hok Hall Hkeys; simpl map.
  - simpl. eauto.
  - apply Forall_cons in Hall as [[cv Hcv] Hall].
    apply Forall_cons in Hkeys as [[k Hk] Hkeys].
    rewrite for_each_cons, loop_body_Obj, Hcv, Hk.
    assert (Hstore : retained_ok (prev_state (store c st))).
    { simpl. eapply retain_one_retained_ok; eassumption. }
    destruct (prev_state st !! k) as [p|] eqn:Hlook.
    + destruct (_ && _).
      * destruct (Hok _ _ Hlook) as (_ & _ & _ & [v Hv] & _). rewrite Hv.
        apply IH; assumption.
      * apply IH; assumption.
    + apply IH; assumption.
Qed.

Lemma for_each_parse_ok cs :
  forall to_print st to_print' st',
  for_each (map Obj cs) (loop_body rt) to_print st = (Ok to_print', st') ->
  Forall (fun c => exists v, parse_int_or_none (ChooseStudent c) = Ok v) cs.
Proof.
  induction cs as [|c cs IH]; intros to_print st to_print' st'; [constructor|].
  simpl map. rewrite for_each_cons.
  destruct (loop_body rt (Obj c) to_print st) as [[tp1|e] st1] eqn:Hb;
    [|discriminate].
  intros Hl. constructor; [|eapply IH, Hl].
  rewrite loop_body_Obj in Hb.
  destruct (parse_int_or_none (ChooseStudent c)); [eauto | discriminate].
Qed.

(** A cycle whose loop completes, when no call on the terminal raises. *)
Lemma try_body_quiet data l lines st to_print st1 :
  faults st = [] ->
  sorted_by_CourseNo rt data = Ok l ->
  for_each l (loop_body rt) [] st = (Ok to_print, st1) ->
  try_body rt (Ok data) lines st
  = (Ok (), mk_state false (prev_state st1)
              (stdout st ++ cycle_output (first_run st) lines to_print) []).
Proof.
  intros Hf Hs Hl. rewrite try_body_unfold, Hs, Hl.
  apply for_each_Ok in Hl as (cs & -> & _ & -> & ->).
  cbn [first_run prev_state stdout faults]. unfold cycle_output.
  destruct (first_run st); cbv iota.
  - rewrite emit_quiet by exact Hf. rewrite call_quiet by reflexivity.
    cbn [first_run prev_state stdout faults]. rewrite <- app_assoc. reflexivity.
  - rewrite emit_quiet by exact Hf. rewrite call_quiet by reflexivity.
    cbn [first_run prev_state stdout faults]. rewrite <- app_assoc. reflexivity.
Qed.

(** X13: a cycle completes, whatever the terminal height, when no call on
    the terminal raises (no interrupt arrives and the terminal takes every
    character that is written), the state is well formed, the payload is an
    array of records whose sort keys are of one kind, and the count of
    every record is one that [parse_int_or_none] accepts (an integer,
    [None], or anything but a string of digits that [int] refuses). *)
Theorem cycle_completes (cs : list course) (lines : Z) (st : state) :
  faults st = [] ->
  retained_ok (prev_state st) ->
  one_kind cs ->
  Forall (fun c => exists v, parse_int_or_none (ChooseStudent c) = Ok v) cs ->
  exists st', try_body rt (Ok (JArray (map Obj cs))) lines st = (Ok (), st')
              /\ first_run st' = false /\ faults st' = [].
Proof.
  intros Hf Hok Hkind Hall.
  destruct (sorted_one_kind cs Hkind) as (cs' & Hs & Hperm).
  pose proof (one_kind_scalar_keys cs Hkind) as Hkeys.
  rewrite Hperm in Hall. unfold scalar_keys in Hkeys. rewrite Hperm in Hkeys.
  assert (Hkeys' : Forall (fun c => exists k, record_key c = Ok k) cs').
  { eapply Forall_impl; [exact Hkeys|]. intros c Hc. apply record_key_classed, Hc. }
  destruct (for_each_completes cs' [] st Hok Hall Hkeys') as (to_print & st1 & Hl).
  rewrite (try_body_quiet _ _ lines st _ _ Hf Hs Hl). eauto.
Qed.

Lemma for_each_fixpoint cs :
  forall to_print st,
  first_run st = false ->
  (forall c, c ∈ cs ->
     exists k, record_key c = Ok k /\ prev_state st !! k = Some (entry_of c)) ->
  Forall (fun c => exists v, parse_int_or_none (ChooseStudent c) = Ok v) cs ->
  Forall (fun c => py_eq (ChooseStudent c) (ChooseStudent c) = true) cs ->
  for_each (map Obj cs) (loop_body rt) to_print st = (Ok to_print, st).
Proof.
  induction cs as [|c cs IH]; intros to_print st Hfr Hlook Hall Heq; [reflexivity|].
  simpl map. apply Forall_cons in Hall as [[cv Hcv] Hall].
  apply Forall_cons in Heq as [Hc Heq].
  destruct (Hlook c (list_elem_of_here _ _)) as (k & Hk & Hp).
  rewrite for_each_cons, loop_body_Obj, Hcv, Hk, Hp.
  simpl choose_raw. unfold py_ne. rewrite Hc, andb_false_r.
  assert (Hid : store c st = st).
  { unfold store. rewrite (retain_one_id c _ k Hk Hp). symmetry. apply state_eta. }
  rewrite Hid.
  apply IH; try assumption.
  intros c' Hc'. apply Hlook. apply list_elem_of_further, Hc'.
Qed.

(** X14: a snapshot that does not change prints nothing: when a cycle has
    completed on an array of records with distinct keys, whose counts are
    equal to themselves (none is the not-a-number), the next cycle on the
    same array, when no call on the terminal raises, completes, types no
    line, leaves the retained state as it is and only sleeps. *)
Theorem unchanged_snapshot_is_silent
    (snapshot : list course) (lines lines' : Z) (st st1 : state) :
  NoDup (map record_key snapshot) ->
  Forall (fun c => py_eq (ChooseStudent c) (ChooseStudent c) = true) snapshot ->
  try_body rt (Ok (JArray (map Obj snapshot))) lines st = (Ok (), st1) ->
  faults st1 = [] ->
  try_body rt (Ok (JArray (map Obj snapshot))) lines' st1
  = (Ok (), mk_state false (prev_state st1)
              (stdout st1 ++ [Sleep INTERVAL_SECONDS]) []).
Proof.
  intros Hnd Heq Ht Hf1. pose proof Ht as Ht'.
  apply try_body_Ok in Ht'
    as (data & cs & [= <-] & Hs & Hkeys & Hfr1 & Hprev1 & _).
  pose proof (sorted_by_CourseNo_spec _ _ _ Hs) as (items & Hit & Hperm & _).
  injection Hit as <-.
  apply Permutation_map_inv in Hperm as (cs0 & Hcs0 & Hp).
  assert (cs0 = snapshot).
  { clear -Hcs0. revert cs0 Hcs0.
    induction snapshot as [|c cs IH]; intros [|c0 cs0] H;
      try discriminate; [reflexivity|].
    injection H as Hc H. subst c0. f_equal. apply IH, H. }
  subst cs0.
  assert (Hnd' : NoDup (map record_key cs)).
  { assert (Hpm : Permutation (map record_key cs) (map record_key snapshot))
      by apply Permutation_map, Hp.
    rewrite Hpm. exact Hnd. }
  assert (Heq' : Forall (fun c => py_eq (ChooseStudent c) (ChooseStudent c) = true) cs).
  { rewrite Hp. exact Heq. }
  assert (Hparse : Forall (fun c => exists v, parse_int_or_none (ChooseStudent c) = Ok v) cs).
  { revert Ht. rewrite try_body_unfold, Hs.
    destruct (for_each (map Obj cs) (loop_body rt) [] st) as [[tp|e] st0] eqn:Hl;
      [|discriminate].
    intros _. eapply for_each_parse_ok, Hl. }
  assert (Hlook : forall c, c ∈ cs ->
            exists k, record_key c = Ok k
                      /\ prev_state st1 !! k = Some (entry_of c)).
  { intros c Hc. rewrite Forall_forall in Hkeys.
    destruct (Hkeys c Hc) as [k Hk]. exists k. split; [exact Hk|].
    rewrite Hprev1.
    destruct (retain_present cs (prev_state st) c k Hc Hk) as (c' & Hc' & Hkey & Hlook).
    rewrite Hlook. f_equal. f_equal.
    apply (NoDup_map_inj record_key cs); try assumption. congruence. }
  pose proof (for_each_fixpoint cs [] st1 Hfr1 Hlook Hparse Heq') as Hfix.
  rewrite (try_body_quiet _ _ lines' st1 _ _ Hf1 Hs Hfix).
  rewrite Hfr1. reflexivity.
Qed.

Lemma try_body_fetch_raises e lines st :
  try_body rt (Raise e) lines st = (Raise e, st).
Proof. reflexivity. Qed.




Lemma try_body_first_run fetched lines st r st' :
  try_body rt fetched lines st = (r, st') ->
  first_run st = false -> first_run st' = false.
Proof.
  intros Ht Hfr. destruct r as [u|e].
  - apply try_body_Ok in Ht as (data & cs & _ & _ & _ & H & _). exact H.
  - revert Ht. rewrite try_body_unfold.
    destruct fetched as [data|e0]; [|intros [= <- <-]; exact Hfr].
    destruct (sorted_by_CourseNo rt data) as [l|e1]; [|intros [= <- <-]; exact Hfr].
    destruct (for_each l (loop_body rt) [] st) as [[to_print|e2] st1] eqn:Hloop.
    + apply for_each_Ok in Hloop as (cs & -> & _ & -> & ->).
      cbn [first_run]. rewrite Hfr.
      destruct (emit _ _) as [[u|e3] st2] eqn:He;
        apply emit_spec in He as (Hfr2 & _).
      * intros Hc. apply call_spec in Hc as (Hfr' & _). simpl in *. congruence.
      * intros [= <- <-]. simpl in *. congruence.
    + intros [= <- <-].
      apply for_each_Raise in Hloop as (cs & it & rest & _ & -> & _). exact Hfr.
Qed.

Lemma iteration_first_run fetched lines st :
  let st' := snd (iteration rt fetched lines st) in
  (first_run st = false -> first_run st' = false)
  /\ (faults st = [] ->
      faults st' = []
      /\ (first_run st' = true ->
          first_run st = true
          /\ (stdout st' = stdout st
              \/ stdout st' = stdout st ++ [Sleep INTERVAL_SECONDS]))).
Proof.
  unfold iteration.
  destruct (try_body rt fetched lines st) as [[u|e] st1] eqn:Ht.
  - pose proof (try_body_first_run _ _ _ _ _ Ht) as Hkeep.
    apply try_body_Ok in Ht as (data & cs & _ & _ & _ & Hfr & _ & _ & _ & Hq).
    simpl. split; [exact Hkeep|]. intros Hf. split; [apply Hq, Hf|]. congruence.
  - pose proof (try_body_first_run _ _ _ _ _ Ht) as Hkeep.
    assert (Hsleep :
      let st' := snd (match call (Sleep INTERVAL_SECONDS) st1 with
                      | (Ok _, st'') => (Continue, st'')
                      | (Raise e', st'') => (Propagate e', st'')
                      end) in
      (first_run st = false -> first_run st' = false)
      /\ (faults st = [] ->
          faults st' = []
          /\ (first_run st' = true ->
              first_run st = true
              /\ (stdout st' = stdout st
                  \/ stdout st' = stdout st ++ [Sleep INTERVAL_SECONDS])))).
    { cbv zeta. split.
      - intros Hfr. destruct (call _ st1) as [[u|e'] st''] eqn:Hc;
          apply call_spec in Hc as (Hfr' & _); simpl; rewrite Hfr'; auto.
      - intros Hf.
        destruct (try_body_Raise_quiet _ _ _ _ _ _ Ht Hf) as (Hfr1 & Hout1 & Hf1 & _).
        rewrite (call_quiet _ _ Hf1). simpl. split; [reflexivity|].
        intros H. split; [congruence|]. right. rewrite Hout1. reflexivity. }
    assert (Hstop :
      (first_run st = false -> first_run st1 = false)
      /\ (faults st = [] ->
          faults st1 = []
          /\ (first_run st1 = true ->
              first_run st = true
              /\ (stdout st1 = stdout st
                  \/ stdout st1 = stdout st ++ [Sleep INTERVAL_SECONDS])))).
    { split; [exact Hkeep|]. intros Hf.
      destruct (try_body_Raise_quiet _ _ _ _ _ _ Ht Hf) as (Hfr1 & Hout1 & Hf1 & _).
      split; [exact Hf1|]. intros H. split; [congruence | left; exact Hout1]. }
    destruct e; simpl; first [exact Hsleep | exact Hstop].
Qed.

(** X16: the baseline is the first cycle that completes, not the first
    cycle: once [first_run] is false it stays false, and, when no call on
    the terminal raises, as long as it is true the program has printed
    nothing and slept at most once per cycle. *)
Theorem baseline_until_a_cycle_completes
    (world : list (result payload * Z)) (st : state) :
  let st' := snd (main_loop rt world st) in
  (first_run st = false -> first_run st' = false)
  /\ (faults st = [] ->
      faults st' = []
      /\ (first_run st' = true ->
          first_run st = true
          /\ exists n, (n <= length world)%nat
                       /\ stdout st' = stdout st ++ repeat (Sleep INTERVAL_SECONDS) n)).
Proof.
  revert st. induction world as [|[fetched lines] world IH]; intros st; cbn zeta.
  - simpl. split; [auto|]. intros Hf. split; [exact Hf|]. intros H. split; [exact H|].
    exists O. split; [lia|]. simpl. symmetry. apply app_nil_r.
  - simpl main_loop.
    pose proof (iteration_first_run fetched lines st) as [Hkeep Hstill].
    destruct (iteration rt fetched lines st) as [c st1] eqn:Hit.
    simpl in Hkeep, Hstill.
    assert (Hone : faults st = [] -> first_run st1 = true ->
              first_run st = true
              /\ exists n, (n <= 1)%nat
                           /\ stdout st1 = stdout st ++ repeat (Sleep INTERVAL_SECONDS) n).
    { intros Hf H. destruct (Hstill Hf) as [_ Hs].
      destruct (Hs H) as [Hfr [Hout|Hout]]; split; try assumption.
      - exists O. split; [lia|]. rewrite Hout. simpl. symmetry. apply app_nil_r.
      - exists 1%nat. split; [lia|]. exact Hout. }
    destruct c as [| |e].
    + specialize (IH st1). cbn zeta in IH. destruct IH as [IHkeep IHstill].
      split; [auto|]. intros Hf. destruct (Hstill Hf) as [Hf1 _].
      destruct (IHstill Hf1) as [Hf' IHs]. split; [exact Hf'|]. intros H.
      destruct (IHs H) as (Hfr1 & n & Hn & Hout).
      destruct (Hone Hf Hfr1) as (Hfr & m & Hm & Hout1).
      split; [exact Hfr|].
      exists (m + n)%nat. split; [simpl; lia|].
      rewrite Hout, Hout1, repeat_app, app_assoc. reflexivity.
    + simpl. split; [exact Hkeep|]. intros Hf. destruct (Hstill Hf) as [Hf1 _].
      split; [exact Hf1|]. intros H.
      destruct (Hone Hf H) as (Hfr & m & Hm & Hout1).
      split; [exact Hfr|]. exists m. split; [simpl; lia | exact Hout1].
    + simpl. split; [exact Hkeep|]. intros Hf. destruct (Hstill Hf) as [Hf1 _].
      split; [exact Hf1|]. intros H.
      destruct (Hone Hf H) as (Hfr & m & Hm & Hout1).
      split; [exact Hfr|]. exists m. split; [simpl; lia | exact Hout1].
Qed.

End Cycles.

Lemma cycle_completes_witness :
  exists st',
    try_body sample_runtime
      (Ok (JArray (map Obj [cs201 (PNum (NInt 50)); keyless (PStr (lit "n/a"))])))
      24 initial_state = (Ok (), st')
    /\ first_run st' = false /\ faults st' = [].
Proof.
  apply (cycle_completes sample_runtime
           [cs201 (PNum (NInt 50)); keyless (PStr (lit "n/a"))] 24 initial_state).
  - reflexivity.
  - exact retained_ok_empty.
  - exists true. repeat constructor.
  - repeat constructor; eexists; reflexivity.
Defined.

Lemma unchanged_snapshot_is_silent_witness :
  let snapshot := [cs201 (PNum (NInt 50)); cs101 (PNum (NInt 10))] in
  let st1 := snd (try_body sample_runtime (Ok (JArray (map Obj snapshot))) 24
                    initial_state) in
  stdout (snd (try_body sample_runtime (Ok (JArray (map Obj snapshot))) 24 st1))
  = stdout st1 ++ [Sleep INTERVAL_SECONDS].
Proof.
  cbv zeta.
  rewrite (unchanged_snapshot_is_silent sample_runtime
             [cs201 (PNum (NInt 50)); cs101 (PNum (NInt 10))] 24 24 initial_state
             (snd (try_body sample_runtime
                     (Ok (JArray (map Obj [cs201 (PNum (NInt 50));
                                           cs101 (PNum (NInt 10))])))
                     24 initial_state))).
  - reflexivity.
  - repeat constructor; vm_compute; intros H;
      repeat (apply elem_of_cons in H as [H|H]; [discriminate|]);
      apply elem_of_nil in H; exact H.
  - repeat constructor.
  - vm_compute. reflexivity.
  - vm_compute. reflexivity.
Defined.

(** A count that is the not-a-number is typed again in every cycle,
    although the snapshot does not change. *)
Example nan_prints_every_cycle :
  let snapshot := JArray [Obj (cs101 nan)] in
  sleeps
    (stdout (snd (main_loop sample_runtime
                    [(Ok snapshot, 24); (Ok snapshot, 24); (Ok snapshot, 24)]
                    initial_state)))
  = (3 + 2 * 79)%nat.
Proof. vm_compute. reflexivity. Qed.

(** Two records with one key and different counts: each finds the count of
    the other in the retained state, and every cycle after the baseline
    types two lines although the snapshot does not change. *)
Example duplicate_key_prints_every_cycle :
  let snapshot := JArray [Obj (cs101 (PNum (NInt 10))); Obj (cs101 (PNum (NInt 11)))] in
  sleeps
    (stdout (snd (main_loop sample_runtime
                    [(Ok snapshot, 24); (Ok snapshot, 24); (Ok snapshot, 24)]
                    initial_state)))
  = (3 + 2 * 2 * 79)%nat.
Proof. vm_compute. reflexivity. Qed.


Lemma baseline_until_a_cycle_completes_witness :
  exists n, (n <= 2)%nat
    /\ stdout
         (snd (main_loop sample_runtime
                 [(Raise HTTPError, 24); (Ok (JObject [lit "error"]), 24)]
                 initial_state))
       = stdout initial_state ++ repeat (Sleep INTERVAL_SECONDS) n.
Proof.
  destruct (proj2 (baseline_until_a_cycle_completes sample_runtime
                     [(Raise HTTPError, 24); (Ok (JObject [lit "error"]), 24)]
                     initial_state) eq_refl) as (_ & H).
  destruct (H eq_refl) as (_ & n & Hn & Hout).
  exists n. split; [exact Hn | exact Hout].
Defined.

(** ** Numerals that do not fit in column 2 *)

(** X17: when the numeral has 15 characters or more, column 2 is the sign
    marker, a space and the first 14 characters of the numeral, all in
    yellow: the numeral is cut and its colour is lost, the capacity is not
    shown. The sign marker still tells an increase. *)
Theorem build_colored_line_long_numeral (rt : runtime)
    (course_no course_name r2 classroom : pyval) (cv pv : option pynum) :
  (14 < length (choose_str_of cv))%nat ->
  exists sign : char,
    (sign = 43%N <-> increased cv pv)
    /\ (sign = 45%N <-> ~ increased cv pv)
    /\ build_colored_line rt course_no course_name cv r2 classroom pv
       = Fore.CYAN
           ++ pad_vis rt (py_str rt course_no ++ lit " | " ++ py_str rt course_name)
                COL1_WIDTH
           ++ Style.RESET_ALL
           ++ (Fore.YELLOW ++ [sign; SPACE] ++ take 14 (choose_str_of cv)
                 ++ Style.RESET_ALL)
           ++ Fore.GREEN ++ lit "| " ++ py_str rt classroom ++ Style.RESET_ALL.
Proof.
  intros Hlen. exists (sign_of cv pv).
  destruct (sign_of_iff cv pv) as [Hplus Hminus].
  split_and!; try assumption.
  rewrite build_colored_line_parts, (part2_col_long rt cv pv r2 Hlen).
  reflexivity.
Qed.

Lemma build_colored_line_long_numeral_witness :
  exists sign : char,
    build_colored_line sample_runtime (PStr (lit "CS101"))
      (PStr (lit "Algorithms")) (Some (NInt 123456789012345)) (PStr (lit "60"))
      (PStr (lit "IB-201")) (Some (NInt 1))
    = Fore.CYAN
        ++ pad_vis sample_runtime (lit "CS101 | Algorithms") COL1_WIDTH
        ++ Style.RESET_ALL
        ++ (Fore.YELLOW ++ [sign; SPACE] ++ lit "12345678901234"
              ++ Style.RESET_ALL)
        ++ Fore.GREEN ++ lit "| IB-201" ++ Style.RESET_ALL.
Proof.
  destruct (build_colored_line_long_numeral sample_runtime
              (PStr (lit "CS101")) (PStr (lit "Algorithms")) (PStr (lit "60"))
              (PStr (lit "IB-201")) (Some (NInt 123456789012345)) (Some (NInt 1)))
    as (sign & _ & _ & Hline).
  - vm_compute. lia.
  - exists sign. exact Hline.
Defined.

(** ** sorted is stable *)

(** Between a number and anything, [==] is that of what they are
    worth. *)
Lemma py_eq_number_of a k :
  key_class a = Some false ->
  py_eq a k = number_eq (number_of a) (number_of k).
Proof.
  intros Ha.
  destruct a as [|m|f|s|l|d]; simpl in Ha; try discriminate Ha;
    destruct k as [|n|g|t|l'|d']; cbn [py_eq number_of];
    rewrite ?number_eq_ints; try reflexivity;
    try (unfold int_number; reflexivity);
    destruct (float_number f); reflexivity.
Qed.

Lemma py_lt_not_equal a b k :
  classed a -> classed b ->
  py_eq a k = true -> py_eq b k = true -> py_lt b a <> Ok true.
Proof.
  intros [ka Ha] [kb Hb] Hak Hbk.
  destruct ka, kb.
  - destruct a as [|m|f|s|l|d]; simpl in Ha; try discriminate Ha;
      try (destruct f as [? | [|] | |[|] ? ?]; discriminate Ha).
    destruct b as [|n|g|t|l'|d']; simpl in Hb; try discriminate Hb;
      try (destruct g as [? | [|] | |[|] ? ?]; discriminate Hb).
    destruct k as [|o|h|u|l''|d'']; simpl in Hak, Hbk; try discriminate.
    apply bool_decide_eq_true in Hak, Hbk. subst. simpl.
    intros [= H]. pose proof (str_lt_asym _ _ H). congruence.
  - rewrite (py_eq_number_of b k Hb) in Hbk.
    destruct a as [|m|f|s|l|d]; simpl in Ha; try discriminate Ha;
      try (destruct f as [? | [|] | |[|] ? ?]; discriminate Ha).
    destruct k as [|o|h|u|l''|d'']; simpl in Hak; try discriminate Hak.
    simpl in Hbk. destruct (number_of b); discriminate Hbk.
  - rewrite (py_eq_number_of a k Ha) in Hak.
    destruct b as [|n|g|t|l'|d']; simpl in Hb; try discriminate Hb;
      try (destruct g as [? | [|] | |[|] ? ?]; discriminate Hb).
    destruct k as [|o|h|u|l''|d'']; simpl in Hbk; try discriminate Hbk.
    simpl in Hak. destruct (number_of a); discriminate Hak.
  - rewrite (py_eq_number_of a k Ha) in Hak.
    rewrite (py_eq_number_of b k Hb) in Hbk.
    rewrite (py_lt_numbers b a Hb Ha).
    rewrite (number_lt_not_equal _ _ _ Hak Hbk). discriminate.
Qed.

Lemma insert_sorted_stable k x l r :
  classed (fst x) -> keys_classed l ->
  insert_sorted x l = Ok r ->
  List.filter (fun y => py_eq (fst y) k) r
  = List.filter (fun y => py_eq (fst y) k) (x :: l).
Proof.
  intros Hcx Hcl. revert r. induction Hcl as [|y l Hcy Hcl IH]; intros r; simpl.
  - intros [= <-]. reflexivity.
  - destruct (py_lt (fst y) (fst x)) as [[|]|] eqn:Hlt; simpl; try discriminate.
    + destruct (insert_sorted x l) as [r'|]; simpl; [|discriminate].
      intros [= <-]. simpl. rewrite (IH r' eq_refl). simpl.
      destruct (py_eq (fst x) k) eqn:Hx, (py_eq (fst y) k) eqn:Hy; try reflexivity.
      destruct (py_lt_not_equal _ _ _ Hcx Hcy Hx Hy Hlt).
    + intros [= <-]. reflexivity.
Qed.

Lemma insertion_sort_stable k d :
  keys_classed d ->
  forall r,
  insertion_sort d = Ok r ->
  List.filter (fun y => py_eq (fst y) k) r
  = List.filter (fun y => py_eq (fst y) k) d.
Proof.
  induction 1 as [|x d Hx Hd IH]; intros r; simpl.
  - intros [= <-]. reflexivity.
  - destruct (insertion_sort d) as [r'|] eqn:Hr'; simpl; [|discriminate].
    intros Hins.
    rewrite (insert_sorted_stable k x r' r Hx) by
      (try exact Hins; rewrite <- (insertion_sort_perm d r' Hr'); exact Hd).
    simpl. rewrite (IH r' eq_refl). reflexivity.
Qed.

Lemma filter_decorated k r :
  Forall (fun x => sort_key (snd x) = Ok (fst x)) r ->
  List.filter (has_sort_key k) (map snd r)
  = map snd (List.filter (fun y => py_eq (fst y) k) r).
Proof.
  induction 1 as [|x r Hx _ IH]; [reflexivity|].
  simpl. unfold has_sort_key at 1. rewrite Hx, IH.
  destruct (py_eq (fst x) k); reflexivity.
Qed.

(** X18: [sorted] is stable: when the sort keys are strings or numbers,
    among the elements whose sort keys are equal the order of the payload
    is kept. *)
Theorem sorted_is_stable (rt : runtime) (data : payload) (l : list item) (k : pyval) :
  sorted_by_CourseNo rt data = Ok l ->
  exists items,
    iterate data = Ok items
    /\ (items_classed items ->
        List.filter (has_sort_key k) l = List.filter (has_sort_key k) items).
Proof.
  unfold sorted_by_CourseNo.
  destruct (iterate data) as [items|]; simpl; [|discriminate].
  destruct (decorate items) as [d|] eqn:Hd; simpl; [|discriminate].
  destruct (sort_decorated rt d) as [r|] eqn:Hr; simpl; [|discriminate].
  intros [= <-].
  apply decorate_spec in Hd as [Hmap Hkeys].
  pose proof (sort_decorated_spec rt d r Hr) as [Hperm _].
  exists items. split; [reflexivity|]. intros Hcl.
  assert (Hd : keys_classed d).
  { subst items. clear -Hkeys Hcl. induction Hkeys as [|x d Hx _ IH]; [constructor|].
    simpl in Hcl. apply Forall_cons in Hcl as [(k & Hk & Hck) Hcl].
    constructor; [|apply IH, Hcl]. congruence. }
  rewrite sort_decorated_classed in Hr by exact Hd.
  rewrite filter_decorated by (rewrite <- Hperm; exact Hkeys).
  rewrite (insertion_sort_stable k d Hd r Hr).
  rewrite <- filter_decorated by exact Hkeys.
  rewrite Hmap. reflexivity.
Qed.

Lemma sorted_is_stable_witness :
  exists l,
    sorted_by_CourseNo sample_runtime
      (JArray [Obj (cs201 (PNum (NInt 1))); Obj (cs101 (PNum (NInt 2)));
               Obj (cs201 (PNum (NInt 3)))]) = Ok l
    /\ List.filter (has_sort_key (PStr (lit "CS201"))) l
       = [Obj (cs201 (PNum (NInt 1))); Obj (cs201 (PNum (NInt 3)))].
Proof.
  eexists. split; [reflexivity|].
  destruct (sorted_is_stable sample_runtime
              (JArray [Obj (cs201 (PNum (NInt 1))); Obj (cs101 (PNum (NInt 2)));
                       Obj (cs201 (PNum (NInt 3)))])
              _ (PStr (lit "CS201")) eq_refl) as (items & Hit & Hfilter).
  injection Hit as <-. apply Hfilter.
  repeat constructor; eexists; split; try reflexivity; eexists; reflexivity.
Defined.

(** ** The columns of a row line up *)

Section RowLayout.

Variable rt : runtime.

Local Abbreviation vw := (visual_width rt).

(** X19: in every row whose fields do not hold the escape character, and
    for which [wcswidth] measures the prefixes of the texts of the first
    two columns as the sum of their characters, what [type_out] types
    character by character is a first column of width 54, a second column
    of width 16, and then the room after ["| "]: the third column starts at
    the same terminal column in every row. *)
Theorem row_columns_line_up
    (course_no course_name r2 classroom : pyval) (cv pv : option pynum) :
  let text1 := py_str rt course_no ++ lit " | " ++ py_str rt course_name in
  let text2 := part2_vis_of rt (choose_color_of cv pv) (choose_str_of cv) r2 in
  escape_free (py_str rt course_no) ->
  escape_free (py_str rt course_name) ->
  escape_free (py_str rt r2) ->
  escape_free (py_str rt classroom) ->
  (forall n, wcswidth rt (take n text1) = vw (take n text1)) ->
  (forall n, wcswidth rt (take n text2) = vw (take n text2)) ->
  exists us col1 col2,
    typed_as
      (build_colored_line rt course_no course_name cv r2 classroom pv ++ [LF])
      us
    /\ visible_text us = col1 ++ col2 ++ lit "| " ++ py_str rt classroom ++ [LF]
    /\ vw col1 = COL1_WIDTH
    /\ vw col2 = COL2_WIDTH.
Proof.
  intros text1 text2 Hno Hname Hr2 Hroom Hsum1 Hsum2.
  destruct (build_colored_line_chunks rt course_no course_name r2 classroom
              cv pv Hno Hname Hr2 Hroom) as (ks & Hok & Hstr & Hvis & _).
  pose proof (typed_as_chunks ks Hok) as Htyped. rewrite Hstr in Htyped.
  exists (flat_map chunk_units ks),
    (pad_vis rt text1 COL1_WIDTH), (pad_vis rt text2 COL2_WIDTH).
  split_and!.
  - exact Htyped.
  - rewrite visible_text_chunks, Hvis. repeat rewrite <- app_assoc. reflexivity.
  - destruct (pad_vis_loop_spec rt text1 COL1_WIDTH 0 []) as (n & _ & Heq & Hfit & _).
    simpl in Heq. specialize (Hfit ltac:(unfold COL1_WIDTH; lia)).
    unfold pad_vis, str_mul. rewrite Heq, Hsum1.
    rewrite visual_width_app, visual_width_repeat_space. lia.
  - destruct (pad_vis_loop_spec rt text2 COL2_WIDTH 0 []) as (n & _ & Heq & Hfit & _).
    simpl in Heq. specialize (Hfit ltac:(unfold COL2_WIDTH; lia)).
    unfold pad_vis, str_mul. rewrite Heq, Hsum2.
    rewrite visual_width_app, visual_width_repeat_space. lia.
Qed.

End RowLayout.

Lemma row_columns_line_up_witness :
  exists us col1 col2,
    typed_as
      (build_colored_line sample_runtime (PStr (lit "CS101"))
         (PStr [0x6f14%N; 0x7b97%N; 0x6cd5%N]) (Some (NInt 15)) (PStr (lit "60"))
         (PStr (lit "IB-201")) (Some (NInt 10)) ++ [LF]) us
    /\ visible_text us = col1 ++ col2 ++ lit "| " ++ lit "IB-201" ++ [LF]
    /\ visual_width sample_runtime col1 = 54
    /\ visual_width sample_runtime col2 = 16.
Proof.
  apply (row_columns_line_up sample_runtime
           (PStr (lit "CS101")) (PStr [0x6f14%N; 0x7b97%N; 0x6cd5%N])
           (PStr (lit "60")) (PStr (lit "IB-201")) (Some (NInt 15)) (Some (NInt 10))).
  - repeat constructor; discriminate.
  - repeat constructor; discriminate.
  - repeat constructor; discriminate.
  - repeat constructor; discriminate.
  - intros n. do 12 (destruct n as [|n]; [vm_compute; reflexivity|]).
    vm_compute. reflexivity.
  - intros n. do 10 (destruct n as [|n]; [vm_compute; reflexivity|]).
    vm_compute. reflexivity.
Defined.
